(** * Verification of the b-jet selection notebook

    The notebook reads a table of simulated jets into the global [data],
    turns one score column into a 0/1 decision per jet (the global
    [bquark]) and scores that decision against the truth column
    [data['isb']] with [evaluate], which fills a 2x2 confusion matrix and
    derives the fraction of wrong decisions and the accuracy.

    The development follows the notebook cell by cell:
    - [PyFloat]: binary64 arithmetic as Python's [float] performs it;
    - the notebook's global variables and a state-and-exception monad;
    - the selection cell and [evaluate], statement by statement;
    - what the specification says of both, in its own words;
    - the other cells: the choice of the input columns, the split of
      [prob_b] by event type, the two cells that call [evaluate].

    The properties come in the same order: what the binary64 operations
    of [evaluate] compute (one rounding each, characterised in integers),
    what a run of [evaluate] returns (the counts, then the two floats),
    and the claims of the specification, C1 to C10. Further properties,
    X1 to X21, follow: what [evaluate] and the cells raise, the range and
    the order of the two fractions, and how the cells compose. *)

From Stdlib Require Import ZArith QArith Qabs Qpower Bool Lia Lqa SpecFloat.
From stdpp Require Import base list strings gmap.

Open Scope Z_scope.

(** ** Python floats

    A Python [float] and a numpy [float64] are IEEE 754 binary64 numbers.
    The operations are the ones of the Standard Library's executable
    specification, at precision 53 and maximal exponent 1024. *)
Module PyFloat.

Definition prec : Z := 53.
Definition emax : Z := 1024.

Definition float := spec_float.

(** The literals [0.0], [1.0] and [0.5]. *)
Definition zero : float := S754_zero false.
Definition one : float := S754_finite false 4503599627370496 (-52).
Definition half : float := S754_finite false 4503599627370496 (-53).

(** The nearest binary64 number of an integer, ties to even; an
    infinity when the integer is out of range. *)
Definition of_Z (z : Z) : float := binary_normalize prec emax z 0 false.

Definition div (x y : float) : float := SFdiv prec emax x y.
Definition sub (x y : float) : float := SFsub prec emax x y.
Definition add (x y : float) : float := SFadd prec emax x y.
Definition eqb (x y : float) : bool := SFeqb x y.
Definition ltb (x y : float) : bool := SFltb x y.

Definition is_zero (x : float) : bool :=
  match x with S754_zero _ => true | _ => false end.

Definition is_infinity (x : float) : bool :=
  match x with S754_infinity _ => true | _ => false end.

(** The rational number a float stands for (0 for infinities and NaN,
    which the statements below exclude). *)
Definition to_Q (x : float) : Q :=
  match x with
  | S754_finite s m e => inject_Z (cond_Zopp s (Z.pos m)) * (2 ^ e)%Q
  | _ => 0%Q
  end.

End PyFloat.

Abbreviation float := PyFloat.float.

(** ** Values, exceptions and the notebook's globals *)

(** An element of a Python list of numbers: an [int] or a [float]. *)
Inductive scalar :=
| PyInt (z : Z)
| PyFloat (f : float).

(** A column of the table. [np.genfromtxt] reads every column as float64. *)
Definition Series := list float.

Inductive exn := IndexError | KeyError | ZeroDivisionError | OverflowError.

Inductive result (A : Type) :=
| Ok (a : A)
| Raise (e : exn).
Arguments Ok {A} a.
Arguments Raise {A} e.

(** The module-level variables the cells read and write. [data] is the
    DataFrame, a map from column names to columns. *)
Record Globals := {
  SavePlots : bool;
  data : gmap string Series;
  cut_prop_b : float;
  bquark : list scalar
}.

Definition set_cut_prop_b (c : float) (g : Globals) : Globals :=
  {| SavePlots := SavePlots g; data := data g; cut_prop_b := c; bquark := bquark g |}.

Definition set_bquark (l : list scalar) (g : Globals) : Globals :=
  {| SavePlots := SavePlots g; data := data g; cut_prop_b := cut_prop_b g; bquark := l |}.

(** A statement runs in the globals, may change them, and either yields
    a value or raises; what it changed before raising stays changed. *)
Definition M (A : Type) : Type := Globals -> result A * Globals.

Definition ret {A} (a : A) : M A := fun g => (Ok a, g).

Definition bind {A B} (m : M A) (k : A -> M B) : M B :=
  fun g => match m g with
           | (Ok a, g') => k a g'
           | (Raise e, g') => (Raise e, g')
           end.

Definition lift {A} (r : result A) : M A := fun g => (r, g).

Definition read {A} (f : Globals -> A) : M A := fun g => (Ok (f g), g).

Definition write (f : Globals -> Globals) : M unit := fun g => (Ok tt, f g).

Declare Scope py_scope.
Delimit Scope py_scope with py.
Notation "x <- c ;; k" := (bind c (fun x => k))
  (at level 100, c at next level, right associativity) : py_scope.
Notation "c ;;; k" := (bind c (fun _ => k))
  (at level 100, right associativity) : py_scope.
Open Scope py_scope.

(** [for i in np.arange(n): body], threading the loop's local state. *)
Fixpoint for_each {S} (idx : list nat) (body : nat -> S -> M S) (s : S) : M S :=
  match idx with
  | [] => ret s
  | i :: rest => s' <- body i s ;; for_each rest body s'
  end.

Definition for_range {S} (n : nat) (body : nat -> S -> M S) (s : S) : M S :=
  for_each (seq 0 n) body s.

(** *** Primitive operations *)

(** [l[i]] on a Python list, for an index that is not negative. *)
Definition list_getitem {A} (l : list A) (i : nat) : result A :=
  match l !! i with
  | Some x => Ok x
  | None => Raise IndexError
  end.

(** [data[name]]. *)
Definition getcol (name : string) : M Series :=
  fun g => match data g !! name with
           | Some col => (Ok col, g)
           | None => (Raise KeyError, g)
           end.

(** [col[i]] on a column with the default index [0 .. len-1]. *)
Definition series_getitem (col : Series) (i : nat) : result float :=
  match col !! i with
  | Some x => Ok x
  | None => Raise KeyError
  end.

(** [float(z)] for a Python [int]. *)
Definition float_of_int (z : Z) : result float :=
  let f := PyFloat.of_Z z in
  if PyFloat.is_infinity f then Raise OverflowError else Ok f.

(** [x / y] on Python floats. *)
Definition truediv (x y : float) : result float :=
  if PyFloat.is_zero y then Raise ZeroDivisionError else Ok (PyFloat.div x y).

(** [v == k] for an integer literal [k]; the notebook only uses 0 and 1. *)
Definition eq_lit (v : scalar) (k : Z) : bool :=
  match v with
  | PyInt z => z =? k
  | PyFloat f => PyFloat.eqb f (PyFloat.of_Z k)
  end.

(** [d == k] for an element of a column. *)
Definition feq_lit (d : float) (k : Z) : bool := PyFloat.eqb d (PyFloat.of_Z k).

(** [v == d] between a list element and a column element. *)
Definition scalar_eq (v : scalar) (d : float) : bool :=
  match v with
  | PyInt z => PyFloat.eqb (PyFloat.of_Z z) d
  | PyFloat f => PyFloat.eqb f d
  end.

(** ** The selection cell

<<
cut_prop_b  = 0.15
bquark=[]
for i in np.arange(len(data['prob_b'])):
    if (data['prob_b'][i] > cut_prop_b) : bquark.append(1)
    else : bquark.append(0)
>>
*)

(** The literal [0.15]. *)
Definition lit_0_15 : float := S754_finite false 5404319552844595 (-55).

Definition bquark_append (v : scalar) : M unit :=
  write (fun g => set_bquark (bquark g ++ [v]) g).

(** The cell from [bquark=[]] on: it reads the cut from [cut_prop_b]. *)
Definition select_bquark : M unit :=
  write (set_bquark []) ;;;
  col <- getcol "prob_b" ;;
  for_range (length col) (fun i _ =>
    col <- getcol "prob_b" ;;
    x <- lift (series_getitem col i) ;;
    cut <- read cut_prop_b ;;
    if PyFloat.ltb cut x then bquark_append (PyInt 1)
    else bquark_append (PyInt 0)) tt.

Definition selection_cell : M unit :=
  write (set_cut_prop_b lit_0_15) ;;;
  select_bquark.

(** ** The evaluation

<<
def evaluate(bquark) :
    N = [[0,0], [0,0]]
    for i in np.arange(len(data['isb'])):
        if (bquark[i] == 0 and data['isb'][i] == 0) : N[0][0] += 1
        if (bquark[i] == 0 and data['isb'][i] == 1) : N[0][1] += 1
        if (bquark[i] == 1 and data['isb'][i] == 0) : N[1][0] += 1
        if (bquark[i] == 1 and data['isb'][i] == 1) : N[1][1] += 1
    fracWrong = float(N[0][1]+N[1][0])/float(len(data['isb']))
    accuracy = 1.0 - fracWrong
    return N, accuracy, fracWrong
>>
*)

Definition matrix := list (list Z).

(** [N[r][c]]. *)
Definition cell (N : matrix) (r c : nat) : result Z :=
  match N !! r with
  | Some row => list_getitem row c
  | None => Raise IndexError
  end.

(** [N[r][c] += 1]. *)
Definition incr (r c : nat) (N : matrix) : result matrix :=
  match N !! r with
  | Some row =>
      match row !! c with
      | Some v => Ok (<[r := <[c := v + 1]> row]> N)
      | None => Raise IndexError
      end
  | None => Raise IndexError
  end.

(** [bquark[i] == r and data['isb'][i] == c]: the column is read only
    when the first comparison holds. *)
Definition test (bquark : list scalar) (i : nat) (r c : Z) : M bool :=
  b <- lift (list_getitem bquark i) ;;
  if eq_lit b r then
    col <- getcol "isb" ;;
    d <- lift (series_getitem col i) ;;
    ret (feq_lit d c)
  else ret false.

(** One [if ... : N[r][c] += 1] line. *)
Definition count_if (bquark : list scalar) (i : nat) (r c : nat) (N : matrix) : M matrix :=
  t <- test bquark i (Z.of_nat r) (Z.of_nat c) ;;
  if t then lift (incr r c N) else ret N.

(** The body of the loop. *)
Definition evaluate_body (bquark : list scalar) (i : nat) (N : matrix) : M matrix :=
  N <- count_if bquark i 0 0 N ;;
  N <- count_if bquark i 0 1 N ;;
  N <- count_if bquark i 1 0 N ;;
  count_if bquark i 1 1 N.

Definition evaluate (bquark : list scalar) : M (matrix * float * float) :=
  let N := [[0; 0]; [0; 0]] in
  col <- getcol "isb" ;;
  N <- for_range (length col) (evaluate_body bquark) N ;;
  n01 <- lift (cell N 0 1) ;;
  n10 <- lift (cell N 1 0) ;;
  wrong <- lift (float_of_int (n01 + n10)) ;;
  col <- getcol "isb" ;;
  total <- lift (float_of_int (Z.of_nat (length col))) ;;
  fracWrong <- lift (truediv wrong total) ;;
  let accuracy := PyFloat.sub PyFloat.one fracWrong in
  ret (N, accuracy, fracWrong).

(** ** Reading a run *)

(** The value a statement yields, or the exception it raises. *)
Definition outcome {A} (m : M A) (g : Globals) : result A := fst (m g).

(** The globals a statement leaves behind. *)
Definition final {A} (m : M A) (g : Globals) : Globals := snd (m g).

(** A statement that neither writes a global nor reads anything but the
    column [data['isb']]. *)
Definition reads_only_isb {A} (m : M A) : Prop :=
  forall g,
    final m g = g /\
    forall g', data g' !! "isb" = data g !! "isb" -> outcome m g' = outcome m g.

(** ** What the specification says of the evaluator *)

(** The confusion matrix with the four counts. *)
Definition mat (n00 n01 n10 n11 : Z) : matrix := [[n00; n01]; [n10; n11]].

(** The sum of all the counts of a matrix. *)
Definition total (N : matrix) : Z := foldr Z.add 0 (concat N).

Definition ind (b : bool) : Z := if b then 1 else 0.

(** Does the pair [(v, d)] fall in cell [(r, c)]? *)
Definition in_cell (r c : Z) (v : scalar) (d : float) : bool :=
  eq_lit v r && feq_lit d c.

(** Specification: the count at [(r, c)] is the number of indices [i],
    below both lengths, with [predicted[i] == r] and [actual[i] == c]. *)
Fixpoint spec_count (r c : Z) (predicted : list scalar) (actual : Series) : Z :=
  match predicted, actual with
  | v :: predicted', d :: actual' =>
      ind (in_cell r c v d) + spec_count r c predicted' actual'
  | _, _ => 0
  end.

(** A binary label: a value that compares equal to 0 or to 1. *)
Definition is_label (v : scalar) : bool := eq_lit v 0 || eq_lit v 1.
Definition is_flabel (d : float) : bool := feq_lit d 0 || feq_lit d 1.

Definition binary (l : list scalar) : Prop := Forall (fun v => is_label v = true) l.
Definition binary_col (l : Series) : Prop := Forall (fun d => is_flabel d = true) l.

(** The largest length a Python sequence can have on a 64-bit build
    ([sys.maxsize]). *)
Definition sys_maxsize : Z := 2 ^ 63 - 1.

(** Below this bound [float(n)] is exact for every count. *)
Definition exact_int_bound : Z := 2 ^ 53.

(** The last three lines of [evaluate], once the loop has left the
    counts [n00 .. n11] and the column has [n] rows. *)
Definition report (n00 n01 n10 n11 : Z) (n : nat) : result (matrix * float * float) :=
  match float_of_int (n01 + n10) with
  | Raise e => Raise e
  | Ok wrong =>
      match float_of_int (Z.of_nat n) with
      | Raise e => Raise e
      | Ok tot =>
          match truediv wrong tot with
          | Raise e => Raise e
          | Ok fracWrong => Ok (mat n00 n01 n10 n11, PyFloat.sub PyFloat.one fracWrong, fracWrong)
          end
      end
  end.

(** ** Rounding, in integers

    The Standard Library rounds a mantissa by shifting it right one bit
    at a time while it records a round bit and a sticky bit. The
    definitions below say what that computes. *)

(** [mrs] holds the integer part of [num/den] and the position of the
    fractional part with respect to one half. *)
Definition located (num den : Z) (mrs : shr_record) : Prop :=
  shr_m mrs = num / den /\
  shr_r mrs = (den <=? 2 * (num mod den)) /\
  shr_s mrs = negb ((num mod den =? 0) || (2 * (num mod den) =? den)).

(** [num/den] rounded to a nearest integer, ties to even. *)
Definition rne (num den : Z) : Z :=
  let q := num / den in
  let rho := num mod den in
  if 2 * rho <? den then q
  else if 2 * rho =? den then (if Z.even q then q else q + 1)
  else q + 1.

(** The float of sign [s] with mantissa [M] at exponent [E]; a mantissa
    of 54 bits, which can only be [2^53], moves to the next exponent. *)
Definition mk_float (s : bool) (M E : Z) : float :=
  let (M, E) := if M =? 2 ^ 53 then (2 ^ 52, E + 1) else (M, E) in
  match M with
  | Z.pos m => if E <=? 971 then S754_finite s m E else S754_infinity s
  | Z0 => S754_zero s
  | Z.neg _ => S754_nan
  end.

(** ** Inputs used in the examples *)

(** The literals [0.1] and [0.9]. *)
Definition lit_0_1 : float := S754_finite false 7205759403792794 (-56).
Definition lit_0_9 : float := S754_finite false 8106479329266893 (-53).

(** Globals after loading a table whose only column is [isb]. *)
Definition globals_with (isb : Series) : Globals :=
  {| SavePlots := false; data := {[ "isb" := isb ]};
     cut_prop_b := lit_0_15; bquark := [] |}.

(** Globals with a score column, a cut, and a stale [bquark]. *)
Definition globals_scores (prob_b : Series) (cut : float) : Globals :=
  {| SavePlots := false; data := {[ "prob_b" := prob_b ]};
     cut_prop_b := cut; bquark := [PyInt 7] |}.

(** ** What the specification says of the threshold classifier *)

(** Specification: the label is 1 when the score is strictly above the
    threshold, and 0 otherwise. *)
Definition spec_label (threshold score : float) : scalar :=
  if PyFloat.ltb threshold score then PyInt 1 else PyInt 0.

(** ** The other cells of the notebook *)

(** *** Choosing the input variables

<<
variables = data.columns
input_variables = variables[(variables != 'nnbjet') & (variables != 'isb') & (variables != 'energy') & (variables != 'cTheta') & (variables != 'phi')]
input_data      = data[input_variables]
truth_data      = data['isb']
benchmark_data  = data['nnbjet']
>>
*)

(** The names that pass the five comparisons, in the order of
    [variables]. *)
Definition input_variables (variables : list string) : list string :=
  filter (fun v => v <> "nnbjet" /\ v <> "isb" /\ v <> "energy" /\
                   v <> "cTheta" /\ v <> "phi") variables.

(** [data[names]] for a list of names: the columns of these names, in
    this order; one missing name raises. *)
Fixpoint getcols (names : list string) : M (list (string * Series)) :=
  match names with
  | [] => ret []
  | name :: rest =>
      col <- getcol name ;;
      cols <- getcols rest ;;
      ret ((name, col) :: cols)
  end.

(** The cell, for a table whose header is [variables]: it binds
    [input_data], [truth_data] and [benchmark_data]. *)
Definition choose_inputs (variables : list string)
  : M (list (string * Series) * Series * Series) :=
  input_data <- getcols (input_variables variables) ;;
  truth_data <- getcol "isb" ;;
  benchmark_data <- getcol "nnbjet" ;;
  ret (input_data, truth_data, benchmark_data).

(** *** Splitting a column by event type

<<
mask = (data['isb'] == 1)
hist_prob_b_bjets = ax.hist(data['prob_b'][mask],  ...)
hist_prob_b_ljets = ax.hist(data['prob_b'][~mask], ...)
>>
*)

(** [col == k], element by element. *)
Definition series_eq (col : Series) (k : Z) : list bool :=
  map (fun d => feq_lit d k) col.

(** [col[mask]] for a mask with one entry per row: the rows where the
    mask holds, in order. *)
Definition boolean_index (col : Series) (mask : list bool) : Series :=
  (filter (fun xm => xm.2 = true) (zip col mask)).*1.

(** The two samples handed to [ax.hist]. *)
Definition split_by_type : M (Series * Series) :=
  isb <- getcol "isb" ;;
  let mask := series_eq isb 1 in
  col <- getcol "prob_b" ;;
  let bjets := boolean_index col mask in
  col <- getcol "prob_b" ;;
  let ljets := boolean_index col (map negb mask) in
  ret (bjets, ljets).

(** *** Evaluating the selection, and the benchmark

<<
N, accuracy, fracWrong = evaluate(bquark)
print("  True-Negative (0,0)  = ", N[0][0])
print("  False-Negative (0,1) = ", N[0][1])
print("  False-Positive (1,0) = ", N[1][0])
print("  True-Positive (1,1)  = ", N[1][1])
print("    Fraction wrong            = ( (0,1) + (1,0) ) / sum = ", fracWrong)
print("    Fraction right (accuracy) = ( (0,0) + (1,1) ) / sum = ", accuracy)
>>
*)

(** The call on the global [bquark], and the six values printed, in
    the order of the lines. No other cell reads the three names bound
    here before they are bound again. *)
Definition evaluate_and_print : M (Z * Z * Z * Z * float * float) :=
  predicted <- read bquark ;;
  r <- evaluate predicted ;;
  let '(N, accuracy, fracWrong) := r in
  n00 <- lift (cell N 0 0) ;;
  n01 <- lift (cell N 0 1) ;;
  n10 <- lift (cell N 1 0) ;;
  n11 <- lift (cell N 1 1) ;;
  ret (n00, n01, n10, n11, fracWrong, accuracy).

(** The selection cell, then the evaluation cell. *)
Definition human_attempt : M (Z * Z * Z * Z * float * float) :=
  selection_cell ;;; evaluate_and_print.

(**
<<
bquark=[]
for i in np.arange(len(data['nnbjet'])):
    if   (data['nnbjet'][i] > 0.82) : bquark.append(1)
    else : bquark.append(0)

N, accuracy, fracWrong = evaluate(bquark)
>>
*)

(** The literal [0.82]. *)
Definition lit_0_82 : float := S754_finite false 7385903388887613 (-53).

Definition select_nnbjet : M unit :=
  write (set_bquark []) ;;;
  col <- getcol "nnbjet" ;;
  for_range (length col) (fun i _ =>
    col <- getcol "nnbjet" ;;
    x <- lift (series_getitem col i) ;;
    if PyFloat.ltb lit_0_82 x then bquark_append (PyInt 1)
    else bquark_append (PyInt 0)) tt.

Definition aleph_tag : M (Z * Z * Z * Z * float * float) :=
  select_nnbjet ;;; evaluate_and_print.

(** *** Used in the statements *)

(** Neither an infinity nor NaN. *)
Definition is_finite (x : float) : bool :=
  match x with
  | S754_zero _ | S754_finite _ _ _ => true
  | _ => false
  end.

Definition nan : float := S754_nan.

(** Globals after loading a table with the given columns. *)
Definition globals_table (columns : list (string * Series)) : Globals :=
  {| SavePlots := false; data := list_to_map columns;
     cut_prop_b := PyFloat.zero; bquark := [PyInt 5; PyInt 5] |}.

(** A row where both values are labels. *)
Definition labelled (v : scalar) (d : float) : bool := is_label v && is_flabel d.

(** The five names kept out of the inputs. *)
Definition excluded : list string := ["nnbjet"; "isb"; "energy"; "cTheta"; "phi"].

(** * Properties *)

(** ** Binary64 rounding *)

(** *** Number of binary digits *)

(** A positive number of [d] digits lies in [[2^(d-1), 2^d)]. *)
Lemma digits2_pos_bounds (p : positive) :
  2 ^ (Z.pos (digits2_pos p) - 1) <= Z.pos p < 2 ^ Z.pos (digits2_pos p).
Proof.
  induction p as [p IH | p IH |]; simpl digits2_pos.
  - rewrite Pos2Z.inj_succ, (Pos2Z.inj_xI p).
    replace (Z.succ (Z.pos (digits2_pos p)) - 1) with (Z.succ (Z.pos (digits2_pos p) - 1)) by lia.
    rewrite !Z.pow_succ_r by lia. lia.
  - rewrite Pos2Z.inj_succ, (Pos2Z.inj_xO p).
    replace (Z.succ (Z.pos (digits2_pos p)) - 1) with (Z.succ (Z.pos (digits2_pos p) - 1)) by lia.
    rewrite !Z.pow_succ_r by lia. lia.
  - simpl. lia.
Qed.

(** *** Shifting right

    One shift halves the scale: the record then locates the same
    fraction on a grid twice as coarse. *)
Lemma shr_1_located num den mrs :
  0 <= num -> 0 < den -> located num den mrs -> located num (2 * den) (shr_1 mrs).
Proof.
  intros Hn Hd (Hm & Hr & Hs).
  assert (Hq : 0 <= num / den) by (apply Z.div_pos; lia).
  assert (Hrho : 0 <= num mod den < den) by (apply Z.mod_pos_bound; lia).
  assert (Hdd : num / (2 * den) = (num / den) / 2).
  { rewrite (Z.mul_comm 2 den). rewrite Z.div_div; lia. }
  assert (Hmm : num mod (2 * den) = num mod den + den * ((num / den) mod 2)).
  { rewrite (Z.mul_comm 2 den). apply Z.rem_mul_r; lia. }
  destruct mrs as [m r s]; simpl in Hm, Hr, Hs.
  unfold located. rewrite Hdd, Hmm. rewrite <- Hm in *.
  assert (Hrs : r || s = negb (num mod den =? 0)).
  { subst r s. destruct (Z.leb_spec den (2 * (num mod den))), (Z.eqb_spec (num mod den) 0), (Z.eqb_spec (2 * (num mod den)) den); simpl; try reflexivity; lia. }
  destruct m as [| [p | p |] | p]; try lia; simpl shr_1; simpl shr_m; simpl shr_r; simpl shr_s; rewrite Hrs.
  - (* 0 *) change (0 / 2) with 0. change (0 mod 2) with 0.
    repeat split.
    + symmetry. apply Z.leb_gt. lia.
    + f_equal. destruct (Z.eqb_spec (num mod den) 0), (Z.eqb_spec (num mod den + den * 0) 0), (Z.eqb_spec (2 * (num mod den + den * 0)) (2 * den)); simpl; try reflexivity; lia.
  - assert (Z.pos p~1 / 2 = Z.pos p /\ Z.pos p~1 mod 2 = 1) as [-> ->].
    { rewrite (Pos2Z.inj_xI p). generalize (Z.pos p). intros. Z.div_mod_to_equations. lia. }
    repeat split.
    + symmetry. apply Z.leb_le. lia.
    + destruct (Z.eqb_spec (num mod den) 0), (Z.eqb_spec (num mod den + den * 1) 0), (Z.eqb_spec (2 * (num mod den + den * 1)) (2 * den)); simpl; try reflexivity; lia.
  - assert (Z.pos p~0 / 2 = Z.pos p /\ Z.pos p~0 mod 2 = 0) as [-> ->].
    { rewrite (Pos2Z.inj_xO p). generalize (Z.pos p). intros. Z.div_mod_to_equations. lia. }
    repeat split.
    + symmetry. apply Z.leb_gt. lia.
    + destruct (Z.eqb_spec (num mod den) 0), (Z.eqb_spec (num mod den + den * 0) 0), (Z.eqb_spec (2 * (num mod den + den * 0)) (2 * den)); simpl; try reflexivity; lia.
  - change (1 / 2) with 0. change (1 mod 2) with 1.
    repeat split.
    + symmetry. apply Z.leb_le. lia.
    + destruct (Z.eqb_spec (num mod den) 0), (Z.eqb_spec (num mod den + den * 1) 0), (Z.eqb_spec (2 * (num mod den + den * 1)) (2 * den)); simpl; try reflexivity; lia.
Qed.

(** [n] shifts multiply the denominator by [2^n]. *)
Lemma iter_shr_1_located (n : positive) : forall num den mrs,
  0 <= num -> 0 < den -> located num den mrs ->
  located num (den * 2 ^ Z.pos n) (SpecFloat.iter_pos shr_1 n mrs).
Proof.
  induction n as [n IH | n IH |]; intros num den mrs Hn Hd H; simpl SpecFloat.iter_pos.
  - apply shr_1_located in H; try lia.
    apply IH in H; try lia. apply IH in H; try lia.
    replace (den * 2 ^ Z.pos n~1) with (2 * den * 2 ^ Z.pos n * 2 ^ Z.pos n); [exact H|].
    rewrite (Pos2Z.inj_xI n). replace (2 * Z.pos n + 1) with (Z.pos n + Z.pos n + 1) by lia.
    rewrite !Z.pow_add_r by lia. change (2 ^ 1) with 2. ring.
  - apply IH in H; try lia. apply IH in H; try lia.
    replace (den * 2 ^ Z.pos n~0) with (den * 2 ^ Z.pos n * 2 ^ Z.pos n); [exact H|].
    rewrite (Pos2Z.inj_xO n). replace (2 * Z.pos n) with (Z.pos n + Z.pos n) by lia. rewrite Z.pow_add_r by lia. ring.
  - apply shr_1_located in H; try lia. change (2 ^ 1) with 2. rewrite Z.mul_comm. exact H.
Qed.

Lemma Zdigits2_bounds z : 0 < z -> 2 ^ (Zdigits2 z - 1) <= z < 2 ^ Zdigits2 z.
Proof. destruct z as [|p|p]; try lia. intros _. apply digits2_pos_bounds. Qed.

Lemma Zdigits2_pos z : 0 < z -> 0 < Zdigits2 z.
Proof. destruct z; simpl; lia. Qed.

(** The bounds determine the number of digits. *)
Lemma Zdigits2_unique z k : 0 < k -> 2 ^ (k - 1) <= z < 2 ^ k -> Zdigits2 z = k.
Proof.
  intros Hk [Hlo Hhi].
  assert (Hz : 0 < z) by (pose proof (Z.pow_pos_nonneg 2 (k - 1)); lia).
  pose proof (Zdigits2_bounds z Hz) as [Hlo' Hhi'].
  pose proof (Zdigits2_pos z Hz) as Hd.
  destruct (Z.lt_trichotomy (Zdigits2 z) k) as [Hlt | [Heq | Hgt]]; [|exact Heq|].
  - assert (2 ^ Zdigits2 z <= 2 ^ (k - 1)) by (apply Z.pow_le_mono_r; lia). lia.
  - assert (2 ^ k <= 2 ^ (Zdigits2 z - 1)) by (apply Z.pow_le_mono_r; lia). lia.
Qed.

Lemma Zdigits2_le z k : 0 < z -> 0 <= k -> z < 2 ^ k -> Zdigits2 z <= k.
Proof.
  intros Hz Hk Hlt. pose proof (Zdigits2_bounds z Hz) as [Hlo _].
  pose proof (Zdigits2_pos z Hz).
  destruct (Z.le_gt_cases (Zdigits2 z) k) as [|Hgt]; [assumption|].
  assert (2 ^ k <= 2 ^ (Zdigits2 z - 1)) by (apply Z.pow_le_mono_r; lia). lia.
Qed.

Lemma Zdigits2_mono a b : 0 < a -> a <= b -> Zdigits2 a <= Zdigits2 b.
Proof.
  intros Ha Hab.
  pose proof (Zdigits2_bounds a Ha) as [Hlo _].
  pose proof (Zdigits2_bounds b ltac:(lia)) as [_ Hhi].
  pose proof (Zdigits2_pos a Ha). pose proof (Zdigits2_pos b ltac:(lia)).
  destruct (Z.le_gt_cases (Zdigits2 a) (Zdigits2 b)) as [|Hgt]; [assumption|].
  assert (2 ^ Zdigits2 b <= 2 ^ (Zdigits2 a - 1)) by (apply Z.pow_le_mono_r; lia). lia.
Qed.

Lemma shr_record_of_loc_m m l : shr_m (shr_record_of_loc m l) = m.
Proof. destruct l as [|[]]; reflexivity. Qed.

Lemma loc_of_shr_record_of_loc m l : loc_of_shr_record (shr_record_of_loc m l) = l.
Proof. destruct l as [|[]]; reflexivity. Qed.

(** *** Rounding to nearest, ties to even

    Rounding the mantissa by its round and sticky bits is rounding the
    fraction the record locates. *)
Lemma round_of_located num den mrs :
  0 <= num -> 0 < den -> located num den mrs ->
  round_nearest_even (shr_m mrs) (loc_of_shr_record mrs) = rne num den.
Proof.
  intros Hn Hd (Hm & Hr & Hs).
  assert (Hrho : 0 <= num mod den < den) by (apply Z.mod_pos_bound; lia).
  destruct mrs as [m r s]; cbn [shr_m shr_r shr_s] in Hm, Hr, Hs.
  cbn [shr_m loc_of_shr_record]. unfold rne. rewrite <- Hm.
  destruct (Z.ltb_spec (2 * (num mod den)) den) as [Hlt | Hge].
  - assert (Hr' : r = false) by (rewrite Hr; apply Z.leb_gt; lia).
    rewrite Hr'. destruct s; reflexivity.
  - assert (Hr' : r = true) by (rewrite Hr; apply Z.leb_le; lia).
    rewrite Hr'. rewrite Hs.
    destruct (Z.eqb_spec (2 * (num mod den)) den) as [He | Hne].
    + rewrite orb_true_r. reflexivity.
    + destruct (Z.eqb_spec (num mod den) 0); [lia|]. reflexivity.
Qed.

(** Rounding moves up by at most one. *)
Lemma rne_bounds num den :
  0 <= num -> 0 < den -> num / den <= rne num den <= num / den + 1.
Proof.
  intros Hn Hd. unfold rne.
  destruct (_ <? _); [lia|]. destruct (_ =? _); [destruct (Z.even _)|]; lia.
Qed.

(** Away from the subnormal range, the exponent of a number of magnitude
    [e] is [e - 53]. *)
Lemma fexp_normal e : -1021 <= e -> fexp 53 1024 e = e - 53.
Proof. intros H. unfold fexp, emin. lia. Qed.

(** The first shift of [binary_round_aux] drops the digits beyond 53. *)
Lemma shr_fexp_located mx ex lx num den :
  0 < mx -> 0 <= num -> 0 < den ->
  located num den (shr_record_of_loc mx lx) ->
  -1021 <= Zdigits2 mx + ex ->
  exists mrs,
    shr_fexp 53 1024 mx ex lx = (mrs, ex + Z.max 0 (Zdigits2 mx - 53)) /\
    located num (den * 2 ^ Z.max 0 (Zdigits2 mx - 53)) mrs.
Proof.
  intros Hmx Hn Hd Hloc Hnorm. unfold shr_fexp. rewrite fexp_normal by assumption.
  replace (Zdigits2 mx + ex - 53 - ex) with (Zdigits2 mx - 53) by lia.
  destruct (Zdigits2 mx - 53) as [|p|p] eqn:Hk; simpl shr.
  - exists (shr_record_of_loc mx lx). rewrite Z.max_id, Z.add_0_r, Z.mul_1_r. auto.
  - exists (SpecFloat.iter_pos shr_1 p (shr_record_of_loc mx lx)).
    rewrite Z.max_r by lia. split; [reflexivity|].
    apply iter_shr_1_located; assumption.
  - exists (shr_record_of_loc mx lx). rewrite Z.max_l by lia.
    rewrite Z.add_0_r, Z.mul_1_r. auto.
Qed.

(** What [binary_round_aux] computes, for a positive mantissa in the
    normal range: [num/den] is rounded once, on the grid that keeps 53
    digits. *)
Theorem binary_round_aux_rne s mx ex lx num den :
  0 < mx -> 0 <= num -> 0 < den ->
  located num den (shr_record_of_loc mx lx) ->
  -1021 <= Zdigits2 mx + ex ->
  binary_round_aux 53 1024 s mx ex lx =
  mk_float s (rne num (den * 2 ^ Z.max 0 (Zdigits2 mx - 53)))
             (ex + Z.max 0 (Zdigits2 mx - 53)).
Proof.
  intros Hmx Hn Hd Hloc Hnorm.
  destruct (shr_fexp_located mx ex lx num den Hmx Hn Hd Hloc Hnorm) as (mrs & Heq & Hloc').
  unfold binary_round_aux. rewrite Heq.
  set (k := Z.max 0 (Zdigits2 mx - 53)) in *.
  assert (Hk : 0 <= k) by lia.
  assert (Hp : 0 < 2 ^ k) by (apply Z.pow_pos_nonneg; lia).
  assert (Hd' : 0 < den * 2 ^ k) by lia.
  rewrite (round_of_located num (den * 2 ^ k) mrs Hn Hd' Hloc').
  pose proof (rne_bounds num (den * 2 ^ k) Hn Hd') as HM.
  assert (Hm1 : num / (den * 2 ^ k) = mx / 2 ^ k).
  { destruct Hloc as (Hm & _). rewrite shr_record_of_loc_m in Hm.
    rewrite <- Z.div_div by lia. now rewrite <- Hm. }
  rewrite Hm1 in HM.
  pose proof (Zdigits2_bounds mx Hmx) as [Hlo Hhi].
  pose proof (Zdigits2_pos mx Hmx) as Hdpos.
  set (M := rne num (den * 2 ^ k)) in *.
  (* the truncated mantissa has as many digits as [mx], at most 53 *)
  assert (Hq : 0 < mx / 2 ^ k /\ mx / 2 ^ k < 2 ^ 53 /\
               Zdigits2 mx <= Zdigits2 (mx / 2 ^ k) + k).
  { destruct (Z.le_gt_cases (Zdigits2 mx) 53) as [Hle | Hgt].
    - assert (k = 0) by lia. rewrite H. rewrite Z.pow_0_r, Z.div_1_r.
      repeat split; try lia.
      assert (2 ^ Zdigits2 mx <= 2 ^ 53) by (apply Z.pow_le_mono_r; lia). lia.
    - assert (Hkv : k = Zdigits2 mx - 53) by lia.
      assert (H52 : 2 ^ 52 <= mx / 2 ^ k).
      { apply Z.div_le_lower_bound; [lia|].
        rewrite <- Z.pow_add_r by lia.
        replace (k + 52) with (Zdigits2 mx - 1) by lia. lia. }
      assert (H53 : mx / 2 ^ k < 2 ^ 53).
      { apply Z.div_lt_upper_bound; [lia|].
        rewrite <- Z.pow_add_r by lia.
        replace (k + 53) with (Zdigits2 mx) by lia. lia. }
      repeat split; try lia.
      rewrite (Zdigits2_unique (mx / 2 ^ k) 53); lia. }
  destruct Hq as (Hq0 & Hq53 & Hqd).
  assert (HMd : Zdigits2 (mx / 2 ^ k) <= Zdigits2 M) by (apply Zdigits2_mono; lia).
  unfold shr_fexp. rewrite fexp_normal by lia.
  replace (Zdigits2 M + (ex + k) - 53 - (ex + k)) with (Zdigits2 M - 53) by lia.
  unfold mk_float.
  destruct (Z.eqb_spec M (2 ^ 53)) as [He | Hne].
  - rewrite He. reflexivity.
  - assert (HMle : Zdigits2 M <= 53) by (apply Zdigits2_le; lia).
    destruct (Zdigits2 M - 53) as [|p|p] eqn:Hn2; try lia; simpl shr; simpl shr_m;
      destruct M; reflexivity.
Qed.

(** *** Normalising a mantissa *)
Lemma iter_xO_Z p q : Z.pos (Pos.iter xO p q) = Z.pos p * 2 ^ Z.pos q.
Proof.
  induction q as [|q IH] using Pos.peano_ind.
  - simpl. lia.
  - rewrite Pos.iter_succ, Pos2Z.inj_xO, IH, Pos2Z.inj_succ, Z.pow_succ_r by lia. ring.
Qed.

Lemma iter_xO_digits p q :
  Z.pos (digits2_pos (Pos.iter xO p q)) = Z.pos (digits2_pos p) + Z.pos q.
Proof.
  induction q as [|q IH] using Pos.peano_ind.
  - simpl. lia.
  - rewrite Pos.iter_succ. simpl digits2_pos. rewrite !Pos2Z.inj_succ, IH. lia.
Qed.

Lemma located_exact m : located m 1 (shr_record_of_loc m loc_Exact).
Proof.
  unfold located. simpl. rewrite Z.div_1_r, Z.mod_1_r. auto.
Qed.

(** What [binary_round] computes: a short mantissa is padded to 53
    digits, a long one is rounded to 53. *)
Lemma binary_round_rne s p e :
  -1021 <= Z.pos (digits2_pos p) + e ->
  binary_round 53 1024 s p e =
  mk_float s (rne (Z.pos p * 2 ^ Z.max 0 (53 - Z.pos (digits2_pos p)))
                  (2 ^ Z.max 0 (Z.pos (digits2_pos p) - 53)))
             (e - Z.max 0 (53 - Z.pos (digits2_pos p))
                + Z.max 0 (Z.pos (digits2_pos p) - 53)).
Proof.
  intros Hnorm. unfold binary_round. rewrite fexp_normal by assumption.
  unfold shl_align.
  replace (Z.pos (digits2_pos p) + e - 53 - e) with (Z.pos (digits2_pos p) - 53) by lia.
  destruct (Z.pos (digits2_pos p) - 53) as [|q|q] eqn:Hk.
  - rewrite (binary_round_aux_rne s (Z.pos p) e loc_Exact (Z.pos p) 1);
      try lia; [|apply located_exact|simpl Zdigits2; lia].
    simpl Zdigits2. rewrite Hk.
    replace (53 - Z.pos (digits2_pos p)) with 0 by lia.
    rewrite !Z.max_id, Z.pow_0_r, !Z.mul_1_r. f_equal. lia.
  - rewrite (binary_round_aux_rne s (Z.pos p) e loc_Exact (Z.pos p) 1);
      try lia; [|apply located_exact|simpl Zdigits2; lia].
    simpl Zdigits2. rewrite Hk.
    replace (53 - Z.pos (digits2_pos p)) with (Z.neg q) by lia.
    rewrite (Z.max_l 0 (Z.neg q)) by lia. rewrite Z.pow_0_r, !Z.mul_1_r, Z.mul_1_l.
    f_equal. lia.
  - rewrite (binary_round_aux_rne s (Z.pos (Pos.iter xO p q)) _ loc_Exact (Z.pos (Pos.iter xO p q)) 1);
      try lia; [|apply located_exact|simpl Zdigits2; rewrite iter_xO_digits; lia].
    simpl Zdigits2. rewrite iter_xO_digits, iter_xO_Z.
    replace (Z.pos (digits2_pos p) + Z.pos q - 53) with 0 by lia.
    replace (53 - Z.pos (digits2_pos p)) with (Z.pos q) by lia.
    rewrite (Z.max_r 0 (Z.pos q)) by lia.
    rewrite !Z.max_id, Z.pow_0_r, !Z.mul_1_r. f_equal. lia.
Qed.

(** *** Properties of the rounding

    An integer quotient is left alone. *)
Lemma rne_exact num den : 0 < den -> num mod den = 0 -> rne num den = num / den.
Proof.
  intros Hd H. unfold rne. rewrite H.
  destruct (Z.ltb_spec (2 * 0) den); [reflexivity | lia].
Qed.

(** The rounded value is within one half of the fraction. *)
Lemma rne_error num den :
  0 <= num -> 0 < den -> Z.abs (2 * (rne num den * den - num)) <= den.
Proof.
  intros Hn Hd.
  pose proof (Z.mod_pos_bound num den Hd) as Hrho.
  pose proof (Z.div_mod num den ltac:(lia)) as Hdm.
  unfold rne.
  destruct (Z.ltb_spec (2 * (num mod den)) den); [nia|].
  destruct (Z.eqb_spec (2 * (num mod den)) den); [destruct (Z.even _); nia|nia].
Qed.

(** Rounding does not cross an integer. *)
Lemma rne_le num den K : 0 < den -> num <= K * den -> rne num den <= K.
Proof.
  intros Hd H.
  pose proof (Z.mod_pos_bound num den Hd) as Hrho.
  pose proof (Z.div_mod num den ltac:(lia)) as Hdm.
  assert (Hq : num / den <= K) by (apply Z.div_le_upper_bound; lia).
  destruct (Z.eq_dec (num / den) K) as [He | Hne].
  - assert (num mod den = 0) by nia. rewrite rne_exact; lia.
  - unfold rne. destruct (_ <? _); [lia|]. destruct (_ =? _); [destruct (Z.even _)|]; lia.
Qed.

Lemma rne_ge num den K : 0 < den -> K * den <= num -> K <= rne num den.
Proof.
  intros Hd H.
  assert (Hq : K <= num / den) by (apply Z.div_le_lower_bound; lia).
  unfold rne. destruct (_ <? _); [lia|]. destruct (_ =? _); [destruct (Z.even _)|]; lia.
Qed.

Open Scope Q_scope.

(** *** The value of a float *)
Lemma pow2_pos e : 0 < 2 ^ e.
Proof. apply Qpower_0_lt. reflexivity. Qed.

Lemma pow2_succ e : 2 ^ (e + 1) == 2 * 2 ^ e.
Proof. rewrite Qpower_plus by discriminate. change (2 ^ 1) with 2. ring. Qed.

(** Carrying a 54-bit mantissa over does not change the value. *)
Lemma to_Q_mk_float M E :
  (0 <= M)%Z -> (E < 971)%Z ->
  PyFloat.to_Q (mk_float false M E) == inject_Z M * 2 ^ E.
Proof.
  intros HM HE. unfold mk_float.
  destruct (Z.eqb_spec M (2 ^ 53)%Z) as [He | Hne].
  - subst M. change (2 ^ 52)%Z with (Z.pos (2 ^ 52)).
    destruct (Z.leb_spec (E + 1) 971) as [_ | Hgt]; [|lia].
    simpl PyFloat.to_Q. rewrite pow2_succ.
    change (inject_Z (Z.pos (2 ^ 52))) with (2 ^ 52). change (inject_Z (2 ^ 53)) with (2 ^ 53).
    ring.
  - destruct M as [|m|m]; [simpl; ring | | lia].
    destruct (Z.leb_spec E 971) as [_ | Hgt]; [|lia].
    reflexivity.
Qed.

Lemma rne_error_Q num den :
  (0 <= num)%Z -> (0 < den)%Z ->
  Qabs (inject_Z (rne num den) - inject_Z num / inject_Z den) <= 1 # 2.
Proof.
  intros Hn Hd. pose proof (rne_error num den Hn Hd) as H.
  assert (Hdq : inject_Z 0 < inject_Z den) by (rewrite <- Zlt_Qlt; assumption).
  change (inject_Z 0) with 0 in Hdq.
  set (M := rne num den) in *.
  apply Qabs_Qle_condition.
  assert (H1 : (- den <= 2 * (M * den - num) <= den)%Z) by lia.
  assert (Heq : inject_Z M - inject_Z num / inject_Z den ==
                (inject_Z M * inject_Z den - inject_Z num) / inject_Z den).
  { field. intros Hz. rewrite Hz in Hdq. discriminate. }
  rewrite Heq. split.
  - apply Qle_shift_div_l; [assumption|].
    unfold Qle, Qminus, Qplus, Qmult, Qopp, inject_Z; simpl. lia.
  - apply Qle_shift_div_r; [assumption|].
    unfold Qle, Qminus, Qplus, Qmult, Qopp, inject_Z; simpl. lia.
Qed.

(** A float built by rounding is within half a unit in the last place
    of the fraction it rounds. *)
Lemma mk_float_error num den E :
  (0 <= num)%Z -> (0 < den)%Z -> (E < 971)%Z ->
  Qabs (PyFloat.to_Q (mk_float false (rne num den) E) - inject_Z num / inject_Z den * 2 ^ E)
  <= 2 ^ E * (1 # 2).
Proof.
  intros Hn Hd HE.
  assert (HM : (0 <= rne num den)%Z).
  { apply rne_ge; [assumption|]. lia. }
  rewrite to_Q_mk_float by assumption.
  pose proof (rne_error_Q num den Hn Hd) as H.
  pose proof (pow2_pos E) as Hp.
  assert (Heq : inject_Z (rne num den) * 2 ^ E - inject_Z num / inject_Z den * 2 ^ E ==
                (inject_Z (rne num den) - inject_Z num / inject_Z den) * 2 ^ E) by ring.
  rewrite Heq, Qabs_Qmult. rewrite (Qabs_pos (2 ^ E)) by lra.
  rewrite (Qmult_comm (2 ^ E)). apply Qmult_le_compat_r; lra.
Qed.

(** Below 1, half a unit in the last place is at most [2^-54]. *)
Lemma half_ulp_bound E : (E <= -53)%Z -> 2 ^ E * (1 # 2) <= 1 # (2 ^ 54).
Proof.
  intros H.
  assert (H53 : 2 ^ E <= 2 ^ (-53)) by (apply Qpower_le_compat_l; [assumption|discriminate]).
  assert (Heq : 1 # 2 ^ 54 == 2 ^ (-53) * (1 # 2)) by reflexivity.
  rewrite Heq. apply Qmult_le_compat_r; [assumption|discriminate].
Qed.

Close Scope Q_scope.

Lemma mk_float_finite s M E :
  0 < M -> E < 971 -> exists m e, mk_float s M E = S754_finite s m e.
Proof.
  intros HM HE. unfold mk_float.
  destruct (Z.eqb_spec M (2 ^ 53)).
  - change (2 ^ 52) with (Z.pos (2 ^ 52)).
    destruct (Z.leb_spec (E + 1) 971); [eauto | lia].
  - destruct M as [|m|m]; try lia.
    destruct (Z.leb_spec E 971); [eauto | lia].
Qed.

(** *** [float(n)] *)
Lemma of_Z_rne n :
  0 < n ->
  PyFloat.of_Z n = mk_float false (rne (n * 2 ^ Z.max 0 (53 - Zdigits2 n)) (2 ^ Z.max 0 (Zdigits2 n - 53)))
                    (Z.max 0 (Zdigits2 n - 53) - Z.max 0 (53 - Zdigits2 n)).
Proof.
  intros Hn. destruct n as [|p|p]; try lia.
  unfold PyFloat.of_Z, PyFloat.prec, PyFloat.emax, binary_normalize. rewrite binary_round_rne by lia.
  simpl Zdigits2. f_equal. lia.
Qed.

(** Below [2^53] the conversion is exact, and normalised. *)
Lemma of_Z_exact n :
  0 < n < 2 ^ 53 ->
  PyFloat.of_Z n = S754_finite false (Z.to_pos (n * 2 ^ (53 - Zdigits2 n))) (Zdigits2 n - 53) /\
  Zdigits2 (n * 2 ^ (53 - Zdigits2 n)) = 53.
Proof.
  intros [Hn Hlt].
  pose proof (Zdigits2_bounds n Hn) as [Hlo Hhi].
  pose proof (Zdigits2_pos n Hn) as Hd.
  assert (Hd53 : Zdigits2 n <= 53) by (apply Zdigits2_le; lia).
  set (d := Zdigits2 n) in *.
  assert (Hp : 0 < 2 ^ (53 - d)) by (apply Z.pow_pos_nonneg; lia).
  assert (Hb : 2 ^ 52 <= n * 2 ^ (53 - d) < 2 ^ 53).
  { assert (H52 : 2 ^ 52 = 2 ^ (d - 1) * 2 ^ (53 - d))
      by (rewrite <- Z.pow_add_r by lia; f_equal; lia).
    assert (H53 : 2 ^ 53 = 2 ^ d * 2 ^ (53 - d))
      by (rewrite <- Z.pow_add_r by lia; f_equal; lia).
    rewrite H52, H53. split.
    - apply Z.mul_le_mono_nonneg_r; lia.
    - apply Z.mul_lt_mono_pos_r; lia. }
  split; [|apply Zdigits2_unique; [lia|exact Hb]].
  rewrite of_Z_rne by assumption. fold d.
  rewrite (Z.max_r 0 (53 - d)), (Z.max_l 0 (d - 53)) by lia.
  rewrite Z.pow_0_r, rne_exact, Z.div_1_r by (try apply Z.mod_1_r; lia).
  unfold mk_float.
  destruct (Z.eqb_spec (n * 2 ^ (53 - d)) (2 ^ 53)); [lia|].
  destruct (n * 2 ^ (53 - d)) as [|m|m] eqn:Hm; try lia.
  destruct (Z.leb_spec (0 - (53 - d)) 971); [|lia].
  simpl Z.to_pos. f_equal. lia.
Qed.

(** A positive integer below [2^1023] converts to a positive finite
    float. *)
Lemma of_Z_finite n :
  0 < n < 2 ^ 1023 -> exists m e, PyFloat.of_Z n = S754_finite false m e.
Proof.
  intros [Hn Hlt]. rewrite of_Z_rne by assumption.
  pose proof (Zdigits2_pos n Hn) as Hd.
  assert (Hd' : Zdigits2 n <= 1023) by (apply Zdigits2_le; lia).
  apply mk_float_finite; [|lia].
  assert (H : 1 <= rne (n * 2 ^ Z.max 0 (53 - Zdigits2 n)) (2 ^ Z.max 0 (Zdigits2 n - 53))); [|lia].
  pose proof (Zdigits2_bounds n Hn) as [Hlo _].
  assert (Hp : 0 < 2 ^ Z.max 0 (53 - Zdigits2 n)) by (apply Z.pow_pos_nonneg; lia).
  apply rne_ge; [apply Z.pow_pos_nonneg; lia|].
  rewrite Z.mul_1_l.
  apply Z.le_trans with (2 ^ (Zdigits2 n - 1)); [apply Z.pow_le_mono_r; lia | nia].
Qed.

(** *** Division

    The location [SFdiv_core_binary] derives from the remainder is the
    location of the quotient. *)
Lemma located_new_location num den :
  0 <= num -> 0 < den ->
  located num den (shr_record_of_loc (num / den) (new_location den (num mod den))).
Proof.
  intros Hn Hd.
  pose proof (Z.mod_pos_bound num den Hd) as Hrho.
  set (rho := num mod den) in *.
  assert (Hgoal : forall l,
    l = (if rho =? 0 then loc_Exact
         else loc_Inexact (if 2 * rho <? den then Lt else if 2 * rho =? den then Eq else Gt)) ->
    located num den (shr_record_of_loc (num / den) l)).
  { intros l ->. unfold located. fold rho. rewrite shr_record_of_loc_m.
    destruct (Z.eqb_spec rho 0) as [H0 | H0].
    - simpl. rewrite H0. destruct (Z.leb_spec den (2 * 0)); [lia|]. auto.
    - destruct (Z.ltb_spec (2 * rho) den).
      + simpl. destruct (Z.leb_spec den (2 * rho)); [lia|].
        destruct (Z.eqb_spec (2 * rho) den); [lia|]. auto.
      + destruct (Z.eqb_spec (2 * rho) den); simpl;
          (destruct (Z.leb_spec den (2 * rho)); [|lia]); auto. }
  apply Hgoal. clear Hgoal. unfold new_location.
  destruct (Z.even den) eqn:Hev.
  - unfold new_location_even.
    destruct (Z.eqb_spec rho 0); [reflexivity|].
    destruct (Z.compare_spec (2 * rho) den), (Z.ltb_spec (2 * rho) den), (Z.eqb_spec (2 * rho) den);
      try reflexivity; lia.
  - unfold new_location_odd.
    destruct (Z.eqb_spec rho 0); [reflexivity|].
    assert (Hodd : 2 * rho <> den).
    { intros He. rewrite <- He, Z.even_mul in Hev. discriminate. }
    destruct (Z.compare_spec (2 * rho + 1) den), (Z.ltb_spec (2 * rho) den), (Z.eqb_spec (2 * rho) den);
      try reflexivity; lia.
Qed.

(** What [SFdiv] computes on two finite floats in the normal range: the
    quotient of the mantissas, scaled to at least 53 digits, rounded
    once. *)
Lemma SFdiv_rne s1 m1 e1 s2 m2 e2 :
  -1021 <= Z.pos (digits2_pos m1) + e1 - (Z.pos (digits2_pos m2) + e2) ->
  Z.pos (digits2_pos m1) - Z.pos (digits2_pos m2) < 53 ->
  SFdiv 53 1024 (S754_finite s1 m1 e1) (S754_finite s2 m2 e2) =
  mk_float (xorb s1 s2)
    (rne (Z.pos m1 * 2 ^ (53 - Z.pos (digits2_pos m1) + Z.pos (digits2_pos m2)))
         (Z.pos m2 * 2 ^ Z.max 0 (Zdigits2 (Z.pos m1 * 2 ^ (53 - Z.pos (digits2_pos m1) + Z.pos (digits2_pos m2)) / Z.pos m2) - 53)))
    (Z.pos (digits2_pos m1) + e1 - (Z.pos (digits2_pos m2) + e2) - 53
     + Z.max 0 (Zdigits2 (Z.pos m1 * 2 ^ (53 - Z.pos (digits2_pos m1) + Z.pos (digits2_pos m2)) / Z.pos m2) - 53)).
Proof.
  intros Hnorm Hd.
  pose proof (digits2_pos_bounds m1) as [Hlo1 Hhi1].
  pose proof (digits2_pos_bounds m2) as [Hlo2 Hhi2].
  set (d1 := Z.pos (digits2_pos m1)) in *. set (d2 := Z.pos (digits2_pos m2)) in *.
  assert (Hd1 : 0 < d1) by (unfold d1; lia). assert (Hd2 : 0 < d2) by (unfold d2; lia).
  unfold SFdiv, SFdiv_core_binary. simpl Zdigits2. fold d1 d2.
  rewrite fexp_normal by assumption.
  rewrite Z.min_l by lia.
  replace (e1 - e2 - (d1 + e1 - (d2 + e2) - 53)) with (53 - d1 + d2) by lia.
  set (sh := 53 - d1 + d2) in *.
  assert (Hnum : match sh with Z.pos _ => Z.shiftl (Z.pos m1) sh | 0 => Z.pos m1 | Z.neg _ => 0 end
                 = Z.pos m1 * 2 ^ sh).
  { destruct sh eqn:Hsh; try lia. apply Z.shiftl_mul_pow2. lia. }
  rewrite Hnum. set (num := Z.pos m1 * 2 ^ sh) in *.
  assert (Hsh : 0 < 2 ^ sh) by (apply Z.pow_pos_nonneg; lia).
  assert (Hnum0 : 0 <= num) by (unfold num; lia).
  assert (Hq : 2 ^ 52 <= num / Z.pos m2).
  { apply Z.div_le_lower_bound; [lia|].
    apply Z.le_trans with (2 ^ d2 * 2 ^ 52); [nia|].
    rewrite <- Z.pow_add_r by lia.
    apply Z.le_trans with (2 ^ (d1 - 1) * 2 ^ sh); [|unfold num; nia].
    rewrite <- Z.pow_add_r by lia. apply Z.pow_le_mono_r; lia. }
  assert (Hdq : 53 <= Zdigits2 (num / Z.pos m2)).
  { change 53 with (Zdigits2 (2 ^ 52)). apply Zdigits2_mono; lia. }
  destruct (Z.div_eucl num (Z.pos m2)) as [q r] eqn:Hdiv.
  assert (Hqv : q = num / Z.pos m2) by (unfold Z.div; now rewrite Hdiv).
  assert (Hrv : r = num mod Z.pos m2) by (unfold Z.modulo; now rewrite Hdiv).
  subst q r.
  apply binary_round_aux_rne; try lia.
  apply located_new_location; lia.
Qed.

(** [x / x] is [1.0] for every finite [x]. *)
Lemma SFdiv_same s m e :
  SFdiv 53 1024 (S754_finite s m e) (S754_finite s m e) = PyFloat.one.
Proof.
  rewrite SFdiv_rne by lia.
  replace (53 - Z.pos (digits2_pos m) + Z.pos (digits2_pos m)) with 53 by lia.
  rewrite (Z.mul_comm (Z.pos m) (2 ^ 53)), Z.div_mul by lia.
  change (Z.max 0 (Zdigits2 (2 ^ 53) - 53)) with 1.
  rewrite rne_exact.
  - replace (2 ^ 53 * Z.pos m / (Z.pos m * 2 ^ 1)) with (2 ^ 52).
    + rewrite xorb_nilpotent.
      replace (Z.pos (digits2_pos m) + e - (Z.pos (digits2_pos m) + e) - 53 + 1) with (-52) by lia.
      reflexivity.
    + apply Z.div_unique_exact; [lia|].
      change (2 ^ 53) with (2 ^ 52 * 2). change (2 ^ 1) with 2. ring.
  - lia.
  - apply Z.mod_divide; [lia|]. exists (2 ^ 52).
    change (2 ^ 53) with (2 ^ 52 * 2). change (2 ^ 1) with 2. ring.
Qed.

(** *** Subtraction from [1.0] *)
Lemma shl_align_fst m e e' :
  e' <= e -> Z.pos (fst (shl_align m e e')) = Z.pos m * 2 ^ (e - e').
Proof.
  intros H. unfold shl_align.
  destruct (e' - e) as [|p|p] eqn:Hk; try lia; simpl fst.
  - replace (e - e') with 0 by lia. lia.
  - rewrite iter_xO_Z. f_equal. f_equal. lia.
Qed.

(** What [1.0 - f] computes for a float [0 < f < 1]: the exact
    difference [2^-E - M], at exponent [E], rounded once. *)
Lemma SFsub_one_rne M E :
  E <= -52 -> -1022 <= E -> Z.pos M < 2 ^ (- E) ->
  SFsub 53 1024 PyFloat.one (S754_finite false M E) =
  mk_float false
    (rne ((2 ^ (- E) - Z.pos M) * 2 ^ Z.max 0 (53 - Zdigits2 (2 ^ (- E) - Z.pos M)))
         (2 ^ Z.max 0 (Zdigits2 (2 ^ (- E) - Z.pos M) - 53)))
    (E + Zdigits2 (2 ^ (- E) - Z.pos M) - 53).
Proof.
  intros HE Hnorm Hlt. unfold SFsub, PyFloat.one.
  rewrite (Z.min_r (-52) E) by lia.
  rewrite !shl_align_fst by lia. simpl cond_Zopp.
  replace (Z.pos 4503599627370496 * 2 ^ (-52 - E)) with (2 ^ (- E)).
  2:{ change (Z.pos 4503599627370496) with (2 ^ 52). rewrite <- Z.pow_add_r by lia. f_equal. lia. }
  rewrite Z.sub_diag, Z.pow_0_r, Z.mul_1_r.
  destruct (2 ^ (- E) - Z.pos M) as [|z|z] eqn:Hz; try lia.
  unfold binary_normalize.
  pose proof (digits2_pos_bounds z) as [Hlo Hhi].
  rewrite binary_round_rne by lia.
  simpl Zdigits2. f_equal. lia.
Qed.

Lemma SFsub_one_same M E :
  E <= -52 -> Z.pos M = 2 ^ (- E) ->
  SFsub 53 1024 PyFloat.one (S754_finite false M E) = S754_zero false.
Proof.
  intros HE Heq. unfold SFsub, PyFloat.one.
  rewrite (Z.min_r (-52) E) by lia.
  rewrite !shl_align_fst by lia. simpl cond_Zopp.
  replace (Z.pos 4503599627370496 * 2 ^ (-52 - E)) with (2 ^ (- E)).
  2:{ change (Z.pos 4503599627370496) with (2 ^ 52). rewrite <- Z.pow_add_r by lia. f_equal. lia. }
  rewrite Z.sub_diag, Z.pow_0_r, Z.mul_1_r, Heq, Z.sub_diag. reflexivity.
Qed.

(** *** The two roundings of [evaluate], as rationals *)
Lemma pow2_neg_Q E : (E <= 0)%Z -> (2 ^ E == / inject_Z (2 ^ (- E)))%Q.
Proof.
  intros H. rewrite Zpower_Qpower by lia. change (inject_Z 2) with 2%Q.
  rewrite <- Qpower_opp. rewrite Z.opp_involutive. reflexivity.
Qed.

(** A fraction at a negative exponent, as a quotient of integers. *)
Lemma scaled_quotient num den E a b :
  E <= 0 -> 0 < den -> 0 < b ->
  num * b = a * den * 2 ^ (- E) ->
  (inject_Z num / inject_Z den * 2 ^ E == inject_Z a / inject_Z b)%Q.
Proof.
  intros HE Hden Hb Heq.
  rewrite pow2_neg_Q by assumption.
  assert (HP : 0 < 2 ^ (- E)) by (apply Z.pow_pos_nonneg; lia).
  set (P := 2 ^ (- E)) in *.
  assert (Hq : (inject_Z num * inject_Z b == inject_Z a * inject_Z den * inject_Z P)%Q).
  { rewrite <- !inject_Z_mult. rewrite Heq. reflexivity. }
  assert (Hd0 : ~ (inject_Z den == 0)%Q).
  { intros Hz. apply (inject_Z_injective den 0) in Hz. lia. }
  assert (Hb0 : ~ (inject_Z b == 0)%Q).
  { intros Hz. apply (inject_Z_injective b 0) in Hz. lia. }
  assert (HP0 : ~ (inject_Z P == 0)%Q).
  { intros Hz. apply (inject_Z_injective P 0) in Hz. lia. }
  apply (Qmult_inj_r _ _ (inject_Z b * inject_Z den * inject_Z P)).
  { intros Hz. apply Qmult_integral in Hz as [Hz | Hz]; [|tauto].
    apply Qmult_integral in Hz as [Hz | Hz]; tauto. }
  transitivity (inject_Z num * inject_Z b)%Q; [field; tauto|].
  rewrite Hq. field. tauto.
Qed.

(** [float(w) / float(N)] for [0 < w < N < 2^53]: a float below 1,
    within [2^-54] of [w/N]. *)
Lemma quotient_rounding w N :
  0 < w < N -> N < 2 ^ 53 ->
  exists M E,
    PyFloat.div (PyFloat.of_Z w) (PyFloat.of_Z N) = S754_finite false M E /\
    -1022 <= E <= -53 /\ Z.pos M < 2 ^ (- E) /\
    (Qabs (PyFloat.to_Q (PyFloat.div (PyFloat.of_Z w) (PyFloat.of_Z N)) - inject_Z w / inject_Z N) <= 1 # 2 ^ 54)%Q.
Proof.
  intros [Hw HwN] HN.
  destruct (of_Z_exact w ltac:(lia)) as [Hfw Hdw].
  destruct (of_Z_exact N ltac:(lia)) as [HfN HdN].
  pose proof (Zdigits2_bounds w Hw) as [Hwlo Hwhi].
  pose proof (Zdigits2_bounds N ltac:(lia)) as [HNlo HNhi].
  pose proof (Zdigits2_pos w Hw) as Hdwp.
  assert (Hmono : Zdigits2 w <= Zdigits2 N) by (apply Zdigits2_mono; lia).
  assert (HdN53 : Zdigits2 N <= 53) by (apply Zdigits2_le; lia).
  set (dw := Zdigits2 w) in *. set (dN := Zdigits2 N) in *.
  assert (Hpw : 0 < 2 ^ (53 - dw)) by (apply Z.pow_pos_nonneg; lia).
  assert (HpN : 0 < 2 ^ (53 - dN)) by (apply Z.pow_pos_nonneg; lia).
  set (mw := w * 2 ^ (53 - dw)) in *. set (mN := N * 2 ^ (53 - dN)) in *.
  assert (Hmw : 0 < mw) by (unfold mw; apply Z.mul_pos_pos; lia). assert (HmN : 0 < mN) by (unfold mN; apply Z.mul_pos_pos; lia).
  pose proof (Zdigits2_bounds mw Hmw) as [Hmwlo Hmwhi]. rewrite Hdw in Hmwlo, Hmwhi.
  pose proof (Zdigits2_bounds mN HmN) as [HmNlo HmNhi]. rewrite HdN in HmNlo, HmNhi.
  assert (Hpmw : Z.pos (digits2_pos (Z.to_pos mw)) = 53).
  { change (Z.pos (digits2_pos (Z.to_pos mw))) with (Zdigits2 (Z.pos (Z.to_pos mw))).
    rewrite Z2Pos.id by lia. exact Hdw. }
  assert (HpmN : Z.pos (digits2_pos (Z.to_pos mN)) = 53).
  { change (Z.pos (digits2_pos (Z.to_pos mN))) with (Zdigits2 (Z.pos (Z.to_pos mN))).
    rewrite Z2Pos.id by lia. exact HdN. }
  unfold PyFloat.div, PyFloat.prec, PyFloat.emax. rewrite Hfw, HfN.
  rewrite SFdiv_rne by (rewrite Hpmw, HpmN; lia).
  rewrite Hpmw, HpmN, !Z2Pos.id by lia.
  replace (53 - 53 + 53) with 53 by lia.
  set (num := mw * 2 ^ 53). set (q := num / mN).
  set (k := Z.max 0 (Zdigits2 q - 53)).
  set (E0 := 53 + (dw - 53) - (53 + (dN - 53)) - 53 + k).
  (* the quotient has 53 or 54 digits *)
  assert (Hq : 2 ^ 52 <= q < 2 ^ 54 /\ (mw < mN -> q < 2 ^ 53)).
  { unfold q, num. split; [split|].
    - apply Z.div_le_lower_bound; [lia|].
      apply Z.le_trans with (2 ^ 53 * 2 ^ 52); [|apply Z.le_trans with (2 ^ 52 * 2 ^ 53)];
        [apply Z.mul_le_mono_nonneg_r; lia | lia | apply Z.mul_le_mono_nonneg_r; lia].
    - apply Z.div_lt_upper_bound; [lia|].
      change (2 ^ 54) with (2 * 2 ^ 53). change (2 ^ 53) with (2 * 2 ^ 52) in Hmwhi. nia.
    - intros Hlt. apply Z.div_lt_upper_bound; nia. }
  destruct Hq as [[Hq52 Hq54] Hq53].
  assert (Hk : 0 <= k <= 1).
  { unfold k. assert (Zdigits2 q <= 54) by (apply Zdigits2_le; lia). lia. }
  assert (HE0 : -1022 <= E0 <= -53).
  { unfold E0. split; [lia|].
    destruct (Z.eq_dec dw dN) as [Hdeq | Hdne].
    - assert (mw < mN) by (unfold mw, mN; rewrite Hdeq; nia).
      assert (Zdigits2 q <= 53) by (apply Zdigits2_le; lia). lia.
    - lia. }
  set (den := mN * 2 ^ k).
  assert (Hpk : 0 < 2 ^ k) by (apply Z.pow_pos_nonneg; lia).
  assert (Hden : 0 < den) by (unfold den; lia).
  assert (Hnum : 0 <= num) by (unfold num; lia).
  (* [num / den] is [w / N] scaled by [2 ^ - E0] *)
  assert (Hid : num * N = w * den * 2 ^ (- E0)).
  { unfold num, den, mw, mN, E0.
    replace (- (53 + (dw - 53) - (53 + (dN - 53)) - 53 + k)) with (53 + dN - dw - k) by lia.
    assert (H1 : 2 ^ (53 - dw) * 2 ^ 53 = 2 ^ (106 - dw)) by (rewrite <- Z.pow_add_r by lia; f_equal; lia).
    assert (H2 : 2 ^ (53 - dN) * 2 ^ k * 2 ^ (53 + dN - dw - k) = 2 ^ (106 - dw)).
    { rewrite <- !Z.pow_add_r by lia; f_equal; lia. }
    transitivity (w * N * (2 ^ (53 - dw) * 2 ^ 53)); [ring|].
    rewrite H1, <- H2. ring. }
  assert (HP : 2 ^ 53 <= 2 ^ (- E0)) by (apply Z.pow_le_mono_r; lia).
  assert (HM : 1 <= rne num den <= 2 ^ (- E0) - 1).
  { split.
    - apply rne_ge; [assumption|]. unfold num, den.
      destruct (Z.eq_dec k 0) as [-> | ?]; [|replace k with 1 by lia]; simpl (2 ^ _); nia.
    - apply rne_le; [assumption|].
      apply (Z.mul_le_mono_pos_r _ _ N); [lia|]. rewrite Hid.
      assert (H1 : 2 ^ (- E0) * 1 <= 2 ^ (- E0) * (N - w))
        by (apply Z.mul_le_mono_nonneg_l; lia).
      assert (H2 : w * 2 ^ (- E0) <= (2 ^ (- E0) - 1) * N) by lia.
      replace (w * den * 2 ^ (- E0)) with (den * (w * 2 ^ (- E0))) by ring.
      replace ((2 ^ (- E0) - 1) * den * N) with (den * ((2 ^ (- E0) - 1) * N)) by ring.
      apply Z.mul_le_mono_nonneg_l; lia. }
  set (M := rne num den) in *.
  assert (Hval : (PyFloat.to_Q (mk_float false M E0) == inject_Z M * 2 ^ E0)%Q)
    by (apply to_Q_mk_float; lia).
  assert (Herr : (Qabs (PyFloat.to_Q (mk_float false M E0) - inject_Z w / inject_Z N) <= 1 # 2 ^ 54)%Q).
  { rewrite <- (scaled_quotient num den E0 w N) by lia.
    eapply Qle_trans; [apply mk_float_error; lia|]. apply half_ulp_bound. lia. }
  revert Herr. clear Hval. unfold mk_float.
  destruct (Z.eqb_spec M (2 ^ 53)) as [HeM | HneM].
  - change (2 ^ 52) with (Z.pos (2 ^ 52)).
    destruct (Z.leb_spec (E0 + 1) 971); [|lia]. intros Herr.
    assert (E0 <= -54).
    { destruct (Z.le_gt_cases E0 (-54)); [assumption|].
      replace E0 with (-53) in HM by lia. simpl in HM. lia. }
    exists (2 ^ 52)%positive, (E0 + 1). repeat split; try lia; [|exact Herr].
    apply Z.lt_le_trans with (2 ^ 53); [reflexivity|]. apply Z.pow_le_mono_r; lia.
  - destruct M as [|m|m] eqn:HMeq; try lia.
    destruct (Z.leb_spec E0 971); [|lia]. intros Herr.
    exists m, E0. repeat split; try lia. exact Herr.
Qed.

(** [1.0 - f] for a float [0 < f < 1]: a positive float within [2^-54]
    of [1 - f]. *)
Lemma complement_rounding M E :
  -1022 <= E <= -52 -> Z.pos M < 2 ^ (- E) ->
  exists A EA,
    PyFloat.sub PyFloat.one (S754_finite false M E) = S754_finite false A EA /\
    (Qabs (PyFloat.to_Q (PyFloat.sub PyFloat.one (S754_finite false M E)) - (1 - PyFloat.to_Q (S754_finite false M E)))
     <= 1 # 2 ^ 54)%Q.
Proof.
  intros HE Hlt. unfold PyFloat.sub, PyFloat.prec, PyFloat.emax. rewrite SFsub_one_rne by lia.
  set (z := 2 ^ (- E) - Z.pos M).
  assert (Hz : 0 < z) by (unfold z; lia).
  pose proof (Zdigits2_bounds z Hz) as [Hlo Hhi].
  pose proof (Zdigits2_pos z Hz) as Hdz.
  assert (Hdle : Zdigits2 z <= - E) by (apply Zdigits2_le; unfold z; lia).
  set (dz := Zdigits2 z) in *.
  set (j := Z.max 0 (53 - dz)). set (k := Z.max 0 (dz - 53)).
  assert (Hj : j = Z.max 0 (53 - dz)) by reflexivity.
  assert (Hk : k = Z.max 0 (dz - 53)) by reflexivity.
  clearbody j k.
  assert (Hpj : 0 < 2 ^ j) by (apply Z.pow_pos_nonneg; lia).
  assert (Hpk : 0 < 2 ^ k) by (apply Z.pow_pos_nonneg; lia).
  assert (HP : 0 < 2 ^ (- E)) by (apply Z.pow_pos_nonneg; lia).
  assert (Hrne : 1 <= rne (z * 2 ^ j) (2 ^ k)).
  { apply rne_ge; [assumption|]. rewrite Z.mul_1_l.
    apply Z.le_trans with (2 ^ (dz - 1)); [apply Z.pow_le_mono_r; lia | ].
    nia. }
  destruct (mk_float_finite false (rne (z * 2 ^ j) (2 ^ k)) (E + dz - 53)) as (A & EA & HA); try lia.
  exists A, EA. split; [exact HA|].
  assert (Hx : (1 - PyFloat.to_Q (S754_finite false M E) == inject_Z z / inject_Z (2 ^ (- E)))%Q).
  { simpl PyFloat.to_Q. rewrite pow2_neg_Q by lia. unfold z.
    unfold Z.sub. rewrite inject_Z_plus, inject_Z_opp.
    field. intros Hz0. apply (inject_Z_injective (2 ^ (- E)) 0) in Hz0. lia. }
  rewrite Hx.
  rewrite <- (scaled_quotient (z * 2 ^ j) (2 ^ k) (E + dz - 53) z (2 ^ (- E))); try lia.
  - eapply Qle_trans; [apply mk_float_error; lia|]. apply half_ulp_bound. lia.
  - replace (- (E + dz - 53)) with ((- E) - dz + 53) by lia.
    assert (H1 : 2 ^ j * 2 ^ (- E) = 2 ^ k * 2 ^ (- E - dz + 53)).
    { rewrite <- !Z.pow_add_r by lia. f_equal. lia. }
    transitivity (z * (2 ^ j * 2 ^ (- E))); [ring|]. rewrite H1. ring.
Qed.

(** *** Adding the accuracy and the fraction wrong *)

(** A float built from a mantissa of at most 54 bits: its mantissa and
    exponent. *)
Lemma mk_float_shape s M0 E0 :
  0 < M0 <= 2 ^ 53 -> E0 < 971 ->
  exists m e, mk_float s M0 E0 = S754_finite s m e /\
              E0 <= e /\ Z.pos m * 2 ^ (e - E0) = M0 /\
              (M0 < 2 ^ 53 -> e = E0).
Proof.
  intros [HM Hle] HE. unfold mk_float.
  destruct (Z.eqb_spec M0 (2 ^ 53)) as [-> | Hne].
  - change (2 ^ 52) with (Z.pos (2 ^ 52)).
    destruct (Z.leb_spec (E0 + 1) 971); [|lia].
    exists (2 ^ 52)%positive, (E0 + 1). repeat split; try lia.
    replace (E0 + 1 - E0) with 1 by lia. reflexivity.
  - destruct M0 as [|m|m]; try lia.
    destruct (Z.leb_spec E0 971); [|lia].
    exists m, E0. repeat split; try lia. rewrite Z.sub_diag. lia.
Qed.

(** Adding two positive floats: the mantissas are aligned on the smaller
    exponent, added exactly, and the sum is rounded once. *)
Lemma SFadd_aligned A EA M E :
  E <= EA ->
  SFadd 53 1024 (S754_finite false A EA) (S754_finite false M E) =
  binary_normalize 53 1024 (Z.pos A * 2 ^ (EA - E) + Z.pos M) E false.
Proof.
  intros H. unfold SFadd. rewrite (Z.min_r EA E) by lia.
  rewrite !shl_align_fst by lia. simpl cond_Zopp.
  rewrite Z.sub_diag, Z.pow_0_r, Z.mul_1_r. reflexivity.
Qed.

(** Just below an even integer, and at most one half away: round up. *)
Lemma rne_up num den K :
  0 < den -> Z.even K = true ->
  0 <= K * den - num -> 2 * (K * den - num) <= den ->
  rne num den = K.
Proof.
  intros Hd Hev Hlo Hhi.
  pose proof (Z.mod_pos_bound num den Hd) as Hrho.
  pose proof (Z.div_mod num den ltac:(lia)) as Hdm.
  destruct (Z.eq_dec num (K * den)) as [-> | Hne].
  - rewrite rne_exact; [apply Z.div_mul; lia | lia | apply Z.mod_mul; lia].
  - assert (Hq : num / den = K - 1).
    { symmetry. apply (Z.div_unique num den (K - 1) (num - (K - 1) * den)); [|lia].
      left. nia. }
    assert (Hr : num mod den = num - (K - 1) * den).
    { rewrite Z.mod_eq by lia. rewrite Hq. lia. }
    unfold rne. rewrite Hq, Hr.
    destruct (Z.ltb_spec (2 * (num - (K - 1) * den)) den); [lia|].
    destruct (Z.eqb_spec (2 * (num - (K - 1) * den)) den); [|lia].
    replace (K - 1) with (Z.pred K) by lia. rewrite Z.even_pred.
    rewrite <- Z.negb_even, Hev. simpl. lia.
Qed.

(** At an integer, or less than one half above: round down. *)
Lemma rne_down num den K :
  0 < den -> 0 <= num - K * den -> 2 * (num - K * den) < den ->
  rne num den = K.
Proof.
  intros Hd Hlo Hhi.
  assert (Hq : num / den = K).
  { symmetry. apply (Z.div_unique num den K (num - K * den)); [|lia]. left. lia. }
  assert (Hr : num mod den = num - K * den).
  { rewrite Z.mod_eq by lia. rewrite Hq. lia. }
  unfold rne. rewrite Hq, Hr.
  destruct (Z.ltb_spec (2 * (num - K * den)) den); [reflexivity|lia].
Qed.

(** An integer within [2^-54] of 1, at an exponent of at most -53, is
    rounded to [1.0]. *)
Lemma sum_rounds_to_one S E :
  E <= -53 -> 0 < S -> Z.abs (S - 2 ^ (- E)) * 2 ^ 54 <= 2 ^ (- E) ->
  binary_normalize 53 1024 S E false = PyFloat.one.
Proof.
  intros HE HS Hd.
  assert (HP : 2 ^ (- E) = 2 ^ (- E - 53) * 2 ^ 53)
    by (rewrite <- Z.pow_add_r by lia; f_equal; lia).
  assert (Hden : 0 < 2 ^ (- E - 53)) by (apply Z.pow_pos_nonneg; lia).
  set (den := 2 ^ (- E - 53)) in *. set (P := 2 ^ (- E)) in *.
  change (2 ^ 54) with 18014398509481984 in Hd.
  change (2 ^ 53) with 9007199254740992 in HP.
  destruct S as [|p|p]; try lia. unfold binary_normalize.
  destruct (Z.le_gt_cases P (Z.pos p)) as [Hge | Hlt].
  - (* at or above 1 *)
    assert (Hdig : Z.pos (digits2_pos p) = - E + 1).
    { apply (Zdigits2_unique (Z.pos p)); [lia|].
      replace (- E + 1 - 1) with (- E) by lia. fold P.
      replace (- E + 1) with (Z.succ (- E)) by lia. rewrite Z.pow_succ_r by lia. fold P. lia. }
    rewrite binary_round_rne by lia. rewrite Hdig.
    rewrite (Z.max_l 0 (53 - (- E + 1))), (Z.max_r 0 (- E + 1 - 53)) by lia.
    rewrite Z.pow_0_r, Z.mul_1_r.
    replace (- E + 1 - 53) with (Z.succ (- E - 53)) by lia.
    rewrite Z.pow_succ_r by lia. fold den.
    rewrite (rne_down _ _ (2 ^ 52)); [|lia| |];
      change (2 ^ 52) with 4503599627370496; try lia.
    replace (E - 0 + Z.succ (- E - 53)) with (-52) by lia. reflexivity.
  - (* just below 1 *)
    assert (Hdig : Z.pos (digits2_pos p) = - E).
    { apply (Zdigits2_unique (Z.pos p)); [lia|]. fold P. split; [|lia].
      replace (- E - 1) with ((- E - 53) + 52) by lia. rewrite Z.pow_add_r by lia.
      fold den. change (2 ^ 52) with 4503599627370496. lia. }
    rewrite binary_round_rne by lia. rewrite Hdig.
    rewrite (Z.max_l 0 (53 - - E)), (Z.max_r 0 (- E - 53)) by lia.
    rewrite Z.pow_0_r, Z.mul_1_r. fold den.
    rewrite (rne_up _ _ (2 ^ 53)); [|lia|reflexivity| |];
      change (2 ^ 53) with 9007199254740992; try lia.
    replace (E - 0 + (- E - 53)) with (-53) by lia. reflexivity.
Qed.

(** [(1.0 - f) + f] is [1.0] for every float [0 < f < 1] of exponent at
    most -53. *)
Lemma add_complement M E :
  -1022 <= E <= -53 -> Z.pos M < 2 ^ (- E) ->
  PyFloat.add (PyFloat.sub PyFloat.one (S754_finite false M E)) (S754_finite false M E)
  = PyFloat.one.
Proof.
  intros HE Hlt. unfold PyFloat.add, PyFloat.sub, PyFloat.prec, PyFloat.emax.
  rewrite SFsub_one_rne by lia.
  set (z := 2 ^ (- E) - Z.pos M).
  assert (Hz : 0 < z) by (unfold z; lia).
  pose proof (Zdigits2_bounds z Hz) as [Hlo Hhi].
  pose proof (Zdigits2_pos z Hz) as Hdz.
  assert (Hdle : Zdigits2 z <= - E) by (apply Zdigits2_le; unfold z; lia).
  set (dz := Zdigits2 z) in *.
  destruct (Z.le_gt_cases dz 53) as [Hsmall | Hbig].
  - (* the difference is exact *)
    rewrite (Z.max_r 0 (53 - dz)), (Z.max_l 0 (dz - 53)) by lia.
    set (j := 53 - dz).
    assert (Hpj : 0 < 2 ^ j) by (apply Z.pow_pos_nonneg; unfold j; lia).
    rewrite Z.pow_0_r, rne_exact, Z.div_1_r by (try apply Z.mod_1_r; lia).
    assert (Hb : 2 ^ 52 <= z * 2 ^ j < 2 ^ 53).
    { assert (H52 : 2 ^ 52 = 2 ^ (dz - 1) * 2 ^ j)
        by (rewrite <- Z.pow_add_r by (unfold j; lia); f_equal; unfold j; lia).
      assert (H53 : 2 ^ 53 = 2 ^ dz * 2 ^ j)
        by (rewrite <- Z.pow_add_r by (unfold j; lia); f_equal; unfold j; lia).
      rewrite H52, H53. split.
      - apply Z.mul_le_mono_nonneg_r; lia.
      - apply Z.mul_lt_mono_pos_r; lia. }
    destruct (mk_float_shape false (z * 2 ^ j) (E + dz - 53))
      as (m & e & -> & He & Hm & Hnc); [lia | lia |].
    assert (e = E - j) by (rewrite Hnc by lia; unfold j; lia).
    subst e. rewrite Z.mul_comm in Hm.
    replace (E - j - (E + dz - 53)) with 0 in Hm by (unfold j; lia).
    rewrite Z.pow_0_r, Z.mul_1_l in Hm.
    unfold SFadd. rewrite (Z.min_l (E - j) E) by (unfold j; lia).
    rewrite !shl_align_fst by (unfold j; lia). simpl cond_Zopp.
    rewrite Z.sub_diag, Z.pow_0_r, Z.mul_1_r, Hm.
    replace (E - (E - j)) with j by lia.
    apply sum_rounds_to_one; [unfold j; lia | lia |].
    replace (z * 2 ^ j + Z.pos M * 2 ^ j) with (2 ^ (- E) * 2 ^ j) by (unfold z; ring).
    rewrite <- Z.pow_add_r by (unfold j; lia).
    replace (- (E - j)) with (- E + j) by lia. rewrite Z.sub_diag. simpl.
    apply Z.pow_nonneg. lia.
  - (* the difference is rounded *)
    rewrite (Z.max_l 0 (53 - dz)), (Z.max_r 0 (dz - 53)) by lia.
    rewrite Z.pow_0_r, Z.mul_1_r.
    set (k := dz - 53).
    assert (Hpk : 0 < 2 ^ k) by (apply Z.pow_pos_nonneg; unfold k; lia).
    pose proof (rne_error z (2 ^ k) ltac:(lia) Hpk) as Herr.
    assert (HA : 1 <= rne z (2 ^ k) <= 2 ^ 53).
    { split.
      - apply rne_ge; [assumption|]. rewrite Z.mul_1_l.
        apply Z.le_trans with (2 ^ (dz - 1)); [apply Z.pow_le_mono_r; unfold k; lia | lia].
      - apply rne_le; [assumption|]. rewrite <- Z.pow_add_r by (unfold k; lia).
        replace (53 + k) with dz by (unfold k; lia). lia. }
    set (A0 := rne z (2 ^ k)) in *.
    destruct (mk_float_shape false A0 (E + dz - 53)) as (m & e & -> & He & Hm & _);
      [lia | lia |].
    rewrite SFadd_aligned by (unfold k in *; lia).
    assert (Hsum : Z.pos m * 2 ^ (e - E) = A0 * 2 ^ k).
    { rewrite <- Hm. replace (e - E) with ((e - (E + dz - 53)) + k) by (unfold k; lia).
      rewrite Z.pow_add_r by (unfold k; lia). ring. }
    rewrite Hsum.
    apply sum_rounds_to_one; [lia | lia |].
    replace (A0 * 2 ^ k + Z.pos M - 2 ^ (- E)) with (A0 * 2 ^ k - z) by (unfold z; lia).
    assert (HP : 2 ^ (- E) = 2 ^ (- E - 53 - k) * (2 ^ k * 2 ^ 53)).
    { rewrite <- !Z.pow_add_r by (unfold k; lia). f_equal. lia. }
    assert (Hq : 1 <= 2 ^ (- E - 53 - k)) by (apply Z.lt_pred_le, Z.pow_pos_nonneg; unfold k; lia).
    rewrite HP. change (2 ^ 54) with (2 * 2 ^ 53).
    change (2 ^ 53) with 9007199254740992 in *. nia.
Qed.

(** ** Labels *)

(** The literals [0] and [1], as floats. *)
Lemma of_Z_0 : PyFloat.of_Z 0 = PyFloat.zero.
Proof. reflexivity. Qed.

Lemma of_Z_1 : PyFloat.of_Z 1 = PyFloat.one.
Proof. reflexivity. Qed.

(** Only the two zeros compare equal to [0], only [1.0] to [1]. *)
Lemma feq_lit_0 d : feq_lit d 0 = true <-> exists s, d = S754_zero s.
Proof.
  unfold feq_lit. rewrite of_Z_0. split.
  - destruct d as [s | s | | s m e]; simpl; try discriminate; eauto.
    + destruct s; discriminate.
    + destruct s; discriminate.
  - intros [s ->]. reflexivity.
Qed.

Lemma feq_lit_1 d : feq_lit d 1 = true <-> d = PyFloat.one.
Proof.
  unfold feq_lit. rewrite of_Z_1. split.
  - unfold PyFloat.eqb, SFeqb, PyFloat.one.
    destruct d as [s | s | | s m e]; cbn [SFcompare]; try discriminate.
    + destruct s; discriminate.
    + destruct s; [discriminate|].
      destruct (Z.compare_spec e (-52)) as [-> | |]; try discriminate.
      destruct (Pos.compare_cont Eq m 4503599627370496) eqn:Hc; try discriminate.
      apply Pos.compare_eq in Hc. subst m. reflexivity.
  - intros ->. reflexivity.
Qed.

Lemma feq_lit_excl d : feq_lit d 0 = true -> feq_lit d 1 = true -> False.
Proof.
  intros [s ->]%feq_lit_0 H%feq_lit_1. discriminate.
Qed.

Lemma eq_lit_0 v :
  eq_lit v 0 = true <-> v = PyInt 0 \/ exists s, v = PyFloat (S754_zero s).
Proof.
  destruct v as [z | f]; cbn [eq_lit].
  - rewrite Z.eqb_eq. split; [intros ->; auto | intros [[= ->] | [s [=]]]; reflexivity].
  - change (PyFloat.eqb f (PyFloat.of_Z 0)) with (feq_lit f 0). rewrite feq_lit_0.
    split; [intros [s ->]; eauto | intros [[=] | [s [= ->]]]; eauto].
Qed.

Lemma eq_lit_1 v :
  eq_lit v 1 = true <-> v = PyInt 1 \/ v = PyFloat PyFloat.one.
Proof.
  destruct v as [z | f]; cbn [eq_lit].
  - rewrite Z.eqb_eq. split; [intros ->; auto | intros [[= ->] | [=]]; reflexivity].
  - change (PyFloat.eqb f (PyFloat.of_Z 1)) with (feq_lit f 1). rewrite feq_lit_1.
    split; [intros ->; eauto | intros [[=] | [= ->]]; eauto].
Qed.

Lemma eq_lit_excl v : eq_lit v 0 = true -> eq_lit v 1 = true -> False.
Proof.
  intros [-> | [s ->]]%eq_lit_0 [H | H]%eq_lit_1; discriminate.
Qed.

(** A pair of labels falls in exactly one cell; any other pair in none. *)
Lemma in_cell_labels v d :
  is_label v = true -> is_flabel d = true ->
  ind (in_cell 0 0 v d) + ind (in_cell 0 1 v d) +
  ind (in_cell 1 0 v d) + ind (in_cell 1 1 v d) = 1.
Proof.
  unfold is_label, is_flabel, in_cell. intros Hv Hd.
  pose proof (eq_lit_excl v) as Ev. pose proof (feq_lit_excl d) as Ed.
  destruct (eq_lit v 0), (eq_lit v 1), (feq_lit d 0), (feq_lit d 1);
    simpl in *; try discriminate; try reflexivity; exfalso; auto.
Qed.

Lemma in_cell_not_labels v d :
  is_label v = false \/ is_flabel d = false ->
  in_cell 0 0 v d = false /\ in_cell 0 1 v d = false /\
  in_cell 1 0 v d = false /\ in_cell 1 1 v d = false.
Proof.
  unfold is_label, is_flabel, in_cell.
  destruct (eq_lit v 0), (eq_lit v 1), (feq_lit d 0), (feq_lit d 1);
    simpl; intros [H | H]; try discriminate; auto.
Qed.

Lemma in_cell_wrong_excl v d :
  ind (in_cell 0 1 v d) + ind (in_cell 1 0 v d) <= 1.
Proof.
  unfold in_cell. pose proof (eq_lit_excl v) as Ev.
  destruct (eq_lit v 0), (eq_lit v 1), (feq_lit d 0), (feq_lit d 1);
    simpl; try lia; exfalso; auto.
Qed.

(** ** Running the evaluator *)

(** Sequencing, when the first statement returns or raises. *)
Lemma bind_run {A B} (m : M A) (k : A -> M B) g a g' :
  m g = (Ok a, g') -> bind m k g = k a g'.
Proof. intros H. unfold bind. rewrite H. reflexivity. Qed.

Lemma bind_raise {A B} (m : M A) (k : A -> M B) g e g' :
  m g = (Raise e, g') -> bind m k g = (Raise e, g').
Proof. intros H. unfold bind. rewrite H. reflexivity. Qed.

Lemma getcol_run name g col : data g !! name = Some col -> getcol name g = (Ok col, g).
Proof. intros H. unfold getcol. rewrite H. reflexivity. Qed.

Lemma series_getitem_run (col : Series) i x :
  col !! i = Some x -> series_getitem col i = Ok x.
Proof. intros H. unfold series_getitem. now rewrite H. Qed.

(** Run the first statement of a block with the equation [H]. *)
Ltac step H := rewrite (bind_run _ _ _ _ _ H); cbv beta.

(** The count of a cell is the number of rows, paired with their
    predictions, that fall in it. *)
Lemma spec_count_filter r c (predicted : list scalar) (actual : Series) :
  spec_count r c predicted actual =
  Z.of_nat (length (filter (fun vd => in_cell r c vd.1 vd.2 = true) (zip predicted actual))).
Proof.
  revert actual. induction predicted as [|v predicted IH]; intros [|d actual];
    try reflexivity.
  cbn [spec_count zip zip_with]. rewrite filter_cons. cbn [fst snd].
  rewrite IH. destruct (decide (in_cell r c v d = true)) as [-> | Hne].
  - cbn [ind length]. lia.
  - apply not_true_is_false in Hne. rewrite Hne. cbn [ind]. lia.
Qed.

(** Predictions beyond the last row do not count. *)
Lemma spec_count_take r c (predicted : list scalar) (actual : Series) :
  spec_count r c (take (length actual) predicted) actual = spec_count r c predicted actual.
Proof.
  revert predicted. induction actual as [|d actual IH]; intros [|v predicted]; simpl;
    try reflexivity. now rewrite IH.
Qed.

Lemma spec_count_bounds r c (predicted : list scalar) (actual : Series) :
  0 <= spec_count r c predicted actual <= Z.of_nat (length actual).
Proof.
  revert actual. induction predicted as [|v predicted IH]; intros [|d actual];
    cbn [spec_count length]; try lia.
  specialize (IH actual). destruct (in_cell r c v d); unfold ind; lia.
Qed.

(** A row is counted wrong at most once. *)
Lemma spec_count_wrong (predicted : list scalar) (actual : Series) :
  spec_count 0 1 predicted actual + spec_count 1 0 predicted actual
  <= Z.of_nat (length actual).
Proof.
  revert actual. induction predicted as [|v predicted IH]; intros [|d actual];
    cbn [spec_count length]; try lia.
  specialize (IH actual). pose proof (in_cell_wrong_excl v d). lia.
Qed.


Section EvaluateRun.

(** The globals hold a table with the truth column [isb]. *)
Context (g : Globals) (isb : Series).
Hypothesis Hcol : data g !! "isb" = Some isb.

(** One condition of the loop, at a row both sequences have. *)
Lemma test_run bquark i r c v d :
  bquark !! i = Some v -> isb !! i = Some d ->
  test bquark i r c g = (Ok (in_cell r c v d), g).
Proof using Hcol.
  intros Hv Hd. unfold test, in_cell.
  rewrite (bind_run _ _ g v g) by (unfold lift, list_getitem; now rewrite Hv).
  destruct (eq_lit v r); [|reflexivity].
  step (getcol_run "isb" g isb Hcol).
  rewrite (bind_run _ _ g d g) by (unfold lift; now rewrite (series_getitem_run isb i d Hd)).
  reflexivity.
Qed.

Lemma count_if_run bquark i (r c : nat) N N' v d :
  bquark !! i = Some v -> isb !! i = Some d ->
  incr r c N = Ok N' ->
  count_if bquark i r c N g =
  (Ok (if in_cell (Z.of_nat r) (Z.of_nat c) v d then N' else N), g).
Proof using Hcol.
  intros Hv Hd HN. unfold count_if.
  step (test_run bquark i (Z.of_nat r) (Z.of_nat c) v d Hv Hd).
  destruct (in_cell _ _ v d); [unfold lift; now rewrite HN | reflexivity].
Qed.

(** Each of the four lines adds the indicator of its cell. *)
Lemma count_if_mat bquark i v d n00 n01 n10 n11 :
  bquark !! i = Some v -> isb !! i = Some d ->
  count_if bquark i 0 0 (mat n00 n01 n10 n11) g =
    (Ok (mat (n00 + ind (in_cell 0 0 v d)) n01 n10 n11), g) /\
  count_if bquark i 0 1 (mat n00 n01 n10 n11) g =
    (Ok (mat n00 (n01 + ind (in_cell 0 1 v d)) n10 n11), g) /\
  count_if bquark i 1 0 (mat n00 n01 n10 n11) g =
    (Ok (mat n00 n01 (n10 + ind (in_cell 1 0 v d)) n11), g) /\
  count_if bquark i 1 1 (mat n00 n01 n10 n11) g =
    (Ok (mat n00 n01 n10 (n11 + ind (in_cell 1 1 v d))), g).
Proof using Hcol.
  intros Hv Hd.
  repeat split;
    (erewrite count_if_run by (eauto; reflexivity));
    simpl Z.of_nat; destruct (in_cell _ _ v d);
    unfold ind, mat; rewrite ?Z.add_0_r; reflexivity.
Qed.

(** One turn of the loop. *)
Lemma evaluate_body_run bquark i v d n00 n01 n10 n11 :
  bquark !! i = Some v -> isb !! i = Some d ->
  evaluate_body bquark i (mat n00 n01 n10 n11) g =
  (Ok (mat (n00 + ind (in_cell 0 0 v d)) (n01 + ind (in_cell 0 1 v d))
           (n10 + ind (in_cell 1 0 v d)) (n11 + ind (in_cell 1 1 v d))), g).
Proof using Hcol.
  intros Hv Hd. unfold evaluate_body.
  pose proof (fun a b c e => count_if_mat bquark i v d a b c e Hv Hd) as H.
  step (proj1 (H n00 n01 n10 n11)).
  step (proj1 (proj2 (H (n00 + ind (in_cell 0 0 v d)) n01 n10 n11))).
  step (proj1 (proj2 (proj2 (H (n00 + ind (in_cell 0 0 v d))
                               (n01 + ind (in_cell 0 1 v d)) n10 n11)))).
  apply H.
Qed.

(** A turn of the loop at a row without prediction raises at once. *)
Lemma evaluate_body_raises bquark i N :
  bquark !! i = None -> evaluate_body bquark i N g = (Raise IndexError, g).
Proof.
  intros Hv. unfold evaluate_body, count_if, test.
  repeat (apply bind_raise). unfold lift, list_getitem. now rewrite Hv.
Qed.

(** The loop, started at row [k] with [n] rows to go. *)
Lemma for_each_evaluate_body bquark :
  forall n k n00 n01 n10 n11,
    (k + n <= length isb)%nat -> (k + n <= length bquark)%nat ->
    for_each (seq k n) (evaluate_body bquark) (mat n00 n01 n10 n11) g =
    (Ok (mat (n00 + spec_count 0 0 (take n (drop k bquark)) (take n (drop k isb)))
             (n01 + spec_count 0 1 (take n (drop k bquark)) (take n (drop k isb)))
             (n10 + spec_count 1 0 (take n (drop k bquark)) (take n (drop k isb)))
             (n11 + spec_count 1 1 (take n (drop k bquark)) (take n (drop k isb)))), g).
Proof using Hcol.
  induction n as [|n IH]; intros k n00 n01 n10 n11 Hk Hk'.
  - simpl. unfold ret. rewrite !Z.add_0_r. reflexivity.
  - destruct (lookup_lt_is_Some_2 isb k ltac:(lia)) as [d Hd].
    destruct (lookup_lt_is_Some_2 bquark k ltac:(lia)) as [v Hv].
    cbn [seq for_each].
    step (evaluate_body_run bquark k v d n00 n01 n10 n11 Hv Hd).
    rewrite IH by lia.
    rewrite (drop_S isb d k Hd), (drop_S bquark v k Hv).
    cbn [take spec_count]. rewrite !Z.add_assoc. reflexivity.
Qed.

(** The loop raises when it comes to a row without prediction. *)
Lemma for_each_evaluate_body_raises bquark :
  forall n k n00 n01 n10 n11,
    (k + n <= length isb)%nat -> (k <= length bquark < k + n)%nat ->
    for_each (seq k n) (evaluate_body bquark) (mat n00 n01 n10 n11) g =
    (Raise IndexError, g).
Proof using Hcol.
  induction n as [|n IH]; intros k n00 n01 n10 n11 Hk Hk'; [lia|].
  cbn [seq for_each].
  destruct (bquark !! k) as [v|] eqn:Hv.
  - destruct (lookup_lt_is_Some_2 isb k ltac:(lia)) as [d Hd].
    apply lookup_lt_Some in Hv as Hlt.
    step (evaluate_body_run bquark k v d n00 n01 n10 n11 Hv Hd).
    apply IH; lia.
  - apply bind_raise. now apply evaluate_body_raises.
Qed.

(** The whole of [evaluate], when there is a prediction for every row. *)
Lemma evaluate_run bquark :
  (length isb <= length bquark)%nat ->
  evaluate bquark g =
  (report (spec_count 0 0 bquark isb) (spec_count 0 1 bquark isb)
          (spec_count 1 0 bquark isb) (spec_count 1 1 bquark isb) (length isb), g).
Proof using Hcol.
  intros Hlen. unfold evaluate.
  step (getcol_run "isb" g isb Hcol). unfold for_range.
  pose proof (for_each_evaluate_body bquark (length isb) 0 0 0 0 0
                ltac:(lia) ltac:(lia)) as Hloop.
  rewrite !drop_0, firstn_all, !spec_count_take, !Z.add_0_l in Hloop.
  step Hloop.
  rewrite (bind_run _ _ g (spec_count 0 1 bquark isb) g) by reflexivity.
  rewrite (bind_run _ _ g (spec_count 1 0 bquark isb) g) by reflexivity.
  cbv beta. unfold report.
  destruct (float_of_int (spec_count 0 1 bquark isb + spec_count 1 0 bquark isb))
    as [wrong | e] eqn:Hw;
    [rewrite (bind_run _ _ g wrong g) by reflexivity; cbv beta
    |apply bind_raise; reflexivity].
  step (getcol_run "isb" g isb Hcol).
  destruct (float_of_int (Z.of_nat (length isb))) as [tot | e] eqn:Ht;
    [rewrite (bind_run _ _ g tot g) by reflexivity; cbv beta
    |apply bind_raise; reflexivity].
  destruct (truediv wrong tot) as [fracWrong | e] eqn:Hf;
    [rewrite (bind_run _ _ g fracWrong g) by reflexivity
    |apply bind_raise; reflexivity].
  reflexivity.
Qed.

(** [evaluate] on fewer predictions than rows: [bquark[i]] raises at the
    first row without prediction. *)
Lemma evaluate_short bquark :
  (length bquark < length isb)%nat ->
  evaluate bquark g = (Raise IndexError, g).
Proof using Hcol.
  intros Hlen. unfold evaluate.
  step (getcol_run "isb" g isb Hcol). unfold for_range.
  apply bind_raise.
  apply (for_each_evaluate_body_raises bquark (length isb) 0 0 0 0 0); lia.
Qed.

End EvaluateRun.

(** *** The last three lines *)
Lemma float_of_int_0 : float_of_int 0 = Ok PyFloat.zero.
Proof. reflexivity. Qed.

Lemma float_of_int_pos n :
  0 < n <= sys_maxsize ->
  exists m e, PyFloat.of_Z n = S754_finite false m e /\
              float_of_int n = Ok (S754_finite false m e).
Proof.
  intros [Hn Hmax].
  destruct (of_Z_finite n) as (m & e & H).
  { split; [assumption|]. apply Z.le_lt_trans with sys_maxsize; [assumption|].
    unfold sys_maxsize. apply Z.lt_trans with (2 ^ 63); [lia|].
    apply Z.pow_lt_mono_r; lia. }
  exists m, e. split; [exact H|]. unfold float_of_int. rewrite H. reflexivity.
Qed.

Lemma float_of_int_count n :
  0 <= n <= sys_maxsize -> float_of_int n = Ok (PyFloat.of_Z n).
Proof.
  intros [Hn Hmax]. destruct (Z.eq_dec n 0) as [-> | Hne]; [reflexivity|].
  destruct (float_of_int_pos n ltac:(lia)) as (m & e & H1 & H2). now rewrite H1.
Qed.

(** With at least one row, and no more than a sequence can hold, the
    last three lines raise nothing. *)
Lemma report_ok n00 n01 n10 n11 n :
  (0 < n)%nat -> Z.of_nat n <= sys_maxsize -> 0 <= n01 + n10 <= Z.of_nat n ->
  report n00 n01 n10 n11 n =
  Ok (mat n00 n01 n10 n11,
      PyFloat.sub PyFloat.one (PyFloat.div (PyFloat.of_Z (n01 + n10)) (PyFloat.of_Z (Z.of_nat n))),
      PyFloat.div (PyFloat.of_Z (n01 + n10)) (PyFloat.of_Z (Z.of_nat n))).
Proof.
  intros Hn Hmax Hw. unfold report.
  rewrite float_of_int_count by lia.
  destruct (float_of_int_pos (Z.of_nat n) ltac:(lia)) as (m & e & H1 & H2).
  rewrite H2, H1. reflexivity.
Qed.

(** Whatever the last three lines return, the matrix is the one the
    loop has left. *)
Lemma report_matrix n00 n01 n10 n11 n N accuracy fracWrong :
  report n00 n01 n10 n11 n = Ok (N, accuracy, fracWrong) ->
  N = mat n00 n01 n10 n11 /\
  accuracy = PyFloat.sub PyFloat.one fracWrong.
Proof.
  unfold report. destruct (float_of_int _); [|discriminate].
  destruct (float_of_int _); [|discriminate].
  destruct (truediv _ _); [|discriminate].
  intros [= <- <- <-]. auto.
Qed.

(** No row: the division raises. *)
Lemma report_empty n00 n01 n10 n11 :
  0 <= n01 + n10 <= 0 -> report n00 n01 n10 n11 0 = Raise ZeroDivisionError.
Proof.
  intros H. unfold report. replace (n01 + n10) with 0 by lia. reflexivity.
Qed.

(** ** Counting

    Every row of binary sequences is counted exactly once. *)
Lemma spec_count_binary_total (predicted : list scalar) (actual : Series) :
  length predicted = length actual -> binary predicted -> binary_col actual ->
  spec_count 0 0 predicted actual + spec_count 0 1 predicted actual +
  spec_count 1 0 predicted actual + spec_count 1 1 predicted actual
  = Z.of_nat (length actual).
Proof.
  revert actual. induction predicted as [|v predicted IH]; intros [|d actual] Hlen Hp Ha;
    try discriminate; [reflexivity|].
  apply Forall_cons in Hp as [Hv Hp]. apply Forall_cons in Ha as [Hd Ha].
  cbn [spec_count length]. injection Hlen as Hlen.
  specialize (IH actual Hlen Hp Ha). pose proof (in_cell_labels v d Hv Hd). lia.
Qed.

(** Equal values are never counted wrong, different values never right. *)
Lemma scalar_eq_cells v d :
  scalar_eq v d = true -> in_cell 0 1 v d = false /\ in_cell 1 0 v d = false.
Proof.
  intros H. unfold in_cell. split.
  - destruct (eq_lit v 0) eqn:Hv; [|reflexivity]. destruct (feq_lit d 1) eqn:Hd; [|reflexivity].
    apply feq_lit_1 in Hd. subst d.
    apply eq_lit_0 in Hv as [-> | [s ->]]; [discriminate | destruct s; discriminate].
  - destruct (eq_lit v 1) eqn:Hv; [|reflexivity]. destruct (feq_lit d 0) eqn:Hd; [|reflexivity].
    apply feq_lit_0 in Hd as [s ->].
    apply eq_lit_1 in Hv as [-> | ->]; destruct s; discriminate.
Qed.

Lemma scalar_neq_cells v d :
  scalar_eq v d = false ->
  in_cell 0 0 v d = false /\ in_cell 1 1 v d = false.
Proof.
  intros H. unfold in_cell. split.
  - destruct (eq_lit v 0) eqn:Hv; [|reflexivity]. destruct (feq_lit d 0) eqn:Hd; [|reflexivity].
    apply feq_lit_0 in Hd as [s ->].
    apply eq_lit_0 in Hv as [-> | [s' ->]]; destruct s; try destruct s'; discriminate.
  - destruct (eq_lit v 1) eqn:Hv; [|reflexivity]. destruct (feq_lit d 1) eqn:Hd; [|reflexivity].
    apply feq_lit_1 in Hd. subst d.
    apply eq_lit_1 in Hv as [-> | ->]; discriminate.
Qed.

Lemma spec_count_agree (predicted : list scalar) (actual : Series) :
  Forall2 (fun v d => scalar_eq v d = true) predicted actual ->
  spec_count 0 1 predicted actual = 0 /\ spec_count 1 0 predicted actual = 0.
Proof.
  induction 1 as [|v d predicted actual Hvd _ [IH1 IH2]]; [auto|].
  cbn [spec_count]. destruct (scalar_eq_cells v d Hvd) as [-> ->]. simpl. auto.
Qed.

Lemma spec_count_disagree (predicted : list scalar) (actual : Series) :
  Forall2 (fun v d => scalar_eq v d = false) predicted actual ->
  spec_count 0 0 predicted actual = 0 /\ spec_count 1 1 predicted actual = 0.
Proof.
  induction 1 as [|v d predicted actual Hvd _ [IH1 IH2]]; [auto|].
  cbn [spec_count]. destruct (scalar_neq_cells v d Hvd) as [-> ->]. simpl. auto.
Qed.

(** ** The evaluator *)
Lemma globals_with_isb isb : data (globals_with isb) !! "isb" = Some isb.
Proof. apply lookup_singleton_eq. Qed.

(** C1. With [N > 0] rows and a prediction per row, [evaluate] returns
    the matrix whose cell [(r, c)] counts the indices [i] with
    [predicted[i] == r] and [actual[i] == c], and the fraction wrong is
    the float quotient of [count[0][1] + count[1][0]] by [N]; the globals
    are left as they were. In particular predicted [0,0,1,1] against
    actual [0,1,0,1] gives the counts 1, 1, 1, 1, fraction wrong 0.5 and
    accuracy 0.5. (The labels need not be binary for this.) *)
Theorem evaluate_tallies_pairs :
  (forall g (predicted : list scalar) (actual : Series),
     data g !! "isb" = Some actual ->
     length predicted = length actual ->
     (0 < length actual)%nat -> Z.of_nat (length actual) <= sys_maxsize ->
     let count r c := spec_count r c predicted actual in
     let fracWrong :=
       PyFloat.div (PyFloat.of_Z (count 0 1 + count 1 0))
                   (PyFloat.of_Z (Z.of_nat (length actual))) in
     evaluate predicted g =
     (Ok (mat (count 0 0) (count 0 1) (count 1 0) (count 1 1),
          PyFloat.sub PyFloat.one fracWrong, fracWrong), g)) /\
  (forall g,
     data g !! "isb" = Some [PyFloat.zero; PyFloat.one; PyFloat.zero; PyFloat.one] ->
     evaluate [PyInt 0; PyInt 0; PyInt 1; PyInt 1] g =
     (Ok (mat 1 1 1 1, PyFloat.half, PyFloat.half), g)).
Proof.
  split.
  - intros g predicted actual Hcol Hlen Hpos Hmax count fracWrong.
    subst fracWrong count. cbv beta.
    rewrite (evaluate_run g actual Hcol predicted) by lia.
    apply (f_equal (fun r => (r, g))). apply report_ok; try assumption.
    pose proof (spec_count_bounds 0 1 predicted actual).
    pose proof (spec_count_bounds 1 0 predicted actual).
    pose proof (spec_count_wrong predicted actual). lia.
  - intros g Hcol. rewrite (evaluate_run g _ Hcol) by (simpl; lia). reflexivity.
Qed.

Lemma evaluate_tallies_pairs_witness :
  let g := globals_with [PyFloat.zero; PyFloat.one; PyFloat.zero] in
  let g' := globals_with [PyFloat.zero; PyFloat.one; PyFloat.zero; PyFloat.one] in
  evaluate [PyInt 1; PyInt 1; PyInt 0] g =
  (Ok (mat 1 0 1 1, PyFloat.sub PyFloat.one (PyFloat.div (PyFloat.of_Z 1) (PyFloat.of_Z 3)),
       PyFloat.div (PyFloat.of_Z 1) (PyFloat.of_Z 3)), g) /\
  evaluate [PyInt 0; PyInt 0; PyInt 1; PyInt 1] g' =
  (Ok (mat 1 1 1 1, PyFloat.half, PyFloat.half), g').
Proof.
  intros g g'. split.
  - apply (proj1 evaluate_tallies_pairs g [PyInt 1; PyInt 1; PyInt 0]
             [PyFloat.zero; PyFloat.one; PyFloat.zero]).
    + reflexivity.
    + reflexivity.
    + simpl. lia.
    + vm_compute. discriminate.
  - apply (proj2 evaluate_tallies_pairs g'). reflexivity.
Defined.

(** C2. For binary sequences of equal length [N], the four counts of
    any report [evaluate] returns sum to [N]; and it does return a report
    when [0 < N <= sys.maxsize]. *)
Theorem evaluate_counts_sum_to_length g (predicted : list scalar) (actual : Series) :
  data g !! "isb" = Some actual ->
  length predicted = length actual ->
  binary predicted -> binary_col actual ->
  (forall N accuracy fracWrong,
     outcome (evaluate predicted) g = Ok (N, accuracy, fracWrong) ->
     total N = Z.of_nat (length actual)) /\
  ((0 < length actual)%nat -> Z.of_nat (length actual) <= sys_maxsize ->
   exists N accuracy fracWrong,
     outcome (evaluate predicted) g = Ok (N, accuracy, fracWrong)).
Proof.
  intros Hcol Hlen Hp Ha. unfold outcome.
  rewrite (evaluate_run g actual Hcol predicted) by lia. cbn [fst].
  split.
  - intros N accuracy fracWrong Hr.
    apply report_matrix in Hr as [-> _].
    rewrite <- (spec_count_binary_total predicted actual Hlen Hp Ha).
    unfold total, mat. simpl. lia.
  - intros Hpos Hmax. rewrite report_ok; eauto.
    pose proof (spec_count_bounds 0 1 predicted actual).
    pose proof (spec_count_bounds 1 0 predicted actual).
    pose proof (spec_count_wrong predicted actual). lia.
Qed.

Lemma evaluate_counts_sum_to_length_witness :
  let g := globals_with [PyFloat.zero; PyFloat.one; PyFloat.zero] in
  total (mat 1 0 1 1) = 3 /\
  exists N accuracy fracWrong,
    outcome (evaluate [PyInt 1; PyInt 1; PyInt 0]) g = Ok (N, accuracy, fracWrong).
Proof.
  intros g.
  assert (Hp : binary [PyInt 1; PyInt 1; PyInt 0]) by (repeat constructor).
  assert (Ha : binary_col [PyFloat.zero; PyFloat.one; PyFloat.zero]) by (repeat constructor).
  destruct (evaluate_counts_sum_to_length g [PyInt 1; PyInt 1; PyInt 0]
              [PyFloat.zero; PyFloat.one; PyFloat.zero] eq_refl eq_refl Hp Ha) as [Hsum Hret].
  split.
  - apply (Hsum _ (PyFloat.sub PyFloat.one (PyFloat.div (PyFloat.of_Z 1) (PyFloat.of_Z 3)))
                  (PyFloat.div (PyFloat.of_Z 1) (PyFloat.of_Z 3))).
    reflexivity.
  - apply Hret; [simpl; lia | vm_compute; discriminate].
Defined.

(** C4. With no row, [evaluate] yields no accuracy at all, NaN or
    other: the division [float(0)/float(0)] raises [ZeroDivisionError],
    whatever the predictions are. *)
Theorem evaluate_empty_raises g (bquark : list scalar) :
  data g !! "isb" = Some [] ->
  evaluate bquark g = (Raise ZeroDivisionError, g).
Proof.
  intros Hcol. rewrite (evaluate_run g [] Hcol bquark) by (simpl; lia).
  destruct bquark; reflexivity.
Qed.

Lemma evaluate_empty_raises_witness :
  evaluate [] (globals_with []) = (Raise ZeroDivisionError, globals_with []).
Proof. apply evaluate_empty_raises. reflexivity. Defined.

(** C6. When every prediction equals the truth of its row, nothing is
    counted off the diagonal, the fraction wrong is [0.0] and the
    accuracy is [1.0]. *)
Theorem evaluate_perfect_agreement g (predicted : list scalar) (actual : Series) :
  data g !! "isb" = Some actual ->
  Forall2 (fun v d => scalar_eq v d = true) predicted actual ->
  (0 < length actual)%nat -> Z.of_nat (length actual) <= sys_maxsize ->
  evaluate predicted g =
  (Ok (mat (spec_count 0 0 predicted actual) 0 0 (spec_count 1 1 predicted actual),
       PyFloat.one, PyFloat.zero), g).
Proof.
  intros Hcol Heq Hpos Hmax.
  pose proof (Forall2_length _ _ _ Heq) as Hlen.
  destruct (spec_count_agree predicted actual Heq) as [H01 H10].
  rewrite (evaluate_run g actual Hcol predicted) by lia.
  rewrite report_ok by (rewrite ?H01, ?H10; lia).
  rewrite H01, H10. simpl (0 + 0).
  destruct (float_of_int_pos (Z.of_nat (length actual)) ltac:(lia)) as (m & e & -> & _).
  reflexivity.
Qed.

Lemma evaluate_perfect_agreement_witness :
  let g := globals_with [PyFloat.zero; PyFloat.one; PyFloat.one] in
  evaluate [PyInt 0; PyInt 1; PyFloat PyFloat.one] g =
  (Ok (mat 1 0 0 2, PyFloat.one, PyFloat.zero), g).
Proof.
  intros g.
  apply (evaluate_perfect_agreement g [PyInt 0; PyInt 1; PyFloat PyFloat.one]
           [PyFloat.zero; PyFloat.one; PyFloat.one]).
  - reflexivity.
  - repeat constructor.
  - simpl. lia.
  - vm_compute. discriminate.
Defined.

(** C7. When the sequences are binary and every prediction differs from
    the truth of its row, nothing is counted on the diagonal, the
    fraction wrong is [1.0] and the accuracy is [0.0]. *)
Theorem evaluate_total_disagreement g (predicted : list scalar) (actual : Series) :
  data g !! "isb" = Some actual ->
  binary predicted -> binary_col actual ->
  Forall2 (fun v d => scalar_eq v d = false) predicted actual ->
  (0 < length actual)%nat -> Z.of_nat (length actual) <= sys_maxsize ->
  evaluate predicted g =
  (Ok (mat 0 (spec_count 0 1 predicted actual) (spec_count 1 0 predicted actual) 0,
       PyFloat.zero, PyFloat.one), g).
Proof.
  intros Hcol Hp Ha Hne Hpos Hmax.
  pose proof (Forall2_length _ _ _ Hne) as Hlen.
  destruct (spec_count_disagree predicted actual Hne) as [H00 H11].
  pose proof (spec_count_binary_total predicted actual Hlen Hp Ha) as Hsum.
  rewrite H00, H11 in Hsum.
  rewrite (evaluate_run g actual Hcol predicted) by lia.
  rewrite report_ok by lia. rewrite H00, H11.
  replace (spec_count 0 1 predicted actual + spec_count 1 0 predicted actual)
    with (Z.of_nat (length actual)) by lia.
  destruct (float_of_int_pos (Z.of_nat (length actual)) ltac:(lia)) as (m & e & -> & _).
  unfold PyFloat.div, PyFloat.prec, PyFloat.emax. rewrite SFdiv_same.
  reflexivity.
Qed.

Lemma evaluate_total_disagreement_witness :
  let g := globals_with [PyFloat.zero; PyFloat.one; PyFloat.one] in
  evaluate [PyInt 1; PyInt 0; PyFloat PyFloat.zero] g =
  (Ok (mat 0 2 1 0, PyFloat.zero, PyFloat.one), g).
Proof.
  intros g.
  apply (evaluate_total_disagreement g [PyInt 1; PyInt 0; PyFloat PyFloat.zero]
           [PyFloat.zero; PyFloat.one; PyFloat.one]).
  - reflexivity.
  - repeat constructor.
  - repeat constructor.
  - repeat constructor.
  - simpl. lia.
  - vm_compute. discriminate.
Defined.

(** C10. When there are at least as many predictions as rows,
    [evaluate] returns what it returns on the first [N] predictions: the
    loop runs over the rows of [data['isb']] and never reads beyond. *)
Theorem evaluate_ignores_extra_predictions g (predicted : list scalar) (actual : Series) :
  data g !! "isb" = Some actual ->
  (length actual <= length predicted)%nat ->
  evaluate predicted g = evaluate (take (length actual) predicted) g.
Proof.
  intros Hcol Hlen.
  rewrite (evaluate_run g actual Hcol predicted) by lia.
  rewrite (evaluate_run g actual Hcol (take (length actual) predicted))
    by (rewrite length_take; lia).
  rewrite !spec_count_take. reflexivity.
Qed.

Lemma evaluate_ignores_extra_predictions_witness :
  let g := globals_with [PyFloat.zero; PyFloat.one] in
  evaluate [PyInt 0; PyInt 0; PyInt 1; PyInt 7] g = evaluate [PyInt 0; PyInt 0] g.
Proof.
  intros g.
  apply (evaluate_ignores_extra_predictions g [PyInt 0; PyInt 0; PyInt 1; PyInt 7]
           [PyFloat.zero; PyFloat.one]).
  - reflexivity.
  - simpl. lia.
Defined.

(** ** Accuracy and fraction wrong *)
Lemma to_Q_one : (PyFloat.to_Q PyFloat.one == 1)%Q.
Proof. reflexivity. Qed.

Lemma to_Q_zero : (PyFloat.to_Q PyFloat.zero == 0)%Q.
Proof. reflexivity. Qed.

(** The two rounding errors of [evaluate], for [0 <= w <= n < 2^53]. *)
Lemma fraction_and_accuracy_errors w n :
  0 <= w <= n -> 0 < n < exact_int_bound ->
  let fracWrong := PyFloat.div (PyFloat.of_Z w) (PyFloat.of_Z n) in
  let accuracy := PyFloat.sub PyFloat.one fracWrong in
  (Qabs (PyFloat.to_Q fracWrong - inject_Z w / inject_Z n) <= 1 # 2 ^ 54)%Q /\
  (Qabs (PyFloat.to_Q accuracy - (1 - PyFloat.to_Q fracWrong)) <= 1 # 2 ^ 54)%Q.
Proof.
  intros Hw Hn fracWrong accuracy. unfold exact_int_bound in Hn.
  assert (Hnq : ~ (inject_Z n == 0)%Q).
  { intros Hz. apply (inject_Z_injective n 0) in Hz. lia. }
  destruct (of_Z_finite n) as (m & e & Hfn).
  { split; [lia|]. apply Z.lt_trans with (2 ^ 53); [lia|]. apply Z.pow_lt_mono_r; lia. }
  destruct (Z.eq_dec w 0) as [-> | Hw0]; [|destruct (Z.eq_dec w n) as [-> | Hwn]].
  - (* no wrong decision *)
    assert (Hf : fracWrong = PyFloat.zero) by (unfold fracWrong; rewrite Hfn; reflexivity).
    assert (Ha : accuracy = PyFloat.one) by (unfold accuracy; rewrite Hf; reflexivity).
    rewrite Ha, Hf, to_Q_one, to_Q_zero. split.
    + assert (Heq : (0 - inject_Z 0 / inject_Z n == 0)%Q) by (field; exact Hnq).
      rewrite Heq. discriminate.
    + assert (Heq : (1 - (1 - 0) == 0)%Q) by ring. rewrite Heq. discriminate.
  - (* every decision wrong *)
    assert (Hf : fracWrong = PyFloat.one).
    { unfold fracWrong, PyFloat.div, PyFloat.prec, PyFloat.emax. rewrite Hfn. apply SFdiv_same. }
    assert (Ha : accuracy = PyFloat.zero) by (unfold accuracy; rewrite Hf; reflexivity).
    rewrite Ha, Hf, to_Q_one, to_Q_zero. split.
    + assert (Heq : (1 - inject_Z n / inject_Z n == 0)%Q) by (field; exact Hnq).
      rewrite Heq. discriminate.
    + assert (Heq : (0 - (1 - 1) == 0)%Q) by ring. rewrite Heq. discriminate.
  - destruct (quotient_rounding w n ltac:(lia) ltac:(lia)) as (M & E & Hf & HE & HM & Herr).
    split; [exact Herr|].
    unfold accuracy, fracWrong. rewrite Hf.
    destruct (complement_rounding M E ltac:(lia) HM) as (A & EA & _ & Herr').
    exact Herr'.
Qed.

(** In binary64, the accuracy and the fraction wrong add up to [1.0]
    exactly. *)
Lemma accuracy_plus_fraction_wrong w n :
  0 <= w <= n -> 0 < n < exact_int_bound ->
  let fracWrong := PyFloat.div (PyFloat.of_Z w) (PyFloat.of_Z n) in
  PyFloat.add (PyFloat.sub PyFloat.one fracWrong) fracWrong = PyFloat.one.
Proof.
  intros Hw Hn fracWrong. unfold exact_int_bound in Hn.
  destruct (of_Z_finite n) as (m & e & Hfn).
  { split; [lia|]. apply Z.lt_trans with (2 ^ 53); [lia|]. apply Z.pow_lt_mono_r; lia. }
  destruct (Z.eq_dec w 0) as [-> | Hw0]; [|destruct (Z.eq_dec w n) as [-> | Hwn]].
  - assert (Hf : fracWrong = PyFloat.zero) by (unfold fracWrong; rewrite Hfn; reflexivity).
    rewrite Hf. reflexivity.
  - assert (Hf : fracWrong = PyFloat.one).
    { unfold fracWrong, PyFloat.div, PyFloat.prec, PyFloat.emax. rewrite Hfn. apply SFdiv_same. }
    rewrite Hf. reflexivity.
  - destruct (quotient_rounding w n ltac:(lia) ltac:(lia)) as (M & E & Hf & HE & HM & _).
    unfold fracWrong. rewrite Hf. apply add_complement; assumption.
Qed.

(** C3. For binary sequences of equal length [0 < N < 2^53], the
    accuracy [evaluate] returns is the float difference
    [1.0 - fracWrong], and the float sum [accuracy + fracWrong] is [1.0];
    as rationals, [accuracy + fracWrong] is within [2^-54] of 1 and
    [accuracy] is within [2^-53] of [(N00 + N11) / N]: both identities
    hold within floating-point tolerance. *)
Theorem accuracy_complements_fraction_wrong g (predicted : list scalar) (actual : Series) :
  data g !! "isb" = Some actual ->
  length predicted = length actual ->
  binary predicted -> binary_col actual ->
  (0 < length actual)%nat -> Z.of_nat (length actual) < exact_int_bound ->
  let count r c := spec_count r c predicted actual in
  exists accuracy fracWrong,
    evaluate predicted g =
      (Ok (mat (count 0 0) (count 0 1) (count 1 0) (count 1 1), accuracy, fracWrong), g) /\
    accuracy = PyFloat.sub PyFloat.one fracWrong /\
    PyFloat.add accuracy fracWrong = PyFloat.one /\
    (Qabs (PyFloat.to_Q accuracy + PyFloat.to_Q fracWrong - 1) <= 1 # 2 ^ 54)%Q /\
    (Qabs (PyFloat.to_Q accuracy
           - inject_Z (count 0 0 + count 1 1)%Z / inject_Z (Z.of_nat (length actual)))
     <= 1 # 2 ^ 53)%Q.
Proof.
  intros Hcol Hlen Hp Ha Hpos Hmax count. subst count. cbv beta.
  pose proof (spec_count_bounds 0 1 predicted actual) as H01.
  pose proof (spec_count_bounds 1 0 predicted actual) as H10.
  pose proof (spec_count_wrong predicted actual) as Hw.
  pose proof (spec_count_binary_total predicted actual Hlen Hp Ha) as Hsum.
  set (w := spec_count 0 1 predicted actual + spec_count 1 0 predicted actual) in *.
  set (n := Z.of_nat (length actual)) in *.
  assert (Hmax' : n <= sys_maxsize).
  { unfold exact_int_bound in Hmax. unfold sys_maxsize.
    apply Z.le_trans with (2 ^ 53); [lia|]. simpl. lia. }
  rewrite (evaluate_run g actual Hcol predicted) by lia.
  rewrite report_ok by (fold w n; lia). fold w n.
  do 2 eexists. split; [reflexivity|]. split; [reflexivity|].
  split; [apply (accuracy_plus_fraction_wrong w n); lia|].
  destruct (fraction_and_accuracy_errors w n ltac:(lia) ltac:(lia)) as [He1 He2].
  set (fw := PyFloat.to_Q (PyFloat.div (PyFloat.of_Z w) (PyFloat.of_Z n))) in *.
  set (acc := PyFloat.to_Q (PyFloat.sub PyFloat.one
                 (PyFloat.div (PyFloat.of_Z w) (PyFloat.of_Z n)))) in *.
  assert (Hnq : ~ (inject_Z n == 0)%Q).
  { intros Hz. apply (inject_Z_injective n 0) in Hz. lia. }
  assert (Hright : (inject_Z (spec_count 0 0 predicted actual + spec_count 1 1 predicted actual)
                    / inject_Z n == 1 - inject_Z w / inject_Z n)%Q).
  { replace (spec_count 0 0 predicted actual + spec_count 1 1 predicted actual)
      with (n + - w) by (unfold w; lia).
    rewrite inject_Z_plus, inject_Z_opp. field. exact Hnq. }
  rewrite Hright.
  set (x := (inject_Z w / inject_Z n)%Q) in *.
  apply Qabs_Qle_condition in He1, He2.
  assert (Heps : (1 # 2 ^ 53 == (1 # 2 ^ 54) + (1 # 2 ^ 54))%Q) by reflexivity.
  set (eps := (1 # 2 ^ 54)%Q) in *.
  split; apply Qabs_Qle_condition; rewrite ?Heps; lra.
Qed.

Lemma accuracy_complements_fraction_wrong_witness :
  let g := globals_with [PyFloat.zero; PyFloat.zero; PyFloat.zero] in
  exists accuracy fracWrong,
    evaluate [PyInt 1; PyInt 0; PyInt 0] g = (Ok (mat 2 0 1 0, accuracy, fracWrong), g) /\
    accuracy = PyFloat.sub PyFloat.one fracWrong /\
    PyFloat.add accuracy fracWrong = PyFloat.one /\
    (Qabs (PyFloat.to_Q accuracy + PyFloat.to_Q fracWrong - 1) <= 1 # 2 ^ 54)%Q /\
    (Qabs (PyFloat.to_Q accuracy - inject_Z (2 + 0) / inject_Z 3) <= 1 # 2 ^ 53)%Q.
Proof.
  intros g.
  apply (accuracy_complements_fraction_wrong g [PyInt 1; PyInt 0; PyInt 0]
           [PyFloat.zero; PyFloat.zero; PyFloat.zero]).
  - reflexivity.
  - reflexivity.
  - repeat constructor.
  - repeat constructor.
  - simpl. lia.
  - vm_compute. reflexivity.
Defined.

(** The tolerance is needed for the second identity: with one wrong
    decision out of three the accuracy is [0x1.5555555555556p-1], one
    unit in the last place above the float quotient
    [2/3 = 0x1.5555555555555p-1]. *)
Lemma accuracy_one_ulp_above_quotient :
  let g := globals_with [PyFloat.zero; PyFloat.zero; PyFloat.zero] in
  let accuracy := S754_finite false 6004799503160662 (-53) in
  let fracWrong := S754_finite false 6004799503160661 (-54) in
  evaluate [PyInt 1; PyInt 0; PyInt 0] g = (Ok (mat 2 0 1 0, accuracy, fracWrong), g) /\
  accuracy <> PyFloat.div (PyFloat.of_Z (2 + 0)) (PyFloat.of_Z 3) /\
  ~ (PyFloat.to_Q accuracy == inject_Z (2 + 0) / inject_Z 3)%Q.
Proof.
  intros g accuracy fracWrong. split; [|split].
  - vm_compute. reflexivity.
  - vm_compute. discriminate.
  - vm_compute. discriminate.
Qed.

(** ** The selection cell *)


(** The loop, started at row [k] with [n] rows to go, appends one label
    per row. *)
Lemma select_loop (scores : Series) :
  forall n k g,
    data g !! "prob_b" = Some scores -> (k + n <= length scores)%nat ->
    for_each (seq k n) (fun i (_ : unit) =>
      col <- getcol "prob_b" ;;
      x <- lift (series_getitem col i) ;;
      cut <- read cut_prop_b ;;
      if PyFloat.ltb cut x then bquark_append (PyInt 1)
      else bquark_append (PyInt 0)) tt g =
    (Ok tt, set_bquark (bquark g ++ map (spec_label (cut_prop_b g)) (take n (drop k scores))) g).
Proof.
  induction n as [|n IH]; intros k g Hcol Hk.
  - simpl. unfold ret. rewrite app_nil_r. destruct g; reflexivity.
  - destruct (lookup_lt_is_Some_2 scores k ltac:(lia)) as [x Hx].
    cbn [seq for_each].
    set (g1 := set_bquark (bquark g ++ [spec_label (cut_prop_b g) x]) g).
    rewrite (bind_run _ _ g tt g1).
    + rewrite IH by (try assumption; lia).
      rewrite (drop_S scores x k Hx). cbn [take map].
      unfold g1. cbn [bquark cut_prop_b set_bquark]. rewrite <- app_assoc. reflexivity.
    + rewrite (bind_run _ _ g scores g) by now apply getcol_run.
      cbv beta.
      rewrite (bind_run _ _ g x g) by (unfold lift; now rewrite (series_getitem_run scores k x Hx)).
      rewrite (bind_run _ _ g (cut_prop_b g) g) by reflexivity.
      unfold g1, spec_label. destruct (PyFloat.ltb (cut_prop_b g) x); reflexivity.
Qed.

Lemma select_bquark_run g (scores : Series) :
  data g !! "prob_b" = Some scores ->
  select_bquark g = (Ok tt, set_bquark (map (spec_label (cut_prop_b g)) scores) g).
Proof.
  intros Hcol. unfold select_bquark.
  rewrite (bind_run _ _ g tt (set_bquark [] g)) by reflexivity.
  rewrite (bind_run _ _ (set_bquark [] g) scores (set_bquark [] g)) by now apply getcol_run.
  cbv beta. unfold for_range. rewrite (select_loop scores) by (try assumption; simpl; lia).
  rewrite drop_0, firstn_all. reflexivity.
Qed.

(** The cell of the notebook: the cut is [0.15]. *)
Lemma selection_cell_run g (scores : Series) :
  data g !! "prob_b" = Some scores ->
  selection_cell g =
  (Ok tt, set_bquark (map (spec_label lit_0_15) scores) (set_cut_prop_b lit_0_15 g)).
Proof.
  intros Hcol. unfold selection_cell.
  rewrite (bind_run _ _ g tt (set_cut_prop_b lit_0_15 g)) by reflexivity.
  now rewrite (select_bquark_run _ scores).
Qed.

(** C5. From [bquark=[]] on, the selection cell leaves in [bquark] one
    label per score: [1] where the score is strictly greater than the
    cut, [0] elsewhere. In particular the scores [0.1, 0.5, 0.9] with the
    cut [0.5] give [0, 0, 1]. *)
Theorem select_bquark_thresholds :
  (forall g (scores : Series),
     data g !! "prob_b" = Some scores ->
     outcome select_bquark g = Ok tt /\
     length (bquark (final select_bquark g)) = length scores /\
     forall i x, scores !! i = Some x ->
       bquark (final select_bquark g) !! i =
       Some (if PyFloat.ltb (cut_prop_b g) x then PyInt 1 else PyInt 0)) /\
  (forall g,
     data g !! "prob_b" = Some [lit_0_1; PyFloat.half; lit_0_9] ->
     cut_prop_b g = PyFloat.half ->
     bquark (final select_bquark g) = [PyInt 0; PyInt 0; PyInt 1]).
Proof.
  split.
  - intros g scores Hcol. unfold outcome, final.
    rewrite (select_bquark_run g scores Hcol). cbn [fst snd bquark set_bquark].
    split; [reflexivity|]. split; [apply length_map|].
    intros i x Hx. rewrite list_lookup_fmap.
    exact (f_equal (fmap (spec_label (cut_prop_b g))) Hx).
  - intros g Hcol Hcut. unfold final.
    rewrite (select_bquark_run g _ Hcol), Hcut. reflexivity.
Qed.

Lemma select_bquark_thresholds_witness :
  let g := globals_scores [lit_0_1; PyFloat.half; lit_0_9] PyFloat.half in
  outcome select_bquark g = Ok tt /\
  length (bquark (final select_bquark g)) = 3%nat /\
  bquark (final select_bquark g) = [PyInt 0; PyInt 0; PyInt 1].
Proof.
  intros g.
  destruct (proj1 select_bquark_thresholds g [lit_0_1; PyFloat.half; lit_0_9] eq_refl)
    as (Hout & Hlen & _).
  split; [exact Hout|]. split; [exact Hlen|].
  apply (proj2 select_bquark_thresholds g); reflexivity.
Defined.

(** ** Purity

    The statements [evaluate] is made of neither write a global nor read
    one other than the column [data['isb']]; so neither does [evaluate]. *)

Lemma reads_only_isb_ret {A} (a : A) : reads_only_isb (ret a).
Proof. intros g. split; reflexivity. Qed.

Lemma reads_only_isb_lift {A} (r : result A) : reads_only_isb (lift r).
Proof. intros g. split; reflexivity. Qed.

Lemma reads_only_isb_getcol : reads_only_isb (getcol "isb").
Proof.
  intros g. unfold final, outcome, getcol. split.
  - destruct (data g !! "isb"); reflexivity.
  - intros g' ->. destruct (data g !! "isb"); reflexivity.
Qed.

(** Sequencing keeps the property. *)
Lemma reads_only_isb_bind {A B} (m : M A) (k : A -> M B) :
  reads_only_isb m -> (forall a, reads_only_isb (k a)) -> reads_only_isb (bind m k).
Proof.
  intros Hm Hk g. destruct (Hm g) as [Hf Ho].
  unfold final, outcome, bind in *.
  destruct (m g) as [[a | e] g1] eqn:E; cbn [fst snd] in Hf, Ho; subst g1.
  - split; [apply (Hk a g)|]. intros g' Hg'.
    specialize (Ho g' Hg'). destruct (Hm g') as [Hf' _]. unfold final in Hf'.
    destruct (m g') as [[a' | e'] g1']; cbn [fst snd] in Ho, Hf'; subst g1';
      [|discriminate].
    injection Ho as ->. now apply (Hk a g).
  - split; [reflexivity|]. intros g' Hg'.
    specialize (Ho g' Hg'). destruct (Hm g') as [Hf' _]. unfold final in Hf'.
    destruct (m g') as [[a' | e'] g1']; cbn [fst snd] in Ho, Hf'; subst g1';
      [discriminate|]. injection Ho as ->. reflexivity.
Qed.

(** So does a loop. *)
Lemma reads_only_isb_for_each {S} (body : nat -> S -> M S) idx :
  (forall i s, reads_only_isb (body i s)) ->
  forall s, reads_only_isb (for_each idx body s).
Proof.
  intros Hbody. induction idx as [|i idx IH]; intros s; cbn [for_each].
  - apply reads_only_isb_ret.
  - apply reads_only_isb_bind; [apply Hbody | exact IH].
Qed.

Create HintDb purity.
#[local] Hint Resolve reads_only_isb_ret reads_only_isb_lift reads_only_isb_getcol
  reads_only_isb_bind reads_only_isb_for_each : purity.

(** Peel the statements of a block off, one [bind] at a time. *)
Ltac pure_block :=
  repeat first
    [ apply reads_only_isb_bind; [solve [auto with purity] | intros ?]
    | solve [auto with purity] ].

Lemma reads_only_isb_test bquark i r c : reads_only_isb (test bquark i r c).
Proof.
  unfold test. apply reads_only_isb_bind; [auto with purity | intros b].
  destruct (eq_lit b r); pure_block.
Qed.

Lemma reads_only_isb_count_if bquark i r c N : reads_only_isb (count_if bquark i r c N).
Proof.
  unfold count_if. apply reads_only_isb_bind; [apply reads_only_isb_test | intros t].
  destruct t; auto with purity.
Qed.

#[local] Hint Resolve reads_only_isb_count_if : purity.

Lemma reads_only_isb_evaluate_body bquark i N : reads_only_isb (evaluate_body bquark i N).
Proof. unfold evaluate_body. pure_block. Qed.

#[local] Hint Resolve reads_only_isb_evaluate_body : purity.

(** [evaluate] is built from such statements only. *)
Lemma reads_only_isb_evaluate bquark : reads_only_isb (evaluate bquark).
Proof. unfold evaluate, for_range. pure_block. Qed.

(** C8. [evaluate] changes no global, and two runs on the same
    predictions in globals that agree on the column [data['isb']], and
    may differ in everything else, return the same result. *)
Theorem evaluate_is_pure (predicted : list scalar) (g g' : Globals) :
  data g' !! "isb" = data g !! "isb" ->
  final (evaluate predicted) g = g /\
  final (evaluate predicted) g' = g' /\
  outcome (evaluate predicted) g' = outcome (evaluate predicted) g.
Proof.
  intros H.
  destruct (reads_only_isb_evaluate predicted g) as [Hf Ho].
  destruct (reads_only_isb_evaluate predicted g') as [Hf' _].
  auto.
Qed.

Lemma evaluate_is_pure_witness :
  let g := globals_with [PyFloat.zero; PyFloat.one] in
  let g' := {| SavePlots := true;
               data := {[ "prob_b" := [lit_0_9]; "isb" := [PyFloat.zero; PyFloat.one] ]};
               cut_prop_b := PyFloat.half;
               bquark := [PyInt 1] |} in
  final (evaluate [PyInt 1; PyInt 1]) g = g /\
  final (evaluate [PyInt 1; PyInt 1]) g' = g' /\
  outcome (evaluate [PyInt 1; PyInt 1]) g' = outcome (evaluate [PyInt 1; PyInt 1]) g.
Proof.
  intros g g'. apply evaluate_is_pure. vm_compute. reflexivity.
Defined.

(** C9. One turn of the loop adds to each cell [(r, c)] one if
    [predicted[i] == r and actual[i] == c], and nothing otherwise: when
    both values are labels exactly one cell grows, by one, and when
    either is not a label no cell changes. So with a value outside
    [{0, 1}] the four counts can sum to less than [N]. *)
Theorem evaluate_body_one_cell_or_none :
  (forall g (bquark : list scalar) (isb : Series) i v d n00 n01 n10 n11,
     data g !! "isb" = Some isb -> bquark !! i = Some v -> isb !! i = Some d ->
     let hit r c := ind (in_cell r c v d) in
     evaluate_body bquark i (mat n00 n01 n10 n11) g =
       (Ok (mat (n00 + hit 0 0) (n01 + hit 0 1) (n10 + hit 1 0) (n11 + hit 1 1)), g) /\
     (is_label v = true -> is_flabel d = true ->
      hit 0 0 + hit 0 1 + hit 1 0 + hit 1 1 = 1) /\
     (is_label v = false \/ is_flabel d = false ->
      hit 0 0 = 0 /\ hit 0 1 = 0 /\ hit 1 0 = 0 /\ hit 1 1 = 0)) /\
  (exists g (bquark : list scalar) (isb : Series) N accuracy fracWrong,
     data g !! "isb" = Some isb /\ length bquark = length isb /\
     evaluate bquark g = (Ok (N, accuracy, fracWrong), g) /\
     total N < Z.of_nat (length isb)).
Proof.
  split.
  - intros g bquark isb i v d n00 n01 n10 n11 Hcol Hv Hd hit. subst hit. cbv beta.
    split; [now apply (evaluate_body_run g isb Hcol bquark i)|]. split.
    + apply in_cell_labels.
    + intros H. destruct (in_cell_not_labels v d H) as (-> & -> & -> & ->). auto.
  - exists (globals_with [PyFloat.zero; PyFloat.one]), [PyInt 2; PyInt 1],
      [PyFloat.zero; PyFloat.one], (mat 0 0 0 1), PyFloat.one, PyFloat.zero.
    repeat split.
Qed.

Lemma evaluate_body_one_cell_or_none_witness :
  let g := globals_with [PyFloat.zero; PyFloat.one] in
  evaluate_body [PyInt 2; PyInt 1] 1 (mat 0 0 0 0) g = (Ok (mat 0 0 0 1), g) /\
  evaluate_body [PyInt 2; PyInt 1] 0 (mat 0 0 0 0) g = (Ok (mat 0 0 0 0), g).
Proof.
  intros g. split.
  - apply (proj1 evaluate_body_one_cell_or_none g [PyInt 2; PyInt 1]
             [PyFloat.zero; PyFloat.one] 1%nat (PyInt 1) PyFloat.one 0 0 0 0);
      reflexivity.
  - apply (proj1 evaluate_body_one_cell_or_none g [PyInt 2; PyInt 1]
             [PyFloat.zero; PyFloat.one] 0%nat (PyInt 2) PyFloat.zero 0 0 0 0);
      reflexivity.
Defined.

(** * Further properties *)

(** ** What [evaluate] raises *)

(** The last three lines raise nothing but the two arithmetic errors. *)
Lemma report_raises n00 n01 n10 n11 n e :
  report n00 n01 n10 n11 n = Raise e -> e = OverflowError \/ e = ZeroDivisionError.
Proof.
  unfold report, float_of_int, truediv.
  repeat match goal with
         | |- context [if ?b then _ else _] => destruct b
         end; intros [= <-]; auto.
Qed.

Lemma wrong_count_bounds (predicted : list scalar) (actual : Series) :
  0 <= spec_count 0 1 predicted actual + spec_count 1 0 predicted actual
    <= Z.of_nat (length actual).
Proof.
  pose proof (spec_count_bounds 0 1 predicted actual).
  pose proof (spec_count_bounds 1 0 predicted actual).
  pose proof (spec_count_wrong predicted actual). lia.
Qed.

(** The outcome of [evaluate] on a table with the truth column. *)
Lemma evaluate_outcome g (predicted : list scalar) (actual : Series) :
  data g !! "isb" = Some actual ->
  outcome (evaluate predicted) g =
  if decide (length predicted < length actual)%nat then Raise IndexError
  else report (spec_count 0 0 predicted actual) (spec_count 0 1 predicted actual)
              (spec_count 1 0 predicted actual) (spec_count 1 1 predicted actual)
              (length actual).
Proof.
  intros Hcol. unfold outcome. destruct (decide _) as [Hlt | Hge].
  - now rewrite (evaluate_short g actual Hcol predicted Hlt).
  - now rewrite (evaluate_run g actual Hcol predicted) by lia.
Qed.

(** X1. [evaluate] raises [KeyError] exactly when the table has no
    column [isb], whatever the predictions are. *)
Theorem evaluate_key_error_iff g (predicted : list scalar) :
  outcome (evaluate predicted) g = Raise KeyError <-> data g !! "isb" = None.
Proof.
  split.
  - destruct (data g !! "isb") as [actual|] eqn:Hcol; [|reflexivity].
    rewrite (evaluate_outcome g predicted actual Hcol).
    destruct (decide _); [discriminate|].
    intros H. apply report_raises in H as [H | H]; discriminate.
  - intros Hcol. unfold outcome, evaluate, bind, getcol. now rewrite Hcol.
Qed.

(** X2. On a table with the column [isb], [evaluate] raises
    [IndexError] exactly when there are fewer predictions than rows. *)
Theorem evaluate_index_error_iff g (predicted : list scalar) (actual : Series) :
  data g !! "isb" = Some actual ->
  outcome (evaluate predicted) g = Raise IndexError <->
  (length predicted < length actual)%nat.
Proof.
  intros Hcol. rewrite (evaluate_outcome g predicted actual Hcol).
  destruct (decide _) as [Hlt | Hge]; split; try easy.
  intros H. apply report_raises in H as [H | H]; discriminate.
Qed.

Lemma evaluate_index_error_iff_witness :
  let g := globals_with [PyFloat.zero; PyFloat.one; PyFloat.one] in
  outcome (evaluate [PyInt 0; PyInt 1]) g = Raise IndexError <-> (2 < 3)%nat.
Proof.
  intros g.
  apply (evaluate_index_error_iff g [PyInt 0; PyInt 1] [PyFloat.zero; PyFloat.one; PyFloat.one]).
  reflexivity.
Defined.

(** X3. On a table whose column [isb] has no more rows than a sequence
    can hold, [evaluate] returns a report exactly when there is at least
    one row and a prediction for every row. *)
Theorem evaluate_returns_iff g (predicted : list scalar) (actual : Series) :
  data g !! "isb" = Some actual ->
  Z.of_nat (length actual) <= sys_maxsize ->
  (exists N accuracy fracWrong,
     outcome (evaluate predicted) g = Ok (N, accuracy, fracWrong)) <->
  (0 < length actual <= length predicted)%nat.
Proof.
  intros Hcol Hmax. rewrite (evaluate_outcome g predicted actual Hcol).
  pose proof (wrong_count_bounds predicted actual) as Hw.
  destruct (decide _) as [Hlt | Hge].
  - split; [intros (N & a & f & H); discriminate | lia].
  - destruct (Nat.eq_dec (length actual) 0%nat) as [H0 | Hpos].
    + rewrite H0 in *. rewrite report_empty by (simpl in Hw; lia).
      split; [intros (N & a & f & H); discriminate | lia].
    + rewrite report_ok by (try assumption; lia).
      split; [lia | eauto].
Qed.

Lemma evaluate_returns_iff_witness :
  let g := globals_with [PyFloat.zero; PyFloat.one] in
  (exists N accuracy fracWrong,
     outcome (evaluate [PyInt 0; PyInt 0; PyInt 1]) g = Ok (N, accuracy, fracWrong)) <->
  (0 < 2 <= 3)%nat.
Proof.
  intros g.
  apply (evaluate_returns_iff g [PyInt 0; PyInt 0; PyInt 1] [PyFloat.zero; PyFloat.one]).
  - reflexivity.
  - vm_compute. discriminate.
Defined.

(** ** The range of the two fractions *)

(** Two fractions over [n] with different numerators are more than
    [1/K] apart when [n < K]. *)
Lemma frac_step a b n K :
  a < b -> 0 < n < Z.pos K ->
  (inject_Z a / inject_Z n + (1 # K) < inject_Z b / inject_Z n)%Q.
Proof.
  intros Hab [Hn HK].
  assert (Hnq : (0 < inject_Z n)%Q).
  { change 0%Q with (inject_Z 0). rewrite <- Zlt_Qlt. assumption. }
  assert (Hn0 : ~ (inject_Z n == 0)%Q) by lra.
  assert (H1 : (inject_Z n * (1 # K) < 1)%Q).
  { unfold Qlt, Qmult, inject_Z. simpl. lia. }
  assert (H2 : (inject_Z a + 1 <= inject_Z b)%Q).
  { change 1%Q with (inject_Z 1). rewrite <- inject_Z_plus, <- Zle_Qle. lia. }
  apply Qlt_shift_div_l; [assumption|].
  assert (Heq : ((inject_Z a / inject_Z n + (1 # K)) * inject_Z n ==
                 inject_Z a + inject_Z n * (1 # K))%Q) by (field; assumption).
  rewrite Heq. lra.
Qed.

Lemma frac_zero n : (inject_Z 0 / inject_Z n == 0)%Q.
Proof. unfold Qdiv. change (inject_Z 0) with 0%Q. ring. Qed.

Lemma frac_one n : 0 < n -> (inject_Z n / inject_Z n == 1)%Q.
Proof.
  intros Hn. field. intros Hz. apply (inject_Z_injective n 0) in Hz. lia.
Qed.

(** [1.0 - x] for a float [0 < x < 1]: a float in the same interval. *)
Lemma complement_in_unit M E :
  -1022 <= E <= -52 -> Z.pos M < 2 ^ (- E) ->
  (0 < PyFloat.to_Q (PyFloat.sub PyFloat.one (S754_finite false M E)) <= 1)%Q.
Proof.
  intros HE Hlt. unfold PyFloat.sub, PyFloat.prec, PyFloat.emax.
  rewrite SFsub_one_rne by lia.
  set (z := 2 ^ (- E) - Z.pos M).
  assert (Hz : 0 < z) by (unfold z; lia).
  pose proof (Zdigits2_bounds z Hz) as [Hlo Hhi].
  pose proof (Zdigits2_pos z Hz) as Hdz.
  assert (Hdle : Zdigits2 z <= - E) by (apply Zdigits2_le; unfold z; lia).
  set (dz := Zdigits2 z) in *.
  set (j := Z.max 0 (53 - dz)). set (k := Z.max 0 (dz - 53)).
  assert (Hj : j = Z.max 0 (53 - dz)) by reflexivity.
  assert (Hk : k = Z.max 0 (dz - 53)) by reflexivity.
  clearbody j k.
  assert (Hpj : 0 < 2 ^ j) by (apply Z.pow_pos_nonneg; lia).
  assert (Hpk : 0 < 2 ^ k) by (apply Z.pow_pos_nonneg; lia).
  assert (HP : 0 < 2 ^ (- E)) by (apply Z.pow_pos_nonneg; lia).
  assert (Hrne : 1 <= rne (z * 2 ^ j) (2 ^ k)).
  { apply rne_ge; [assumption|]. rewrite Z.mul_1_l.
    apply Z.le_trans with (2 ^ (dz - 1)); [apply Z.pow_le_mono_r; lia | ].
    nia. }
  assert (Hup : rne (z * 2 ^ j) (2 ^ k) <= 2 ^ (- (E + dz - 53))).
  { apply rne_le; [assumption|].
    replace (2 ^ (- (E + dz - 53)) * 2 ^ k) with (2 ^ (- E) * 2 ^ j).
    - apply Z.mul_le_mono_nonneg_r; unfold z; lia.
    - rewrite <- !Z.pow_add_r by lia. f_equal. lia. }
  set (R := rne (z * 2 ^ j) (2 ^ k)) in *.
  rewrite to_Q_mk_float by lia.
  rewrite pow2_neg_Q by lia.
  set (P := 2 ^ (- (E + dz - 53))) in *.
  assert (HPpos : 0 < P) by (apply Z.pow_pos_nonneg; lia).
  assert (HPq : (0 < inject_Z P)%Q).
  { change 0%Q with (inject_Z 0). rewrite <- Zlt_Qlt. assumption. }
  assert (HRq : (0 < inject_Z R)%Q).
  { change 0%Q with (inject_Z 0). rewrite <- Zlt_Qlt. lia. }
  assert (HRP : (inject_Z R <= inject_Z P)%Q) by (rewrite <- Zle_Qle; assumption).
  change (inject_Z R * / inject_Z P)%Q with (inject_Z R / inject_Z P)%Q.
  split.
  - apply Qlt_shift_div_l; [assumption|]. lra.
  - apply Qle_shift_div_r; [assumption|]. lra.
Qed.

(** A float [M * 2^E] with [M < 2^(-E)] lies strictly between 0 and 1. *)
Lemma fraction_in_unit M E :
  E <= 0 -> Z.pos M < 2 ^ (- E) ->
  (0 < PyFloat.to_Q (S754_finite false M E) < 1)%Q.
Proof.
  intros HE Hlt. simpl PyFloat.to_Q. rewrite pow2_neg_Q by lia.
  set (P := 2 ^ (- E)) in *.
  assert (HPq : (0 < inject_Z P)%Q).
  { change 0%Q with (inject_Z 0). rewrite <- Zlt_Qlt. lia. }
  assert (HMq : (0 < inject_Z (Z.pos M))%Q) by reflexivity.
  assert (HMP : (inject_Z (Z.pos M) < inject_Z P)%Q) by (rewrite <- Zlt_Qlt; assumption).
  change (inject_Z (Z.pos M) * / inject_Z P)%Q with (inject_Z (Z.pos M) / inject_Z P)%Q.
  split.
  - apply Qlt_shift_div_l; [assumption|]. lra.
  - apply Qlt_shift_div_r; [assumption|]. lra.
Qed.

(** The two fractions computed from [w] wrong rows out of [n]. *)
Lemma fractions_shape w n :
  0 <= w <= n -> 0 < n < exact_int_bound ->
  let fracWrong := PyFloat.div (PyFloat.of_Z w) (PyFloat.of_Z n) in
  let accuracy := PyFloat.sub PyFloat.one fracWrong in
  (w = 0 /\ fracWrong = PyFloat.zero /\ accuracy = PyFloat.one) \/
  (w = n /\ fracWrong = PyFloat.one /\ accuracy = PyFloat.zero) \/
  (0 < w < n /\
   exists M E A EA,
     fracWrong = S754_finite false M E /\ accuracy = S754_finite false A EA /\
     -1022 <= E <= -53 /\ Z.pos M < 2 ^ (- E)).
Proof.
  intros Hw Hn fracWrong accuracy. unfold exact_int_bound in Hn.
  destruct (of_Z_finite n) as (m & e & Hfn).
  { split; [lia|]. apply Z.lt_trans with (2 ^ 53); [lia|]. apply Z.pow_lt_mono_r; lia. }
  destruct (Z.eq_dec w 0) as [-> | Hw0]; [|destruct (Z.eq_dec w n) as [-> | Hwn]].
  - left. split; [reflexivity|].
    assert (Hf : fracWrong = PyFloat.zero) by (unfold fracWrong; rewrite Hfn; reflexivity).
    split; [exact Hf|]. unfold accuracy. rewrite Hf. reflexivity.
  - right. left. split; [reflexivity|].
    assert (Hf : fracWrong = PyFloat.one).
    { unfold fracWrong, PyFloat.div, PyFloat.prec, PyFloat.emax. rewrite Hfn. apply SFdiv_same. }
    split; [exact Hf|]. unfold accuracy. rewrite Hf. reflexivity.
  - right. right. split; [lia|].
    destruct (quotient_rounding w n ltac:(lia) ltac:(lia)) as (M & E & Hf & HE & HM & _).
    destruct (complement_rounding M E ltac:(lia) HM) as (A & EA & HA & _).
    exists M, E, A, EA. unfold accuracy, fracWrong. rewrite Hf. auto.
Qed.

(** What a returned report is made of. *)
Lemma evaluate_returned g (predicted : list scalar) (actual : Series) N accuracy fracWrong :
  data g !! "isb" = Some actual ->
  Z.of_nat (length actual) <= sys_maxsize ->
  outcome (evaluate predicted) g = Ok (N, accuracy, fracWrong) ->
  (0 < length actual <= length predicted)%nat /\
  N = mat (spec_count 0 0 predicted actual) (spec_count 0 1 predicted actual)
          (spec_count 1 0 predicted actual) (spec_count 1 1 predicted actual) /\
  fracWrong = PyFloat.div
                (PyFloat.of_Z (spec_count 0 1 predicted actual + spec_count 1 0 predicted actual))
                (PyFloat.of_Z (Z.of_nat (length actual))) /\
  accuracy = PyFloat.sub PyFloat.one fracWrong.
Proof.
  intros Hcol Hmax. rewrite (evaluate_outcome g predicted actual Hcol).
  pose proof (wrong_count_bounds predicted actual) as Hw.
  destruct (decide _) as [Hlt | Hge]; [discriminate|].
  destruct (Nat.eq_dec (length actual) 0%nat) as [H0 | Hpos].
  - rewrite H0 in *. rewrite report_empty by (simpl in Hw; lia). discriminate.
  - rewrite report_ok by (try assumption; lia).
    intros [= <- <- <-]. split; [lia|]. auto.
Qed.

Lemma exact_below_maxsize n : n < exact_int_bound -> n <= sys_maxsize.
Proof.
  unfold exact_int_bound, sys_maxsize. intros H.
  apply Z.le_trans with (2 ^ 53); [lia|]. simpl. lia.
Qed.

(** X5. With fewer than [2^53] rows, the fraction wrong and the
    accuracy of a returned report are finite floats between 0 and 1. *)
Theorem evaluate_fractions_in_unit_interval
    g (predicted : list scalar) (actual : Series) N accuracy fracWrong :
  data g !! "isb" = Some actual ->
  Z.of_nat (length actual) < exact_int_bound ->
  outcome (evaluate predicted) g = Ok (N, accuracy, fracWrong) ->
  is_finite fracWrong = true /\ is_finite accuracy = true /\
  (0 <= PyFloat.to_Q fracWrong <= 1)%Q /\ (0 <= PyFloat.to_Q accuracy <= 1)%Q.
Proof.
  intros Hcol Hmax Hout.
  apply (evaluate_returned g predicted actual) in Hout
    as (Hlen & _ & -> & ->); [|assumption|now apply exact_below_maxsize].
  pose proof (wrong_count_bounds predicted actual) as Hw.
  destruct (fractions_shape _ (Z.of_nat (length actual)) Hw ltac:(lia))
    as [(_ & -> & ->) | [(_ & -> & ->) | (_ & M & E & A & EA & Hf & Ha & HE & HM)]].
  - repeat split; discriminate.
  - repeat split; discriminate.
  - pose proof (complement_in_unit M E ltac:(lia) HM) as Hc.
    pose proof (fraction_in_unit M E ltac:(lia) HM) as Hq.
    rewrite <- Hf in Hc, Hq.
    split; [now rewrite Hf|]. split; [now rewrite Ha|].
    split; split; lra.
Qed.

Lemma evaluate_fractions_in_unit_interval_witness :
  let g := globals_with [PyFloat.zero; PyFloat.zero; PyFloat.zero] in
  let accuracy := S754_finite false 6004799503160662 (-53) in
  let fracWrong := S754_finite false 6004799503160661 (-54) in
  is_finite fracWrong = true /\ is_finite accuracy = true /\
  (0 <= PyFloat.to_Q fracWrong <= 1)%Q /\ (0 <= PyFloat.to_Q accuracy <= 1)%Q.
Proof.
  intros g accuracy fracWrong.
  apply (evaluate_fractions_in_unit_interval g [PyInt 1; PyInt 0; PyInt 0]
           [PyFloat.zero; PyFloat.zero; PyFloat.zero] (mat 2 0 1 0)).
  - reflexivity.
  - vm_compute. reflexivity.
  - vm_compute. reflexivity.
Defined.

(** A float strictly between 0 and 1 compares equal neither to 0 nor
    to 1. *)
Lemma feq_lit_inside x :
  (0 < PyFloat.to_Q x < 1)%Q -> feq_lit x 0 = false /\ feq_lit x 1 = false.
Proof.
  intros [H0 H1]. split.
  - destruct (feq_lit x 0) eqn:Hx; [|reflexivity].
    apply feq_lit_0 in Hx as [s ->]. simpl in H0. lra.
  - destruct (feq_lit x 1) eqn:Hx; [|reflexivity].
    apply feq_lit_1 in Hx. subst x. rewrite to_Q_one in H1. lra.
Qed.

(** X6. With fewer than [2^53] rows, [accuracy == 1] and
    [fracWrong == 0] hold exactly when no row is counted wrong, and
    [accuracy == 0] and [fracWrong == 1] exactly when every row is. *)
Theorem evaluate_accuracy_extremes
    g (predicted : list scalar) (actual : Series) n00 n01 n10 n11 accuracy fracWrong :
  data g !! "isb" = Some actual ->
  Z.of_nat (length actual) < exact_int_bound ->
  outcome (evaluate predicted) g = Ok (mat n00 n01 n10 n11, accuracy, fracWrong) ->
  (feq_lit accuracy 1 = true <-> n01 + n10 = 0) /\
  (feq_lit fracWrong 0 = true <-> n01 + n10 = 0) /\
  (feq_lit accuracy 0 = true <-> n01 + n10 = Z.of_nat (length actual)) /\
  (feq_lit fracWrong 1 = true <-> n01 + n10 = Z.of_nat (length actual)).
Proof.
  intros Hcol Hmax Hout.
  apply (evaluate_returned g predicted actual) in Hout
    as (Hlen & HN & -> & ->); [|assumption|now apply exact_below_maxsize].
  injection HN as -> -> -> ->.
  pose proof (wrong_count_bounds predicted actual) as Hw.
  set (w := spec_count 0 1 predicted actual + spec_count 1 0 predicted actual) in *.
  set (n := Z.of_nat (length actual)) in *.
  assert (Hn : 0 < n < exact_int_bound) by lia.
  destruct (fractions_shape w n Hw Hn)
    as [(Hw0 & -> & ->) | [(Hwn & -> & ->) | (Hin & M & E & A & EA & Hf & Ha & HE & HM)]].
  - repeat split; intros; try reflexivity; try assumption; try discriminate; lia.
  - repeat split; intros; try reflexivity; try assumption; try discriminate; lia.
  - destruct (fraction_and_accuracy_errors w n Hw Hn) as [He1 He2].
    cbv zeta in He1, He2.
    unfold exact_int_bound in Hn.
    pose proof (frac_step 0 w n (2 ^ 53) ltac:(lia) ltac:(simpl; lia)) as Hlo.
    pose proof (frac_step w n n (2 ^ 53) ltac:(lia) ltac:(simpl; lia)) as Hhi.
    rewrite frac_zero in Hlo. rewrite frac_one in Hhi by lia.
    pose proof (complement_in_unit M E ltac:(lia) HM) as Hc.
    pose proof (fraction_in_unit M E ltac:(lia) HM) as Hq.
    rewrite <- Hf in Hc, Hq.
    set (fw := PyFloat.div (PyFloat.of_Z w) (PyFloat.of_Z n)) in *.
    set (x := (inject_Z w / inject_Z n)%Q) in *.
    apply Qabs_Qle_condition in He1, He2.
    assert (Heps : (1 # 2 ^ 53 == (1 # 2 ^ 54) + (1 # 2 ^ 54))%Q) by reflexivity.
    rewrite Heps in Hlo, Hhi.
    set (eps := (1 # 2 ^ 54)%Q) in *.
    assert (Hacc : (0 < PyFloat.to_Q (PyFloat.sub PyFloat.one fw) < 1)%Q) by (split; lra).
    destruct (feq_lit_inside _ Hacc) as [-> ->].
    destruct (feq_lit_inside _ Hq) as [-> ->].
    repeat split; intros; try discriminate; lia.
Qed.

Lemma evaluate_accuracy_extremes_witness :
  let g := globals_with [PyFloat.zero; PyFloat.zero; PyFloat.zero] in
  let accuracy := S754_finite false 6004799503160662 (-53) in
  let fracWrong := S754_finite false 6004799503160661 (-54) in
  (feq_lit accuracy 1 = true <-> 0 + 1 = 0) /\
  (feq_lit fracWrong 0 = true <-> 0 + 1 = 0) /\
  (feq_lit accuracy 0 = true <-> 0 + 1 = Z.of_nat 3) /\
  (feq_lit fracWrong 1 = true <-> 0 + 1 = Z.of_nat 3).
Proof.
  intros g accuracy fracWrong.
  apply (evaluate_accuracy_extremes g [PyInt 1; PyInt 0; PyInt 0]
           [PyFloat.zero; PyFloat.zero; PyFloat.zero] 2 0 1 0).
  - reflexivity.
  - vm_compute. reflexivity.
  - vm_compute. reflexivity.
Defined.

(** X7. With fewer than [2^52] rows, of two predictions evaluated on
    the same table the one with fewer rows counted wrong gets the
    strictly smaller fraction wrong and the strictly greater accuracy:
    rounding never hides a difference of one row. *)
Theorem evaluate_fewer_errors_scores_better
    g (p1 p2 : list scalar) (actual : Series) a1 b1 c1 d1 acc1 fw1 a2 b2 c2 d2 acc2 fw2 :
  data g !! "isb" = Some actual ->
  Z.of_nat (length actual) < 2 ^ 52 ->
  outcome (evaluate p1) g = Ok (mat a1 b1 c1 d1, acc1, fw1) ->
  outcome (evaluate p2) g = Ok (mat a2 b2 c2 d2, acc2, fw2) ->
  b1 + c1 < b2 + c2 ->
  (PyFloat.to_Q fw1 < PyFloat.to_Q fw2)%Q /\ (PyFloat.to_Q acc2 < PyFloat.to_Q acc1)%Q.
Proof.
  intros Hcol Hmax Hout1 Hout2.
  assert (Hmax' : Z.of_nat (length actual) < exact_int_bound).
  { unfold exact_int_bound. apply Z.lt_trans with (2 ^ 52); [assumption | reflexivity]. }
  apply (evaluate_returned g p1 actual) in Hout1
    as (Hlen1 & HN1 & -> & ->); [|assumption|now apply exact_below_maxsize].
  apply (evaluate_returned g p2 actual) in Hout2
    as (Hlen2 & HN2 & -> & ->); [|assumption|now apply exact_below_maxsize].
  injection HN1 as -> -> -> ->. injection HN2 as -> -> -> ->.
  pose proof (wrong_count_bounds p1 actual) as Hw1.
  pose proof (wrong_count_bounds p2 actual) as Hw2.
  set (w1 := spec_count 0 1 p1 actual + spec_count 1 0 p1 actual) in *.
  set (w2 := spec_count 0 1 p2 actual + spec_count 1 0 p2 actual) in *.
  set (n := Z.of_nat (length actual)) in *.
  intros Hlt.
  assert (Hn : 0 < n < exact_int_bound) by lia.
  destruct (fraction_and_accuracy_errors w1 n Hw1 Hn) as [He1 He1'].
  destruct (fraction_and_accuracy_errors w2 n Hw2 Hn) as [He2 He2'].
  cbv zeta in He1, He1', He2, He2'.
  pose proof (frac_step w1 w2 n (2 ^ 52) Hlt ltac:(simpl; lia)) as Hgap.
  set (f1 := PyFloat.div (PyFloat.of_Z w1) (PyFloat.of_Z n)) in *.
  set (f2 := PyFloat.div (PyFloat.of_Z w2) (PyFloat.of_Z n)) in *.
  set (x1 := (inject_Z w1 / inject_Z n)%Q) in *.
  set (x2 := (inject_Z w2 / inject_Z n)%Q) in *.
  apply Qabs_Qle_condition in He1, He1', He2, He2'.
  assert (Heps : (1 # 2 ^ 52 == (1 # 2 ^ 54) + (1 # 2 ^ 54) + (1 # 2 ^ 54) + (1 # 2 ^ 54))%Q)
    by reflexivity.
  rewrite Heps in Hgap.
  set (eps := (1 # 2 ^ 54)%Q) in *.
  split; lra.
Qed.

Lemma evaluate_fewer_errors_scores_better_witness :
  let g := globals_with [PyFloat.zero; PyFloat.zero; PyFloat.zero] in
  (PyFloat.to_Q (S754_finite false 6004799503160661 (-54))
   < PyFloat.to_Q (S754_finite false 6004799503160661 (-53)))%Q /\
  (PyFloat.to_Q (S754_finite false 6004799503160662 (-54))
   < PyFloat.to_Q (S754_finite false 6004799503160662 (-53)))%Q.
Proof.
  intros g.
  apply (evaluate_fewer_errors_scores_better g [PyInt 1; PyInt 0; PyInt 0]
           [PyInt 1; PyInt 0; PyInt 1] [PyFloat.zero; PyFloat.zero; PyFloat.zero]
           2 0 1 0 _ _ 1 0 2 0).
  - reflexivity.
  - vm_compute. reflexivity.
  - vm_compute. reflexivity.
  - vm_compute. reflexivity.
  - lia.
Defined.


Lemma spec_count_labelled (predicted : list scalar) (actual : Series) :
  spec_count 0 0 predicted actual + spec_count 0 1 predicted actual +
  spec_count 1 0 predicted actual + spec_count 1 1 predicted actual =
  Z.of_nat (length (filter (fun vd => labelled vd.1 vd.2 = true) (zip predicted actual))).
Proof.
  revert actual. induction predicted as [|v predicted IH]; intros [|d actual];
    try reflexivity.
  cbn [spec_count zip zip_with]. rewrite filter_cons. cbn [fst snd].
  specialize (IH actual).
  destruct (decide (labelled v d = true)) as [Hl | Hl].
  - unfold labelled in Hl. apply andb_true_iff in Hl as [Hv Hd].
    pose proof (in_cell_labels v d Hv Hd). cbn [length]. lia.
  - apply not_true_is_false in Hl. unfold labelled in Hl. apply andb_false_iff in Hl.
    destruct (in_cell_not_labels v d Hl) as (-> & -> & -> & ->). cbn [ind]. lia.
Qed.

(** X4. Whatever values the two sequences hold, no count of a returned
    matrix is negative, and the four counts sum to the number of rows
    where both the prediction and the truth compare equal to 0 or to 1;
    the sum never exceeds the number of rows. *)
Theorem evaluate_counts_labelled_rows
    g (predicted : list scalar) (actual : Series) N accuracy fracWrong :
  data g !! "isb" = Some actual ->
  Z.of_nat (length actual) <= sys_maxsize ->
  outcome (evaluate predicted) g = Ok (N, accuracy, fracWrong) ->
  total N = Z.of_nat (length (filter (fun vd => labelled vd.1 vd.2 = true)
                                     (zip predicted actual))) /\
  Forall (Forall (fun n => 0 <= n)) N /\
  total N <= Z.of_nat (length actual).
Proof.
  intros Hcol Hmax Hout.
  apply (evaluate_returned g predicted actual) in Hout
    as (Hlen & -> & _ & _); [|assumption|assumption].
  assert (Ht : total (mat (spec_count 0 0 predicted actual) (spec_count 0 1 predicted actual)
                          (spec_count 1 0 predicted actual) (spec_count 1 1 predicted actual)) =
               Z.of_nat (length (filter (fun vd => labelled vd.1 vd.2 = true)
                                        (zip predicted actual)))).
  { rewrite <- spec_count_labelled. unfold total, mat. simpl. lia. }
  split; [exact Ht|]. split.
  - pose proof (spec_count_bounds 0 0 predicted actual).
    pose proof (spec_count_bounds 0 1 predicted actual).
    pose proof (spec_count_bounds 1 0 predicted actual).
    pose proof (spec_count_bounds 1 1 predicted actual).
    unfold mat. repeat constructor; lia.
  - rewrite Ht. apply Nat2Z.inj_le.
    etransitivity; [apply length_filter|].
    rewrite length_zip_with. lia.
Qed.

Lemma evaluate_counts_labelled_rows_witness :
  let g := globals_with [PyFloat.zero; nan; PyFloat.one] in
  total (mat 0 0 1 0) = 1 /\
  Forall (Forall (fun n => 0 <= n)) (mat 0 0 1 0) /\
  total (mat 0 0 1 0) <= 3.
Proof.
  intros g.
  apply (evaluate_counts_labelled_rows g [PyInt 1; PyInt 1; PyInt 2]
           [PyFloat.zero; nan; PyFloat.one] (mat 0 0 1 0)
           (S754_finite false 6004799503160662 (-53))
           (S754_finite false 6004799503160661 (-54))).
  - reflexivity.
  - vm_compute. discriminate.
  - vm_compute. reflexivity.
Defined.

(** ** Predictions that are no labels *)

Lemma spec_count_unlabelled r c (predicted : list scalar) (actual : Series) :
  (r = 0 \/ r = 1) ->
  Forall (fun v => is_label v = false) predicted ->
  spec_count r c predicted actual = 0.
Proof.
  intros Hr Hp. revert actual.
  induction Hp as [|v predicted Hv _ IH]; intros [|d actual]; try reflexivity.
  cbn [spec_count]. rewrite IH. unfold in_cell.
  unfold is_label in Hv. apply orb_false_iff in Hv as [H0 H1].
  destruct Hr as [-> | ->]; [rewrite H0 | rewrite H1]; reflexivity.
Qed.

(** X8. When no prediction compares equal to 0 or to 1, [evaluate]
    returns the zero matrix, the fraction wrong [0.0] and the accuracy
    [1.0]: a row it cannot place in the matrix counts as right. *)
Theorem evaluate_unlabelled_predictions g (predicted : list scalar) (actual : Series) :
  data g !! "isb" = Some actual ->
  (0 < length actual <= length predicted)%nat ->
  Z.of_nat (length actual) <= sys_maxsize ->
  Forall (fun v => is_label v = false) predicted ->
  evaluate predicted g = (Ok (mat 0 0 0 0, PyFloat.one, PyFloat.zero), g).
Proof.
  intros Hcol Hlen Hmax Hp.
  rewrite (evaluate_run g actual Hcol predicted) by lia.
  rewrite !spec_count_unlabelled by auto.
  rewrite report_ok by lia. simpl (0 + 0).
  destruct (float_of_int_pos (Z.of_nat (length actual)) ltac:(lia)) as (m & e & -> & _).
  reflexivity.
Qed.

Lemma evaluate_unlabelled_predictions_witness :
  let g := globals_with [PyFloat.zero; PyFloat.one] in
  evaluate [PyInt 2; PyFloat PyFloat.half; PyInt (-1)] g =
  (Ok (mat 0 0 0 0, PyFloat.one, PyFloat.zero), g).
Proof.
  intros g.
  apply (evaluate_unlabelled_predictions g [PyInt 2; PyFloat PyFloat.half; PyInt (-1)]
           [PyFloat.zero; PyFloat.one]).
  - reflexivity.
  - simpl. lia.
  - vm_compute. discriminate.
  - repeat constructor.
Defined.

(** ** The selection cell: errors and labels *)

Lemma selection_cell_raises g :
  data g !! "prob_b" = None ->
  selection_cell g = (Raise KeyError, set_bquark [] (set_cut_prop_b lit_0_15 g)).
Proof.
  intros Hcol. unfold selection_cell, select_bquark, bind, write, getcol.
  cbn [data set_bquark set_cut_prop_b]. now rewrite Hcol.
Qed.

(** X9. Without a column [prob_b] the selection cell raises
    [KeyError], after it has set the cut to [0.15] and emptied
    [bquark]. *)
Theorem selection_cell_missing_column g :
  data g !! "prob_b" = None ->
  outcome selection_cell g = Raise KeyError /\
  bquark (final selection_cell g) = [] /\
  cut_prop_b (final selection_cell g) = lit_0_15.
Proof.
  intros Hcol. unfold outcome, final. rewrite (selection_cell_raises g Hcol). auto.
Qed.

Lemma selection_cell_missing_column_witness :
  let g := globals_with [PyFloat.zero; PyFloat.one] in
  outcome selection_cell g = Raise KeyError /\
  bquark (final selection_cell g) = [] /\
  cut_prop_b (final selection_cell g) = lit_0_15.
Proof.
  intros g. apply (selection_cell_missing_column g). reflexivity.
Defined.

Lemma ltb_nan x : PyFloat.ltb x nan = false.
Proof. destruct x; reflexivity. Qed.

Lemma spec_label_binary cut x : is_label (spec_label cut x) = true.
Proof. unfold spec_label. destruct (PyFloat.ltb cut x); reflexivity. Qed.

Lemma binary_labels cut (scores : Series) : binary (map (spec_label cut) scores).
Proof.
  unfold binary. apply Forall_forall. intros v Hv.
  apply list_elem_of_fmap in Hv as (x & -> & _). apply spec_label_binary.
Qed.

(** X10. The selection cell leaves only the labels 0 and 1 in
    [bquark], and the label 0 at every row whose score is NaN. *)
Theorem selection_cell_labels_are_binary g (scores : Series) :
  data g !! "prob_b" = Some scores ->
  binary (bquark (final selection_cell g)) /\
  forall i, scores !! i = Some nan -> bquark (final selection_cell g) !! i = Some (PyInt 0).
Proof.
  intros Hcol. unfold final. rewrite (selection_cell_run g scores Hcol).
  cbn [snd bquark set_bquark]. split; [apply binary_labels|].
  intros i Hi. rewrite list_lookup_fmap.
  rewrite (f_equal (fmap (spec_label lit_0_15)) Hi). reflexivity.
Qed.

Lemma selection_cell_labels_are_binary_witness :
  let g := globals_scores [lit_0_9; nan] PyFloat.half in
  binary (bquark (final selection_cell g)) /\
  forall i, [lit_0_9; nan] !! i = Some nan ->
            bquark (final selection_cell g) !! i = Some (PyInt 0).
Proof.
  intros g. apply (selection_cell_labels_are_binary g [lit_0_9; nan]). reflexivity.
Defined.

(** X11. Running the selection cell a second time changes nothing:
    the list is rebuilt, not extended. *)
Theorem selection_cell_idempotent g :
  final selection_cell (final selection_cell g) = final selection_cell g /\
  outcome selection_cell (final selection_cell g) = outcome selection_cell g.
Proof.
  unfold final, outcome.
  destruct (data g !! "prob_b") as [scores|] eqn:Hcol.
  - rewrite (selection_cell_run g scores Hcol). cbn [fst snd].
    rewrite (selection_cell_run _ scores) by exact Hcol. auto.
  - rewrite (selection_cell_raises g Hcol). cbn [fst snd].
    rewrite selection_cell_raises by exact Hcol. auto.
Qed.

(** ** The two evaluation cells *)

(** The loop over [data['nnbjet']]. *)
Lemma select_nnbjet_loop (scores : Series) :
  forall n k g,
    data g !! "nnbjet" = Some scores -> (k + n <= length scores)%nat ->
    for_each (seq k n) (fun i (_ : unit) =>
      col <- getcol "nnbjet" ;;
      x <- lift (series_getitem col i) ;;
      if PyFloat.ltb lit_0_82 x then bquark_append (PyInt 1)
      else bquark_append (PyInt 0)) tt g =
    (Ok tt, set_bquark (bquark g ++ map (spec_label lit_0_82) (take n (drop k scores))) g).
Proof.
  induction n as [|n IH]; intros k g Hcol Hk.
  - simpl. unfold ret. rewrite app_nil_r. destruct g; reflexivity.
  - destruct (lookup_lt_is_Some_2 scores k ltac:(lia)) as [x Hx].
    cbn [seq for_each].
    set (g1 := set_bquark (bquark g ++ [spec_label lit_0_82 x]) g).
    rewrite (bind_run _ _ g tt g1).
    + rewrite IH by (try assumption; lia).
      rewrite (drop_S scores x k Hx). cbn [take map].
      unfold g1. cbn [bquark set_bquark]. rewrite <- app_assoc. reflexivity.
    + rewrite (bind_run _ _ g scores g) by now apply getcol_run.
      cbv beta.
      rewrite (bind_run _ _ g x g) by (unfold lift; now rewrite (series_getitem_run scores k x Hx)).
      unfold g1, spec_label. destruct (PyFloat.ltb lit_0_82 x); reflexivity.
Qed.

Lemma select_nnbjet_run g (scores : Series) :
  data g !! "nnbjet" = Some scores ->
  select_nnbjet g = (Ok tt, set_bquark (map (spec_label lit_0_82) scores) g).
Proof.
  intros Hcol. unfold select_nnbjet.
  rewrite (bind_run _ _ g tt (set_bquark [] g)) by reflexivity.
  rewrite (bind_run _ _ (set_bquark [] g) scores (set_bquark [] g)) by now apply getcol_run.
  cbv beta. unfold for_range. rewrite (select_nnbjet_loop scores) by (try assumption; simpl; lia).
  rewrite drop_0, firstn_all. reflexivity.
Qed.

Lemma select_nnbjet_raises g :
  data g !! "nnbjet" = None -> select_nnbjet g = (Raise KeyError, set_bquark [] g).
Proof.
  intros Hcol. unfold select_nnbjet, bind, write, getcol.
  cbn [data set_bquark]. now rewrite Hcol.
Qed.

(** The evaluation cell: it prints what [evaluate] returns on the
    global [bquark], and raises what it raises. *)
Lemma evaluate_and_print_run g :
  evaluate_and_print g =
  (match outcome (evaluate (bquark g)) g with
   | Ok (N, accuracy, fracWrong) =>
       match cell N 0 0, cell N 0 1, cell N 1 0, cell N 1 1 with
       | Ok n00, Ok n01, Ok n10, Ok n11 => Ok (n00, n01, n10, n11, fracWrong, accuracy)
       | Raise e, _, _, _ | Ok _, Raise e, _, _
       | Ok _, Ok _, Raise e, _ | Ok _, Ok _, Ok _, Raise e => Raise e
       end
   | Raise e => Raise e
   end, g).
Proof.
  destruct (reads_only_isb_evaluate (bquark g) g) as [Hfin _].
  unfold evaluate_and_print, outcome, final in *.
  rewrite (bind_run _ _ g (bquark g) g) by reflexivity.
  unfold bind at 1. destruct (evaluate (bquark g) g) as [[[[N a] f]|e] g'] eqn:He;
    cbn [fst snd] in *; subst g'; [|reflexivity].
  unfold bind, lift, ret.
  destruct (cell N 0 0), (cell N 0 1), (cell N 1 0), (cell N 1 1); reflexivity.
Qed.

Lemma evaluate_and_print_ok g (actual : Series) :
  data g !! "isb" = Some actual ->
  (0 < length actual <= length (bquark g))%nat ->
  Z.of_nat (length actual) <= sys_maxsize ->
  evaluate_and_print g =
  (Ok (spec_count 0 0 (bquark g) actual, spec_count 0 1 (bquark g) actual,
       spec_count 1 0 (bquark g) actual, spec_count 1 1 (bquark g) actual,
       PyFloat.div (PyFloat.of_Z (spec_count 0 1 (bquark g) actual +
                                  spec_count 1 0 (bquark g) actual))
                   (PyFloat.of_Z (Z.of_nat (length actual))),
       PyFloat.sub PyFloat.one
         (PyFloat.div (PyFloat.of_Z (spec_count 0 1 (bquark g) actual +
                                     spec_count 1 0 (bquark g) actual))
                      (PyFloat.of_Z (Z.of_nat (length actual))))), g).
Proof.
  intros Hcol Hlen Hmax. rewrite evaluate_and_print_run.
  rewrite (evaluate_outcome g (bquark g) actual Hcol).
  rewrite decide_False by lia.
  rewrite report_ok by (try apply wrong_count_bounds; try assumption; lia).
  reflexivity.
Qed.

(** X12. The selection cell followed by the evaluation cell, on a
    table with [N > 0] rows: nothing is raised, the four counts printed
    are those of the labels [prob_b > 0.15] against [isb], the fractions
    are computed from them, and the counts sum to [N] when [isb] is
    binary. *)
Theorem human_attempt_reports g (scores actual : Series) :
  data g !! "prob_b" = Some scores -> data g !! "isb" = Some actual ->
  length scores = length actual ->
  (0 < length actual)%nat -> Z.of_nat (length actual) <= sys_maxsize ->
  let predicted := map (spec_label lit_0_15) scores in
  let count r c := spec_count r c predicted actual in
  let fracWrong := PyFloat.div (PyFloat.of_Z (count 0 1 + count 1 0))
                               (PyFloat.of_Z (Z.of_nat (length actual))) in
  human_attempt g =
    (Ok (count 0 0, count 0 1, count 1 0, count 1 1,
         fracWrong, PyFloat.sub PyFloat.one fracWrong),
     set_bquark predicted (set_cut_prop_b lit_0_15 g)) /\
  (binary_col actual ->
   count 0 0 + count 0 1 + count 1 0 + count 1 1 = Z.of_nat (length actual)).
Proof.
  intros Hs Ha Hlen Hpos Hmax predicted count fracWrong.
  subst fracWrong count. cbv beta. split.
  - unfold human_attempt.
    rewrite (bind_run _ _ _ _ _ (selection_cell_run g scores Hs)).
    rewrite (evaluate_and_print_ok _ actual); try assumption.
    + reflexivity.
    + cbn [bquark set_bquark]. rewrite length_map. lia.
  - intros Hb. apply spec_count_binary_total; [|apply binary_labels|assumption].
    unfold predicted. rewrite length_map. assumption.
Qed.

Lemma human_attempt_reports_witness :
  let g := globals_table [("prob_b", [lit_0_1; lit_0_9; PyFloat.half]);
                          ("isb", [PyFloat.zero; PyFloat.one; PyFloat.zero])] in
  human_attempt g =
    (Ok (1, 0, 1, 1, S754_finite false 6004799503160661 (-54),
         S754_finite false 6004799503160662 (-53)),
     set_bquark [PyInt 0; PyInt 1; PyInt 1] (set_cut_prop_b lit_0_15 g)) /\
  (binary_col [PyFloat.zero; PyFloat.one; PyFloat.zero] -> 1 + 0 + 1 + 1 = Z.of_nat 3).
Proof.
  intros g.
  apply (human_attempt_reports g [lit_0_1; lit_0_9; PyFloat.half]
           [PyFloat.zero; PyFloat.one; PyFloat.zero]).
  - reflexivity.
  - reflexivity.
  - reflexivity.
  - simpl. lia.
  - vm_compute. discriminate.
Defined.

(** X13. The benchmark cell, on a table with [N > 0] rows: nothing is
    raised, the four counts printed are those of the labels
    [nnbjet > 0.82] against [isb], whatever [bquark] held before, and
    they sum to [N] when [isb] is binary. *)
Theorem aleph_tag_reports g (scores actual : Series) :
  data g !! "nnbjet" = Some scores -> data g !! "isb" = Some actual ->
  length scores = length actual ->
  (0 < length actual)%nat -> Z.of_nat (length actual) <= sys_maxsize ->
  let predicted := map (spec_label lit_0_82) scores in
  let count r c := spec_count r c predicted actual in
  let fracWrong := PyFloat.div (PyFloat.of_Z (count 0 1 + count 1 0))
                               (PyFloat.of_Z (Z.of_nat (length actual))) in
  aleph_tag g =
    (Ok (count 0 0, count 0 1, count 1 0, count 1 1,
         fracWrong, PyFloat.sub PyFloat.one fracWrong),
     set_bquark predicted g) /\
  (binary_col actual ->
   count 0 0 + count 0 1 + count 1 0 + count 1 1 = Z.of_nat (length actual)).
Proof.
  intros Hs Ha Hlen Hpos Hmax predicted count fracWrong.
  subst fracWrong count. cbv beta. split.
  - unfold aleph_tag.
    rewrite (bind_run _ _ _ _ _ (select_nnbjet_run g scores Hs)).
    rewrite (evaluate_and_print_ok _ actual); try assumption.
    + reflexivity.
    + cbn [bquark set_bquark]. rewrite length_map. lia.
  - intros Hb. apply spec_count_binary_total; [|apply binary_labels|assumption].
    unfold predicted. rewrite length_map. assumption.
Qed.

Lemma aleph_tag_reports_witness :
  let g := globals_table [("nnbjet", [lit_0_1; lit_0_9; lit_0_82]);
                          ("isb", [PyFloat.zero; PyFloat.one; PyFloat.one])] in
  aleph_tag g =
    (Ok (1, 1, 0, 1, S754_finite false 6004799503160661 (-54),
         S754_finite false 6004799503160662 (-53)),
     set_bquark [PyInt 0; PyInt 1; PyInt 0] g) /\
  (binary_col [PyFloat.zero; PyFloat.one; PyFloat.one] -> 1 + 1 + 0 + 1 = Z.of_nat 3).
Proof.
  intros g.
  apply (aleph_tag_reports g [lit_0_1; lit_0_9; lit_0_82]
           [PyFloat.zero; PyFloat.one; PyFloat.one]).
  - reflexivity.
  - reflexivity.
  - reflexivity.
  - simpl. lia.
  - vm_compute. discriminate.
Defined.

Lemma evaluate_and_print_final g : final evaluate_and_print g = g.
Proof. unfold final. now rewrite evaluate_and_print_run. Qed.

(** The evaluation cell reads the list [bquark] and the truth column. *)
Lemma evaluate_and_print_reads g g' :
  data g !! "isb" = data g' !! "isb" -> bquark g = bquark g' ->
  outcome evaluate_and_print g = outcome evaluate_and_print g'.
Proof.
  intros Hd Hb. unfold outcome at 1 2. rewrite !evaluate_and_print_run. cbn [fst].
  rewrite Hb.
  destruct (reads_only_isb_evaluate (bquark g') g') as [_ Hread].
  now rewrite (Hread g Hd).
Qed.

Lemma evaluate_and_print_key_error g :
  outcome evaluate_and_print g = Raise KeyError <-> data g !! "isb" = None.
Proof.
  unfold outcome at 1. rewrite evaluate_and_print_run. cbn [fst].
  destruct (data g !! "isb") as [actual|] eqn:Hcol.
  - rewrite (evaluate_outcome g (bquark g) actual Hcol).
    split; [|discriminate]. destruct (decide _); [discriminate|].
    destruct (report _ _ _ _ _) as [[[N a] f]|e] eqn:Hr.
    + apply report_matrix in Hr as [-> _]. discriminate.
    + apply report_raises in Hr as [-> | ->]; discriminate.
  - split; [reflexivity|]. intros _.
    unfold outcome, evaluate, bind, getcol. now rewrite Hcol.
Qed.

Lemma human_attempt_run g :
  human_attempt g =
  match data g !! "prob_b" with
  | Some scores =>
      let g1 := set_bquark (map (spec_label lit_0_15) scores) (set_cut_prop_b lit_0_15 g) in
      (outcome evaluate_and_print g1, g1)
  | None => (Raise KeyError, set_bquark [] (set_cut_prop_b lit_0_15 g))
  end.
Proof.
  unfold human_attempt. destruct (data g !! "prob_b") as [scores|] eqn:Hcol.
  - rewrite (bind_run _ _ _ _ _ (selection_cell_run g scores Hcol)).
    cbv zeta. unfold outcome. now rewrite evaluate_and_print_run.
  - now rewrite (bind_raise _ _ _ _ _ (selection_cell_raises g Hcol)).
Qed.

Lemma aleph_tag_run g :
  aleph_tag g =
  match data g !! "nnbjet" with
  | Some scores =>
      let g1 := set_bquark (map (spec_label lit_0_82) scores) g in
      (outcome evaluate_and_print g1, g1)
  | None => (Raise KeyError, set_bquark [] g)
  end.
Proof.
  unfold aleph_tag. destruct (data g !! "nnbjet") as [scores|] eqn:Hcol.
  - rewrite (bind_run _ _ _ _ _ (select_nnbjet_run g scores Hcol)).
    cbv zeta. unfold outcome. now rewrite evaluate_and_print_run.
  - now rewrite (bind_raise _ _ _ _ _ (select_nnbjet_raises g Hcol)).
Qed.

(** X14. What the two evaluation cells print depends on the table
    only, not on [SavePlots], the cut or the list [bquark] left by
    earlier cells; and neither cell changes the table. *)
Theorem evaluation_cells_depend_on_table_only g g' :
  data g = data g' ->
  (outcome human_attempt g = outcome human_attempt g' /\
   outcome aleph_tag g = outcome aleph_tag g') /\
  data (final human_attempt g) = data g /\
  data (final aleph_tag g) = data g.
Proof.
  intros Hd. unfold outcome at 1 2 3 4, final.
  rewrite !human_attempt_run, !aleph_tag_run. rewrite <- Hd.
  destruct (data g !! "prob_b") as [s1|], (data g !! "nnbjet") as [s2|];
    cbv zeta; cbn [fst snd data set_bquark set_cut_prop_b];
    repeat split; try reflexivity;
    apply evaluate_and_print_reads; cbn [data bquark set_bquark set_cut_prop_b];
    try reflexivity; now rewrite Hd.
Qed.

Lemma evaluation_cells_depend_on_table_only_witness :
  let table := [("prob_b", [lit_0_1; lit_0_9]); ("nnbjet", [lit_0_9; lit_0_1]);
                ("isb", [PyFloat.zero; PyFloat.one])] in
  let g := globals_table table in
  let g' := {| SavePlots := true; data := list_to_map table;
               cut_prop_b := lit_0_9; bquark := [] |} in
  (outcome human_attempt g = outcome human_attempt g' /\
   outcome aleph_tag g = outcome aleph_tag g') /\
  data (final human_attempt g) = data g /\
  data (final aleph_tag g) = data g.
Proof.
  intros table g g'. apply (evaluation_cells_depend_on_table_only g g'). reflexivity.
Defined.

(** X15. Each of the two evaluation cells raises [KeyError] exactly
    when the score column it thresholds or the truth column [isb] is
    missing. *)
Theorem evaluation_cells_key_error_iff g :
  (outcome human_attempt g = Raise KeyError <->
   data g !! "prob_b" = None \/ data g !! "isb" = None) /\
  (outcome aleph_tag g = Raise KeyError <->
   data g !! "nnbjet" = None \/ data g !! "isb" = None).
Proof.
  unfold outcome at 1 2. rewrite human_attempt_run, aleph_tag_run.
  split.
  - destruct (data g !! "prob_b") as [s|]; cbv zeta; cbn [fst].
    + rewrite evaluate_and_print_key_error. cbn [data set_bquark set_cut_prop_b].
      split; [auto | intros [H | H]; [discriminate | assumption]].
    + split; auto.
  - destruct (data g !! "nnbjet") as [s|]; cbv zeta; cbn [fst].
    + rewrite evaluate_and_print_key_error. cbn [data set_bquark].
      split; [auto | intros [H | H]; [discriminate | assumption]].
    + split; auto.
Qed.

(** ** Splitting a column by event type *)

(** A mask and its negation split a column. *)
Lemma boolean_index_partition (col : Series) :
  forall mask, length col = length mask ->
    boolean_index col mask ++ boolean_index col (map negb mask) ≡ₚ col.
Proof.
  unfold boolean_index.
  induction col as [|x col IH]; intros [|b mask] Hlen; try discriminate; [reflexivity|].
  injection Hlen as Hlen. specialize (IH mask Hlen).
  cbn [map zip zip_with]. rewrite !filter_cons. cbn [snd].
  destruct b; cbn [negb].
  - rewrite decide_True by reflexivity. rewrite decide_False by discriminate.
    cbn [fmap list_fmap app]. now constructor.
  - rewrite decide_False by discriminate. rewrite decide_True by reflexivity.
    cbn [fmap list_fmap]. rewrite <- Permutation_middle. now constructor.
Qed.

Lemma boolean_index_sublist (col : Series) :
  forall mask, boolean_index col mask `sublist_of` col.
Proof.
  unfold boolean_index.
  induction col as [|x col IH]; intros [|b mask]; try (apply sublist_nil_l).
  cbn [zip zip_with]. rewrite filter_cons. cbn [snd].
  destruct (decide (b = true)).
  - cbn [fmap list_fmap]. apply sublist_skip, IH.
  - apply sublist_cons, IH.
Qed.

Lemma split_by_type_run g (isb scores : Series) :
  data g !! "isb" = Some isb -> data g !! "prob_b" = Some scores ->
  split_by_type g =
  (Ok (boolean_index scores (series_eq isb 1),
       boolean_index scores (map negb (series_eq isb 1))), g).
Proof.
  intros Hi Hs. unfold split_by_type.
  step (getcol_run "isb" g isb Hi).
  step (getcol_run "prob_b" g scores Hs).
  step (getcol_run "prob_b" g scores Hs).
  reflexivity.
Qed.

(** Indexing by the mask [isb == k], or by its negation, keeps the rows
    where the comparison holds, or fails. *)
Lemma boolean_index_series_eq (col isb : Series) (k : Z) (b : bool) :
  boolean_index col (if b then series_eq isb k else map negb (series_eq isb k)) =
  (filter (fun xd => feq_lit xd.2 k = b) (zip col isb)).*1.
Proof.
  unfold boolean_index, series_eq. revert isb.
  induction col as [|x col IH]; intros [|d isb]; try (destruct b; reflexivity).
  specialize (IH isb).
  destruct b; cbn [map zip zip_with]; rewrite !filter_cons; cbn [snd];
    destruct (feq_lit d k); cbn [negb];
    repeat (first [rewrite decide_True by reflexivity | rewrite decide_False by discriminate]);
    cbn [fmap list_fmap fst]; now rewrite IH.
Qed.

(** X16. The two samples of [prob_b] selected by [isb == 1] and by its
    negation split the column: the first holds the scores of the rows
    with [isb == 1], the second those of every other row, be its truth
    0, NaN or anything else; together they hold every row once, each in
    the order of the column. *)
Theorem split_by_type_partitions g (isb scores : Series) :
  data g !! "isb" = Some isb -> data g !! "prob_b" = Some scores ->
  length scores = length isb ->
  exists bjets ljets,
    split_by_type g = (Ok (bjets, ljets), g) /\
    bjets = (filter (fun xd => feq_lit xd.2 1 = true) (zip scores isb)).*1 /\
    ljets = (filter (fun xd => feq_lit xd.2 1 = false) (zip scores isb)).*1 /\
    bjets ++ ljets ≡ₚ scores /\
    bjets `sublist_of` scores /\ ljets `sublist_of` scores.
Proof.
  intros Hi Hs Hlen. do 2 eexists.
  split; [apply (split_by_type_run g isb scores Hi Hs)|].
  assert (Hm : length scores = length (series_eq isb 1))
    by (unfold series_eq; now rewrite length_map).
  split; [apply (boolean_index_series_eq scores isb 1 true)|].
  split; [apply (boolean_index_series_eq scores isb 1 false)|].
  split; [now apply boolean_index_partition|].
  split; apply boolean_index_sublist.
Qed.

Lemma split_by_type_partitions_witness :
  let g := globals_table [("prob_b", [lit_0_1; lit_0_9; PyFloat.half; lit_0_15]);
                          ("isb", [PyFloat.zero; PyFloat.one; nan; PyFloat.one])] in
  exists bjets ljets,
    split_by_type g = (Ok (bjets, ljets), g) /\
    bjets = [lit_0_9; lit_0_15] /\
    ljets = [lit_0_1; PyFloat.half] /\
    bjets ++ ljets ≡ₚ [lit_0_1; lit_0_9; PyFloat.half; lit_0_15] /\
    bjets `sublist_of` [lit_0_1; lit_0_9; PyFloat.half; lit_0_15] /\
    ljets `sublist_of` [lit_0_1; lit_0_9; PyFloat.half; lit_0_15].
Proof.
  intros g.
  apply (split_by_type_partitions g [PyFloat.zero; PyFloat.one; nan; PyFloat.one]
           [lit_0_1; lit_0_9; PyFloat.half; lit_0_15]); reflexivity.
Defined.

(** ** Choosing the input variables *)


Lemma input_variables_elem variables v :
  v ∈ input_variables variables <-> v ∈ variables /\ v ∉ excluded.
Proof.
  unfold input_variables, excluded. rewrite list_elem_of_filter.
  rewrite !not_elem_of_cons. pose proof (not_elem_of_nil v). tauto.
Qed.

Lemma getcols_run g names :
  (forall v, v ∈ names -> is_Some (data g !! v)) ->
  exists cols,
    getcols names g = (Ok cols, g) /\ cols.*1 = names /\
    forall v col, (v, col) ∈ cols -> data g !! v = Some col.
Proof.
  induction names as [|name names IH]; intros Hall.
  - exists []. repeat split. intros v col H. now apply elem_of_nil in H.
  - destruct (Hall name ltac:(left)) as [col Hcol].
    destruct IH as (cols & Hrun & Hnames & Hcols).
    { intros v Hv. apply Hall. now right. }
    exists ((name, col) :: cols). cbn [getcols].
    step (getcol_run name g col Hcol). step Hrun.
    split; [reflexivity|]. split; [cbn [fmap list_fmap fst]; now f_equal|].
    intros v c [[= -> ->] | H]%elem_of_cons; auto.
Qed.

(** X17. On a table with the columns [isb] and [nnbjet], the cell
    that chooses the inputs raises nothing; [input_data] holds, in the
    order of the header, the columns of the table other than [nnbjet],
    [isb], [energy], [cTheta] and [phi], whether or not the table has
    the last three. *)
Theorem choose_inputs_splits_table g variables (isb nnbjet : Series) :
  (forall v, v ∈ variables -> is_Some (data g !! v)) ->
  data g !! "isb" = Some isb -> data g !! "nnbjet" = Some nnbjet ->
  exists input_data,
    choose_inputs variables g = (Ok (input_data, isb, nnbjet), g) /\
    (forall v, v ∈ input_data.*1 <-> v ∈ variables /\ v ∉ excluded) /\
    input_data.*1 `sublist_of` variables /\
    (forall v col, (v, col) ∈ input_data -> data g !! v = Some col).
Proof.
  intros Hall Hi Hn.
  destruct (getcols_run g (input_variables variables)) as (cols & Hrun & Hnames & Hcols).
  { intros v [Hv _]%input_variables_elem. now apply Hall. }
  exists cols. unfold choose_inputs.
  step Hrun. step (getcol_run "isb" g isb Hi). step (getcol_run "nnbjet" g nnbjet Hn).
  split; [reflexivity|]. rewrite Hnames.
  split; [apply input_variables_elem|].
  split; [apply sublist_filter | exact Hcols].
Qed.

Lemma choose_inputs_splits_table_witness :
  let g := globals_table [("prob_b", [lit_0_1]); ("energy", [lit_0_9]);
                          ("isb", [PyFloat.one]); ("nnbjet", [lit_0_82])] in
  exists input_data,
    choose_inputs ["energy"; "prob_b"; "isb"; "nnbjet"] g =
      (Ok (input_data, [PyFloat.one], [lit_0_82]), g) /\
    (forall v, v ∈ input_data.*1 <->
               v ∈ ["energy"; "prob_b"; "isb"; "nnbjet"] /\ v ∉ excluded) /\
    input_data.*1 `sublist_of` ["energy"; "prob_b"; "isb"; "nnbjet"] /\
    (forall v col, (v, col) ∈ input_data -> data g !! v = Some col).
Proof.
  intros g.
  apply (choose_inputs_splits_table g ["energy"; "prob_b"; "isb"; "nnbjet"]
           [PyFloat.one] [lit_0_82]).
  - intros v Hv. repeat (apply elem_of_cons in Hv as [-> | Hv]; [vm_compute; eauto|]).
    now apply elem_of_nil in Hv.
  - reflexivity.
  - reflexivity.
Defined.

(** X18. The cell that chooses the inputs raises [KeyError] exactly
    when the table lacks [isb] or [nnbjet]. *)
Theorem choose_inputs_key_error_iff g variables :
  (forall v, v ∈ variables -> is_Some (data g !! v)) ->
  outcome (choose_inputs variables) g = Raise KeyError <->
  data g !! "isb" = None \/ data g !! "nnbjet" = None.
Proof.
  intros Hall.
  destruct (getcols_run g (input_variables variables)) as (cols & Hrun & _).
  { intros v [Hv _]%input_variables_elem. now apply Hall. }
  unfold outcome, choose_inputs. step Hrun.
  unfold bind, getcol, ret.
  destruct (data g !! "isb"), (data g !! "nnbjet"); cbn [fst];
    split; auto; try discriminate; intros [H | H]; discriminate.
Qed.

Lemma choose_inputs_key_error_iff_witness :
  let g := globals_table [("prob_b", [lit_0_1]); ("isb", [PyFloat.one])] in
  outcome (choose_inputs ["prob_b"; "isb"]) g = Raise KeyError <->
  data g !! "isb" = None \/ data g !! "nnbjet" = None.
Proof.
  intros g. apply (choose_inputs_key_error_iff g ["prob_b"; "isb"]).
  intros v Hv. repeat (apply elem_of_cons in Hv as [-> | Hv]; [vm_compute; eauto|]).
  now apply elem_of_nil in Hv.
Defined.

(** ** Moving the cut *)

(** [<] on floats is transitive. *)
Lemma ltb_trans x y z :
  PyFloat.ltb x y = true -> PyFloat.ltb y z = true -> PyFloat.ltb x z = true.
Proof.
  unfold PyFloat.ltb, SFltb.
  destruct x as [sx|sx| |sx mx ex], y as [sy|sy| |sy my ey], z as [sz|sz| |sz mz ez];
    cbn [SFcompare]; try discriminate;
    try (destruct sx, sy, sz; (discriminate || reflexivity)).
  destruct sx, sy, sz; try discriminate; try reflexivity.
  - destruct (Z.compare_spec ex ey), (Z.compare_spec ey ez), (Z.compare_spec ex ez);
      try discriminate; try reflexivity; try lia; subst.
    change (PosDef.Pos.compare_cont Eq) with Pos.compare.
    destruct (Pos.compare_spec mx my), (Pos.compare_spec my mz), (Pos.compare_spec mx mz);
      try discriminate; try reflexivity; lia.
  - destruct (Z.compare_spec ex ey), (Z.compare_spec ey ez), (Z.compare_spec ex ez);
      try discriminate; try reflexivity; try lia; subst.
    change (PosDef.Pos.compare_cont Eq) with Pos.compare.
    destruct (Pos.compare_spec mx my), (Pos.compare_spec my mz), (Pos.compare_spec mx mz);
      try discriminate; try reflexivity; lia.
Qed.

Lemma spec_label_one cut x : spec_label cut x = PyInt 1 <-> PyFloat.ltb cut x = true.
Proof. unfold spec_label. destruct (PyFloat.ltb cut x); split; (discriminate || reflexivity). Qed.

(** X19. With a strictly higher cut, the selection labels 1 only rows
    it labels 1 with the lower cut: raising the cut never selects a new
    row. *)
Theorem select_bquark_higher_cut g g' (scores : Series) :
  data g !! "prob_b" = Some scores -> data g' !! "prob_b" = Some scores ->
  PyFloat.ltb (cut_prop_b g) (cut_prop_b g') = true ->
  forall i, bquark (final select_bquark g') !! i = Some (PyInt 1) ->
            bquark (final select_bquark g) !! i = Some (PyInt 1).
Proof.
  intros Hcol Hcol' Hcut i. unfold final.
  rewrite (select_bquark_run g scores Hcol), (select_bquark_run g' scores Hcol').
  cbn [snd bquark set_bquark]. rewrite !list_lookup_fmap.
  destruct (@lookup nat float (list float) _ i scores) as [x|]; simpl; [|discriminate].
  intros [= H]. f_equal. apply spec_label_one. apply spec_label_one in H.
  exact (ltb_trans _ _ _ Hcut H).
Qed.

Lemma select_bquark_higher_cut_witness :
  let g := globals_scores [lit_0_1; PyFloat.half; lit_0_9] lit_0_15 in
  let g' := globals_scores [lit_0_1; PyFloat.half; lit_0_9] PyFloat.half in
  bquark (final select_bquark g') !! 2%nat = Some (PyInt 1) /\
  bquark (final select_bquark g) !! 2%nat = Some (PyInt 1).
Proof.
  intros g g'.
  assert (H : bquark (final select_bquark g') !! 2%nat = Some (PyInt 1)) by reflexivity.
  split; [exact H|].
  exact (select_bquark_higher_cut g g' [lit_0_1; PyFloat.half; lit_0_9]
           eq_refl eq_refl eq_refl 2%nat H).
Defined.

(** ** Rows and batches *)

Lemma spec_count_perm r c (p1 p2 : list scalar) (a1 a2 : Series) :
  zip p1 a1 ≡ₚ zip p2 a2 -> spec_count r c p1 a1 = spec_count r c p2 a2.
Proof.
  intros H. rewrite !spec_count_filter. f_equal.
  apply Permutation_length. now apply filter_Permutation.
Qed.

(** X20. The outcome of [evaluate] depends on the rows, not on their
    order: two tables whose rows, each paired with its prediction, are
    permutations of each other get the same report, or the same
    exception. *)
Theorem evaluate_row_order_irrelevant g1 g2 (p1 p2 : list scalar) (a1 a2 : Series) :
  data g1 !! "isb" = Some a1 -> data g2 !! "isb" = Some a2 ->
  length p1 = length a1 -> length p2 = length a2 ->
  zip p1 a1 ≡ₚ zip p2 a2 ->
  outcome (evaluate p1) g1 = outcome (evaluate p2) g2.
Proof.
  intros H1 H2 Hl1 Hl2 Hperm.
  rewrite (evaluate_outcome g1 p1 a1 H1), (evaluate_outcome g2 p2 a2 H2).
  rewrite !decide_False by lia.
  assert (Hlen : length a1 = length a2).
  { apply Permutation_length in Hperm. rewrite !length_zip_with in Hperm. lia. }
  rewrite Hlen. now rewrite !(spec_count_perm _ _ p1 p2 a1 a2 Hperm).
Qed.

Lemma evaluate_row_order_irrelevant_witness :
  let g1 := globals_with [PyFloat.zero; PyFloat.one; PyFloat.one] in
  let g2 := globals_with [PyFloat.one; PyFloat.one; PyFloat.zero] in
  outcome (evaluate [PyInt 1; PyInt 1; PyInt 0]) g1 =
  outcome (evaluate [PyInt 0; PyInt 1; PyInt 1]) g2.
Proof.
  intros g1 g2.
  apply (evaluate_row_order_irrelevant g1 g2 [PyInt 1; PyInt 1; PyInt 0]
           [PyInt 0; PyInt 1; PyInt 1] [PyFloat.zero; PyFloat.one; PyFloat.one]
           [PyFloat.one; PyFloat.one; PyFloat.zero]); try reflexivity.
  exact (Permutation_rev [(PyInt 1, PyFloat.zero); (PyInt 1, PyFloat.one);
                          (PyInt 0, PyFloat.one)]).
Defined.

Lemma spec_count_app r c (p1 p2 : list scalar) (a1 a2 : Series) :
  length p1 = length a1 ->
  spec_count r c (p1 ++ p2) (a1 ++ a2) = spec_count r c p1 a1 + spec_count r c p2 a2.
Proof.
  revert a1. induction p1 as [|v p1 IH]; intros [|d a1] Hlen; try discriminate.
  - reflexivity.
  - injection Hlen as Hlen. cbn [app spec_count]. rewrite IH by assumption. lia.
Qed.

(** X21. The matrix of two batches evaluated as one table is the
    cell by cell sum of the matrices of the batches. *)
Theorem evaluate_counts_add_over_batches
    g1 g2 g (p1 p2 : list scalar) (a1 a2 : Series)
    n00 n01 n10 n11 acc1 fw1 m00 m01 m10 m11 acc2 fw2 :
  data g1 !! "isb" = Some a1 -> data g2 !! "isb" = Some a2 ->
  data g !! "isb" = Some (a1 ++ a2) ->
  length p1 = length a1 ->
  Z.of_nat (length (a1 ++ a2)) <= sys_maxsize ->
  outcome (evaluate p1) g1 = Ok (mat n00 n01 n10 n11, acc1, fw1) ->
  outcome (evaluate p2) g2 = Ok (mat m00 m01 m10 m11, acc2, fw2) ->
  exists accuracy fracWrong,
    outcome (evaluate (p1 ++ p2)) g =
    Ok (mat (n00 + m00) (n01 + m01) (n10 + m10) (n11 + m11), accuracy, fracWrong).
Proof.
  intros H1 H2 H Hlen Hmax Ho1 Ho2. rewrite length_app in Hmax.
  apply (evaluate_returned g1 p1 a1) in Ho1 as (Hl1 & HN1 & _); [|assumption|lia].
  apply (evaluate_returned g2 p2 a2) in Ho2 as (Hl2 & HN2 & _); [|assumption|lia].
  injection HN1 as -> -> -> ->. injection HN2 as -> -> -> ->.
  rewrite (evaluate_outcome g (p1 ++ p2) (a1 ++ a2) H).
  rewrite decide_False by (rewrite !length_app; lia).
  rewrite report_ok; [|rewrite length_app; lia|rewrite length_app; lia|apply wrong_count_bounds].
  rewrite !spec_count_app by assumption. eauto.
Qed.

Lemma evaluate_counts_add_over_batches_witness :
  let g1 := globals_with [PyFloat.zero; PyFloat.one] in
  let g2 := globals_with [PyFloat.one] in
  let g := globals_with [PyFloat.zero; PyFloat.one; PyFloat.one] in
  exists accuracy fracWrong,
    outcome (evaluate ([PyInt 1; PyInt 1] ++ [PyInt 0])) g =
    Ok (mat (0 + 0) (0 + 1) (1 + 0) (1 + 0), accuracy, fracWrong).
Proof.
  intros g1 g2 g.
  apply (evaluate_counts_add_over_batches g1 g2 g [PyInt 1; PyInt 1] [PyInt 0]
           [PyFloat.zero; PyFloat.one] [PyFloat.one]
           0 0 1 1 PyFloat.half PyFloat.half 0 1 0 0 PyFloat.zero PyFloat.one).
  - reflexivity.
  - reflexivity.
  - reflexivity.
  - reflexivity.
  - vm_compute. discriminate.
  - vm_compute. reflexivity.
  - vm_compute. reflexivity.
Defined.
